(** * FutBotV2: order lifecycle, risk gate and position ledger

  A shallow embedding of the trading core of the repository
  ([exchange/position_tracker.py], [strategies/risk_management.py],
  [exchange/order_manager.py]) and the properties its specification
  states about it.

  Conventions of the embedding:
  - Python floats are rationals ([Q]); comparisons are the boolean ones of
    [QArith], and sums, differences and products are exact except where
    their result is a price or a quantity sent to the exchange:
    [round(x, n)] takes the float nearest to [x] and rounds its exact
    value half-to-even at [n] decimals, as CPython does, and the products
    and quotients of the retry prices and of the take-profit quantities
    are float operations ([Py.mul], [Py.div]).
  - Python dicts keep insertion order, so the ledger is an association
    list; the uniqueness of its keys is proved, not assumed.
  - Exceptions carry their message ([str(e)]) as a [string].
  - The exchange and the notifier are an arbitrary deterministic
    responder threaded through a state-and-error monad, and every call
    made to them is appended to a log. *)

From Stdlib Require Import QArith Qabs ZArith List String Bool Lia Lqa.
Import ListNotations.

Set Implicit Arguments.

(** ** Python arithmetic on floats, over [Q] *)

Module Py.

Definition lt (a b : Q) : bool := negb (Qle_bool b a).
Definition le (a b : Q) : bool := Qle_bool a b.
Definition eq (a b : Q) : bool := Qeq_bool a b.

(** [max(a, b)]: the first argument unless the second is strictly larger. *)
Definition max (a b : Q) : Q := if lt a b then b else a.

(** [min(a, b)]: the first argument unless the second is strictly smaller. *)
Definition min (a b : Q) : Q := if lt b a then b else a.

Definition abs (a : Q) : Q := Qabs a.

(** Nearest integer, ties to the even one. *)
Definition round_half_even (x : Q) : Z :=
  let n := Qnum x in
  let d := Zpos (Qden x) in
  let f := (n / d)%Z in
  let r2 := (2 * (n mod d))%Z in
  if (r2 <? d)%Z then f
  else if (d <? r2)%Z then (f + 1)%Z
  else if Z.even f then f else (f + 1)%Z.

Definition pow10 (n : Z) : Q :=
  if (0 <=? n)%Z then inject_Z (10 ^ n) else / inject_Z (10 ^ (- n)).

Definition pow2 (n : Z) : Q :=
  if (0 <=? n)%Z then inject_Z (2 ^ n) else / inject_Z (2 ^ (- n)).

(** The integer part of the binary logarithm of [|x|], for [x] other
    than 0. *)
Definition ilog2 (x : Q) : Z :=
  let n := Z.abs (Qnum x) in
  let d := Zpos (Qden x) in
  let k := (Z.log2 n - Z.log2 d)%Z in
  if (if (0 <=? k)%Z then (d * 2 ^ k <=? n)%Z else (d <=? n * 2 ^ (- k))%Z)
  then k else (k - 1)%Z.

(** The value of the float nearest to [x] (binary64: a significand of 53
    bits, ties to the even one, gradual underflow); a float's own value is
    left as it is.  Overflow to infinity is not represented: the values
    rounded are prices and quantities. *)
Definition float (x : Q) : Q :=
  if Qeq_bool x 0 then 0
  else
    let e := Z.max (ilog2 x - 52) (- 1074) in
    Qred (inject_Z (round_half_even (x / pow2 e)) * pow2 e).

(** [a * b] on floats: the exact product of the two floats, rounded to the
    nearest float. *)
Definition mul (a b : Q) : Q := float (float a * float b).

(** [a / b] on floats, for [b] other than 0. *)
Definition div (a b : Q) : Q := float (float a / float b).

(** [round(x, ndigits)] on a float: the exact value of the float is rounded
    to [ndigits] decimals, ties to the even one.  The result stands for the
    decimal it prints as. *)
Definition round (x : Q) (ndigits : Z) : Q :=
  Qred (inject_Z (round_half_even (float x * pow10 ndigits)) / pow10 ndigits).

(** [needle in hay] on strings. *)
Fixpoint contains (needle hay : string) : bool :=
  if String.prefix needle hay then true
  else match hay with
       | EmptyString => false
       | String _ rest => contains needle rest
       end.

End Py.

(** ** Data model *)

Inductive Side := BUY | SELL.

(** [{'price': ..., 'percentage': ...}] *)
Record TakeProfit := mkTP { tp_price : Q; tp_percentage : Q }.

(** The four keys [close_position] writes into a position dict. *)
Record ExitInfo := mkExit {
exit_price : Q;
exit_time : Z;
exit_reason : string;
pnl : Q
}.

(** A position dict.  [stop_loss] is [None] for a position adopted from the
  exchange; [exit_info] is absent until the position is closed. *)
Record Position := mkPosition {
symbol : string;
side : Side;
quantity : Q;
entry_price : Q;
leverage : option Z;
entry_time : Z;
stop_loss : option Q;
take_profits : list TakeProfit;
exit_info : option ExitInfo
}.

(** One element of the list [get_position_risk()] returns. *)
Record PositionRisk := mkPR {
pr_symbol : string;
positionAmt : Q;
entryPrice : Q;
markPrice : Q;
pr_leverage : Z;
unrealizedProfit : Q
}.

(** ** The position ledger: [exchange/position_tracker.py] *)

Module PositionTracker.

Record t := mk {
  positions : list (string * Position);   (* dict symbol -> position *)
  closed_positions : list Position
}.

Definition init : t := mk [] [].

(** [symbol in self.positions] *)
Definition tracked (s : string) (l : t) : bool :=
  existsb (fun kp => String.eqb (fst kp) s) (positions l).

(** [self.positions.get(symbol)] *)
Definition get_position (s : string) (l : t) : option Position :=
  option_map snd (find (fun kp => String.eqb (fst kp) s) (positions l)).

Definition add_position (p : Position) (l : t) : t :=
  if tracked (symbol p) l then l
  else mk (positions l ++ [(symbol p, p)]) (closed_positions l).

(** [position.update({...})] of [close_position]. *)
Definition with_exit (p : Position) (x : ExitInfo) : Position :=
  mkPosition (symbol p) (side p) (quantity p) (entry_price p) (leverage p)
             (entry_time p) (stop_loss p) (take_profits p) (Some x).

(** [del self.positions[symbol]] *)
Definition del (s : string) (d : list (string * Position)) :=
  filter (fun kp => negb (String.eqb (fst kp) s)) d.

Definition close_position (s : string) (xprice : Q) (xreason : string)
           (xpnl : Q) (now : Z) (l : t) : t :=
  match get_position s l with
  | None => l
  | Some p =>
      mk (del s (positions l))
         (closed_positions l ++ [with_exit p (mkExit xprice now xreason xpnl)])
  end.

Definition get_all_positions (l : t) : list Position := map snd (positions l).

Definition get_closed_positions (l : t) : list Position := closed_positions l.

Definition get_total_pnl (l : t) : Q :=
  fold_left (fun acc p => match exit_info p with
                          | Some x => acc + pnl x
                          | None => acc
                          end) (closed_positions l) 0.

(** [position['stop_loss'] = new_stop] on the dict the ledger holds
    (the trailing-stop updates mutate it in place). *)
Definition set_stop_loss (s : string) (new_stop : Q) (l : t) : t :=
  mk (map (fun kp =>
             if String.eqb (fst kp) s
             then (fst kp,
                   let p := snd kp in
                   mkPosition (symbol p) (side p) (quantity p) (entry_price p)
                              (leverage p) (entry_time p) (Some new_stop)
                              (take_profits p) (exit_info p))
             else kp) (positions l))
     (closed_positions l).

(** [next((p for p in exchange_positions if p['symbol'] == symbol), None)] *)
Definition snapshot_find (s : string) (snap : list PositionRisk) :=
  find (fun p => String.eqb (pr_symbol p) s) snap.

(** Body of the first loop of [sync_with_exchange]. *)
Definition sync_close_step (snap : list PositionRisk) (now : Z)
           (l : t) (s : string) : t :=
  match snapshot_find s snap with
  | None => close_position s 0 "external_close" 0 now l
  | Some pos =>
      if Py.eq (positionAmt pos) 0
      then close_position s (markPrice pos) "external_close"
                          (unrealizedProfit pos) now l
      else l
  end.

(** The dict [sync_with_exchange] builds for an exchange position. *)
Definition adopted (pos : PositionRisk) (now : Z) : Position :=
  mkPosition (pr_symbol pos)
             (if Py.lt 0 (positionAmt pos) then BUY else SELL)
             (Py.abs (positionAmt pos))
             (entryPrice pos)
             (Some (pr_leverage pos))
             now
             None
             []
             None.

(** Body of the second loop of [sync_with_exchange]. *)
Definition sync_add_step (now : Z) (l : t) (pos : PositionRisk) : t :=
  if negb (Py.eq (positionAmt pos) 0) && negb (tracked (pr_symbol pos) l)
  then add_position (adopted pos now) l
  else l.

(** [sync_with_exchange], given the snapshot the client returned. *)
Definition sync_with_exchange (snap : list PositionRisk) (now : Z) (l : t) : t :=
  let l1 := fold_left (sync_close_step snap now) (map fst (positions l)) l in
  fold_left (sync_add_step now) snap l1.

End PositionTracker.


(** ** Signals and configuration *)

(** A signal dict.  The keys read with [signal.get(key, default)] are
    optional; the others are read with [signal[key]]. *)
Record Signal := mkSignal {
sig_symbol : string;
sig_signal : Side;
sig_price : option Q;
sig_size : Q;
sig_stop_loss : Q;
sig_take_profits : list TakeProfit;
sig_strength : option Q;
sig_atr : option Q
}.

Record StrategyCfg := mkStrategyCfg {
min_signal_strength : option Q;
trade_cooldown_sec : option Q
}.

Record RiskCfg := mkRiskCfg { max_daily_loss : option Q }.

Record PairsCfg := mkPairsCfg { max_concurrent_positions : option Z }.

(** [config]: each section is present only when the configuration file
    has it ([utils/config_loader.py]). *)
Record Config := mkConfig {
cfg_strategy : option StrategyCfg;
cfg_risk : option RiskCfg;
cfg_pairs : option PairsCfg
}.

(** [d.get(key, default)] on an optional entry. *)
Definition get_or {A : Type} (o : option A) (default : A) : A :=
match o with
| Some v => v
| None => default
end.

(** [d.get(key, default)] on a dict kept as an association list. *)
Definition dict_get {A : Type} (k : string) (d : list (string * A)) (default : A) : A :=
match find (fun kv => String.eqb (fst kv) k) d with
| Some kv => snd kv
| None => default
end.

(** [d[key] = v]: in place when the key is there, appended otherwise. *)
Fixpoint dict_set {A : Type} (k : string) (v : A) (d : list (string * A)) : list (string * A) :=
match d with
| [] => [(k, v)]
| kv :: rest => if String.eqb (fst kv) k then (k, v) :: rest
                else kv :: dict_set k v rest
end.

(** ** The risk gate: [strategies/risk_management.py] *)

Module RiskManagement.

Record t := mk {
  last_trade_time : list (string * Q);
  daily_pnl : Q;
  daily_start_time : Q;
  position_strengths : list (string * Q)
}.

Definition one_day : Q := 86400.

(** [reset_daily_stats], with [utcnow] the clock reading in seconds. *)
Definition reset_daily_stats (utcnow : Q) (r : t) : t :=
  if Py.lt one_day (utcnow - daily_start_time r)
  then mk (last_trade_time r) 0 utcnow (position_strengths r)
  else r.

(** Where [can_trade] leaves: one constructor per [return] statement, and
    [Failed] for the [except] branch. *)
Inductive Verdict :=
| ExistingPosition
| WeakSignal
| DailyLossLimit
| Replacing (weakest : string)
| MaxPositions
| HighVolatility
| Cooldown
| Allowed
| Failed.

(** The value returned at each exit. *)
Definition returns (v : Verdict) : bool :=
  match v with
  | Replacing _ | Allowed => true
  | _ => false
  end.

(** [min(d.items(), key=lambda x: abs(x[1]), default=(None, 0))[0]]:
    the first item of smallest absolute value. *)
Definition weakest_item (d : list (string * Q)) : option (string * Q) :=
  match d with
  | [] => None
  | x :: rest =>
      Some (fold_left (fun best y =>
                         if Py.lt (Py.abs (snd y)) (Py.abs (snd best))
                         then y else best) rest x)
  end.

(** Truth value of [weakest_symbol]: neither [None] nor the empty string. *)
Definition truthy_symbol (o : option (string * Q)) : option string :=
  match o with
  | Some (s, _) => if String.eqb s "" then None else Some s
  | None => None
  end.

(** [existing_pos]: the first snapshot entry of the symbol with a nonzero
    amount. *)
Definition existing_pos (s : string) (positions : list PositionRisk) :=
  find (fun p => String.eqb (pr_symbol p) s && negb (Py.eq (positionAmt p) 0))
       positions.

Definition active_positions (positions : list PositionRisk) :=
  filter (fun p => negb (Py.eq (positionAmt p) 0)) positions.

(** Checks 5 and 6 of [can_trade] (volatility, cooldown). *)
Definition additional_checks (cfg : Config) (now : Q) (r : t)
           (s : string) (signal : Signal) : Verdict :=
  let price := get_or (sig_price signal) 1 in
  if Py.eq price 0 then Failed                       (* ZeroDivisionError *)
  else if Py.lt (5 # 100) (get_or (sig_atr signal) 0 / price) then HighVolatility
  else
    let last := dict_get s (last_trade_time r) 0 in
    match cfg_strategy cfg with
    | None => Failed                                  (* KeyError *)
    | Some st =>
        let cooldown := get_or (trade_cooldown_sec st) 60 in
        if Py.lt (now - last) cooldown then Cooldown else Allowed
    end.

(** Check 4 of [can_trade] and what follows it. *)
Definition capacity_check (cfg : Config) (now : Q) (r : t)
           (positions : list PositionRisk) (s : string) (signal : Signal)
           (signal_strength : Q) : Verdict :=
  match cfg_pairs cfg with
  | None => Failed
  | Some pairs =>
      let max_positions := get_or (max_concurrent_positions pairs) 5%Z in
      let current_positions := Z.of_nat (List.length (active_positions positions)) in
      if (max_positions <=? current_positions)%Z then
        match truthy_symbol (weakest_item (position_strengths r)) with
        | Some weakest_symbol =>
            let weakest_strength :=
              Py.abs (dict_get weakest_symbol (position_strengths r) 0) in
            if Py.lt (weakest_strength * (12 # 10)) signal_strength
            then Replacing weakest_symbol
            else MaxPositions
        | None => MaxPositions
        end
      else additional_checks cfg now r s signal
  end.

(** The body of [can_trade] after [reset_daily_stats], given what
    [get_position_risk()] answered ([inl] when it raised). *)
Definition verdict (cfg : Config) (now : Q) (r : t)
           (snapshot : string + list PositionRisk)
           (s : string) (signal : Signal) : Verdict :=
  match snapshot with
  | inl _ => Failed
  | inr positions =>
      match existing_pos s positions with
      | Some _ => ExistingPosition
      | None =>
          let signal_strength := Py.abs (get_or (sig_strength signal) 0) in
          match cfg_strategy cfg with
          | None => Failed
          | Some st =>
              if Py.lt signal_strength (get_or (min_signal_strength st) (35 # 100))
              then WeakSignal
              else
                match cfg_risk cfg with
                | None => Failed
                | Some rk =>
                    if Py.lt (daily_pnl r) (- get_or (max_daily_loss rk) 5)
                    then DailyLossLimit
                    else capacity_check cfg now r positions s signal signal_strength
                end
          end
      end
  end.

(** [can_trade]: the state after the lazy daily reset, and the answer. *)
Definition can_trade (cfg : Config) (utcnow now : Q) (r : t)
           (snapshot : string + list PositionRisk)
           (s : string) (signal : Signal) : t * bool :=
  let r' := reset_daily_stats utcnow r in
  (r', returns (verdict cfg now r' snapshot s signal)).

(** [update_trade_outcome] (the trade history it also appends to is not
    read by the gate). *)
Definition update_trade_outcome (s : string) (pnl : Q)
           (signal_strength : option Q) (now : Q) (r : t) : t :=
  mk (dict_set s now (last_trade_time r))
     (daily_pnl r + pnl)
     (daily_start_time r)
     (match signal_strength with
      | Some st => dict_set s st (position_strengths r)
      | None => position_strengths r
      end).

End RiskManagement.


(** ** The collaborators of the order manager *)

Inductive OrderType := MARKET | STOP_MARKET | TAKE_PROFIT_MARKET.

(** The arguments of one [client.create_order(...)] call.  [req_reduceOnly]
    tells whether the [reduceOnly] keyword is passed at all. *)
Record OrderReq := mkReq {
req_symbol : string;
req_side : Side;
req_quantity : Q;
req_type : OrderType;
req_stopPrice : option Q;
req_reduceOnly : bool
}.

Record Fill := mkFill { fill_price : Q; fill_qty : Q }.

(** An order record as the exchange answers it. *)
Record Order := mkOrder {
orderId : Z;
ord_symbol : string;
executedQty : Q;
avgPrice : option Q;
fills : list Fill
}.

(** What the notifier is asked to send. *)
Inductive Notice :=
| TradeAlert (s : string) (fill_price : Q)
| OrderFailed (s : string) (error : string)
| PositionClosed (s : string) (reason : string) (pnl : Q)
| CloseFailed (s : string) (error : string).

(** Every call that leaves the process. *)
Inductive Event :=
| EvPositionRisk
| EvCreateOrder (r : OrderReq)
| EvGetOrder (s : string) (id : Z)
| EvCancelAll (s : string)
| EvOpenOrders (s : string)
| EvKlines (s : string)
| EvPrecision (s : string)
| EvSleep (seconds : Q)
| EvNotify (n : Notice).

(** The exchange client and the clock, as a deterministic responder over
    its own state [E]; [inl msg] is a raised exception of message [msg]. *)
Record Client (E : Type) := mkClient {
get_position_risk : E -> (string + list PositionRisk) * E;
create_order : OrderReq -> E -> (string + Order) * E;
get_order : string -> Z -> E -> (string + Order) * E;
cancel_all_orders : string -> E -> (string + unit) * E;
open_orders : string -> E -> (string + list Order) * E;
last_close : string -> E -> (string + Q) * E;
get_precision : string -> E -> (string + Z) * E;
utcnow : E -> Z
}.

(** The order manager's own state together with the outside world. *)
Record World (E : Type) := mkWorld {
env : E;
log : list Event;
tracker : PositionTracker.t;
active_orders : list string;
risk_manager : option RiskManagement.t;
has_notifier : bool
}.

(** ** The order manager: [exchange/order_manager.py] *)

Module OrderManager.

Section WithClient.

Variable E : Type.
Variable client : Client E.

(** Computations that read and write the world and may raise. *)
Definition M (A : Type) : Type := World E -> (string + A) * World E.

Definition ret {A : Type} (a : A) : M A := fun w => (inr a, w).

Definition raise {A : Type} (msg : string) : M A := fun w => (inl msg, w).

Definition bind {A B : Type} (m : M A) (k : A -> M B) : M B :=
  fun w => match m w with
           | (inr a, w') => k a w'
           | (inl e, w') => (inl e, w')
           end.

(** [try: m  except Exception as e: h e] *)
Definition try_except {A : Type} (m : M A) (h : string -> M A) : M A :=
  fun w => match m w with
           | (inr a, w') => (inr a, w')
           | (inl e, w') => h e w'
           end.

Notation "x <- m ;; k" := (bind m (fun x => k))
  (at level 61, m at next level, right associativity).
Notation "m ;;; k" := (bind m (fun _ => k))
  (at level 61, right associativity).

Definition record (ev : Event) (w : World E) : World E :=
  mkWorld (env w) (log w ++ [ev]) (tracker w) (active_orders w)
          (risk_manager w) (has_notifier w).

(** One call to the client: logged, then answered by the responder. *)
Definition call {A : Type} (ev : Event) (f : E -> (string + A) * E) : M A :=
  fun w => let w1 := record ev w in
           let (r, e') := f (env w1) in
           (r, mkWorld e' (log w1) (tracker w1) (active_orders w1)
                       (risk_manager w1) (has_notifier w1)).

Definition emit (ev : Event) : M unit := fun w => (inr tt, record ev w).

Definition sleep (seconds : Q) : M unit := emit (EvSleep seconds).

Definition client_get_position_risk : M (list PositionRisk) :=
  call EvPositionRisk (get_position_risk client).

Definition client_create_order (r : OrderReq) : M Order :=
  call (EvCreateOrder r) (create_order client r).

Definition client_get_order (s : string) (id : Z) : M Order :=
  call (EvGetOrder s id) (get_order client s id).

Definition client_cancel_all_orders (s : string) : M unit :=
  call (EvCancelAll s) (cancel_all_orders client s).

(** [client._request("GET", "/fapi/v1/openOrders", {'symbol': symbol})] *)
Definition client_open_orders (s : string) : M (list Order) :=
  call (EvOpenOrders s) (open_orders client s).

(** [float(get_klines(symbol, "1m", limit=1)['close'].iloc[-1])] *)
Definition client_last_close (s : string) : M Q :=
  call (EvKlines s) (last_close client s).

Definition client_get_precision (s : string) : M Z :=
  call (EvPrecision s) (get_precision client s).

(** [notifier.send_message(text)]: it logs its own errors and never raises. *)
Definition send_message (n : Notice) : M unit := emit (EvNotify n).

Definition opposite (sd : Side) : Side :=
  match sd with BUY => SELL | SELL => BUY end.

(** The first exchange position of the symbol with a nonzero amount. *)
Definition nonzero_position (s : string) (positions : list PositionRisk) :=
  find (fun p => String.eqb (pr_symbol p) s && negb (Py.eq (positionAmt p) 0))
       positions.

(** The market reduce-only order that flattens an exchange position. *)
Definition flatten_request (s : string) (p : PositionRisk) : OrderReq :=
  mkReq s (if Py.lt 0 (positionAmt p) then SELL else BUY)
        (Py.abs (positionAmt p)) MARKET None true.

Definition _check_existing_position (s : string) : M unit :=
  positions <- client_get_position_risk ;;
  match nonzero_position s positions with
  | Some existing =>
      client_create_order (flatten_request s existing) ;;;
      sleep 1
  | None => ret tt
  end.

(** The [try] body of one attempt of [_execute_market_order]. *)
Definition market_attempt (s : string) (sd : Side) (qty : Q) : M Order :=
  order <- client_create_order (mkReq s sd qty MARKET None false) ;;
  if Py.lt 0 (executedQty order) then ret order
  else
    sleep 1 ;;;
    verified <- client_get_order s (orderId order) ;;
    if Py.lt 0 (executedQty verified) then ret verified
    else raise "No execution confirmed".

(** [for attempt in range(3)] of [_execute_market_order], from [attempt]
    on, with [n] iterations left; [None] when the loop runs out. *)
Fixpoint market_loop (n attempt : nat) (s : string) (sd : Side) (qty : Q)
  : M (option Order) :=
  match n with
  | O => ret None
  | S n' =>
      try_except
        (order <- market_attempt s sd qty ;; ret (Some order))
        (fun e =>
           if Nat.eqb attempt 2
           then raise ("Order failed after retries: " ++ e)%string
           else sleep 1 ;;; market_loop n' (S attempt) s sd qty)
  end.

Definition _execute_market_order (s : string) (sd : Side) (qty : Q)
  : M (option Order) :=
  market_loop 3 0 s sd qty.

Definition sum_Q (l : list Q) : Q := fold_left Qplus l 0.

(** Third tier of [_calculate_avg_fill_price]: the entry price of the
    exchange position of the order's symbol. *)
Definition position_entry_price (order : Order) : M (option Q) :=
  positions <- client_get_position_risk ;;
  match find (fun p => String.eqb (pr_symbol p) (ord_symbol order)) positions with
  | Some pos => if Py.lt 0 (entryPrice pos) then ret (Some (entryPrice pos))
                else ret None
  | None => ret None
  end.

(** Second tier: the [avgPrice] field when present and positive. *)
Definition avg_price_field (order : Order) : M (option Q) :=
  match avgPrice order with
  | Some ap => if Py.lt 0 ap then ret (Some ap) else position_entry_price order
  | None => position_entry_price order
  end.

(** [_calculate_avg_fill_price], the definition in force (the later one
    in the class body). *)
Definition _calculate_avg_fill_price (order : Order) : M (option Q) :=
  try_except
    (match fills order with
     | [] => avg_price_field order
     | _ :: _ =>
         let total_qty := sum_Q (map fill_qty (fills order)) in
         if Py.lt 0 total_qty
         then ret (Some (sum_Q (map (fun f => fill_price f * fill_qty f) (fills order))
                         / total_qty))
         else avg_price_field order
     end)
    (fun _ => ret None).

(** *** Bracket prices *)

(** [min_sl_diff] and [min_tp_diff] (the same on both sides). *)
Definition min_sl_diff (current_price : Q) : Q :=
  Py.max (current_price * (15 # 10000)) (current_price * (5 # 10000)).

Definition min_tp_diff (current_price : Q) : Q :=
  Py.max (current_price * (2 # 1000)) (current_price * (5 # 10000)).

(** The stop-loss price after the adjustment of [_place_sl_tp_orders],
    before rounding. *)
Definition adjust_sl (sd : Side) (current_price sl_price : Q) : Q :=
  match sd with
  | BUY => Py.max sl_price (current_price - min_sl_diff current_price)
  | SELL => Py.min sl_price (current_price + min_sl_diff current_price)
  end.

(** One element of [adjusted_tps]. *)
Definition adjust_tp (sd : Side) (current_price : Q) (price_precision : Z)
           (tp : TakeProfit) : TakeProfit :=
  match sd with
  | BUY => mkTP (Py.round (Py.max (tp_price tp) (current_price + min_tp_diff current_price))
                          price_precision)
                (tp_percentage tp)
  | SELL => mkTP (Py.round (Py.min (tp_price tp) (current_price - min_tp_diff current_price))
                           price_precision)
                 (tp_percentage tp)
  end.

(** The stop price and the take-profits [_place_sl_tp_orders] hands to
    [_place_orders_with_retry]. *)
Definition bracket_prices (sd : Side) (current_price : Q) (price_precision : Z)
           (sl_price : Q) (tps : list TakeProfit) : Q * list TakeProfit :=
  (Py.round (adjust_sl sd current_price sl_price) price_precision,
   map (adjust_tp sd current_price price_precision) tps).

Definition sl_request (s : string) (sd : Side) (qty : Q) (price_precision : Z)
           (sl_price : Q) : OrderReq :=
  mkReq s (opposite sd) (Py.round qty price_precision) STOP_MARKET
        (Some sl_price) true.

Definition tp_request (s : string) (sd : Side) (qty : Q) (price_precision : Z)
           (tp : TakeProfit) : OrderReq :=
  mkReq s (opposite sd)
        (Py.round (Py.mul qty (Py.div (tp_percentage tp) 100)) price_precision)
        TAKE_PROFIT_MARKET (Some (tp_price tp)) true.

(** [for tp in take_profits: await create_order(...)] *)
Fixpoint place_tps (s : string) (sd : Side) (qty : Q) (price_precision : Z)
         (tps : list TakeProfit) : M unit :=
  match tps with
  | [] => ret tt
  | tp :: rest =>
      client_create_order (tp_request s sd qty price_precision tp) ;;;
      place_tps s sd qty price_precision rest
  end.

(** The [try] body of one attempt of [_place_orders_with_retry]: the stop
    order, then every take-profit. *)
Definition bracket_attempt (s : string) (sd : Side) (qty : Q) (price_precision : Z)
           (sl_price : Q) (tps : list TakeProfit) : M bool :=
  client_create_order (sl_request s sd qty price_precision sl_price) ;;;
  place_tps s sd qty price_precision tps ;;;
  ret true.

Definition adjustment_factor (sd : Side) : Q :=
  match sd with BUY => 1001 # 1000 | SELL => 999 # 1000 end.

(** The prices of the next attempt: the float product, rounded. *)
Definition nudge_sl (sd : Side) (price_precision : Z) (sl_price : Q) : Q :=
  Py.round (Py.mul sl_price (adjustment_factor sd)) price_precision.

Definition nudge_tp (sd : Side) (price_precision : Z) (tp : TakeProfit) : TakeProfit :=
  mkTP (Py.round (Py.mul (tp_price tp) (adjustment_factor sd)) price_precision)
       (tp_percentage tp).

(** [for attempt in range(max_retries)] of [_place_orders_with_retry],
    from [attempt] on, with [n] iterations left; [None] when the loop
    runs out without returning. *)
Fixpoint retry_loop (n attempt max_retries : nat) (s : string) (sd : Side)
         (qty : Q) (sl_price : Q) (tps : list TakeProfit) (price_precision : Z)
  : M (option bool) :=
  match n with
  | O => ret None
  | S n' =>
      try_except
        (b <- bracket_attempt s sd qty price_precision sl_price tps ;; ret (Some b))
        (fun e =>
           if Nat.eqb attempt (max_retries - 1)
           then raise e
           else
             sleep 1 ;;;
             retry_loop n' (S attempt) max_retries s sd qty
                        (nudge_sl sd price_precision sl_price)
                        (map (nudge_tp sd price_precision) tps)
                        price_precision)
  end.

Definition _place_orders_with_retry (s : string) (sd : Side) (qty : Q)
           (sl_price : Q) (tps : list TakeProfit) (price_precision : Z)
           (max_retries : nat) : M (option bool) :=
  retry_loop max_retries 0 max_retries s sd qty sl_price tps price_precision.

(** [_place_sl_tp_orders], the definition in force (the later one in the
    class body).  Its [except] branch logs and re-raises. *)
Definition _place_sl_tp_orders (s : string) (sd : Side) (qty entry_price sl_price : Q)
           (tps : list TakeProfit) : M bool :=
  try_except
    (current_price <- client_last_close s ;;
     price_precision <- client_get_precision s ;;
     let (sl, adjusted_tps) := bracket_prices sd current_price price_precision sl_price tps in
     _place_orders_with_retry s sd qty sl adjusted_tps price_precision 3 ;;;
     ret true)
    (fun e => raise e).

(** The earlier [_place_sl_tp_orders] of the class body, which the later
    definition replaces: no price adjustment, and a check of the open
    orders. *)
Definition _place_sl_tp_orders_shadowed (s : string) (sd : Side)
           (qty entry_price sl_price : Q) (tps : list TakeProfit) : M unit :=
  client_create_order (mkReq s (opposite sd) qty STOP_MARKET (Some sl_price) true) ;;;
  (fix each (l : list TakeProfit) : M unit :=
     match l with
     | [] => ret tt
     | tp :: rest =>
         client_create_order
           (mkReq s (opposite sd) (qty * (tp_percentage tp / 100))
                  TAKE_PROFIT_MARKET (Some (tp_price tp)) true) ;;;
         each rest
     end) tps ;;;
  sleep 1 ;;;
  orders <- client_open_orders s ;;
  if Nat.ltb (List.length orders) (List.length tps + 1)
  then raise "Not all SL/TP orders were placed"
  else ret tt.

(** *** Recording, alerts and rollback *)

Definition get_world : M (World E) := fun w => (inr w, w).

Definition set_tracker (l : PositionTracker.t) : M unit :=
  fun w => (inr tt, mkWorld (env w) (log w) l (active_orders w)
                            (risk_manager w) (has_notifier w)).

Definition set_active_orders (a : list string) : M unit :=
  fun w => (inr tt, mkWorld (env w) (log w) (tracker w) a
                            (risk_manager w) (has_notifier w)).

Definition set_risk_manager (r : RiskManagement.t) : M unit :=
  fun w => (inr tt, mkWorld (env w) (log w) (tracker w) (active_orders w)
                            (Some r) (has_notifier w)).

Definition _record_position (signal : Signal) (order : Order) (avg_price : Q) : M unit :=
  w <- get_world ;;
  set_tracker
    (PositionTracker.add_position
       (mkPosition (sig_symbol signal) (sig_signal signal) (executedQty order)
                   avg_price None (utcnow client (env w))
                   (Some (sig_stop_loss signal)) (sig_take_profits signal) None)
       (tracker w)).

Definition _send_trade_alert (signal : Signal) (fill_price : Q) : M unit :=
  w <- get_world ;;
  if has_notifier w
  then send_message (TradeAlert (sig_symbol signal) fill_price)
  else ret tt.

Definition _handle_failure (s : string) (error : string) : M unit :=
  try_except
    (client_cancel_all_orders s ;;;
     positions <- client_get_position_risk ;;
     match nonzero_position s positions with
     | Some pos => client_create_order (flatten_request s pos) ;;; ret tt
     | None => ret tt
     end)
    (fun _ => ret tt) ;;;
  w <- get_world ;;
  if has_notifier w then send_message (OrderFailed s error) else ret tt.

(** [avg_price] of [place_order]: the computed fill price, or the latest
    close when it is [None] or zero. *)
Definition fill_price_or_market (s : string) (order : Order) : M Q :=
  avg <- _calculate_avg_fill_price order ;;
  match avg with
  | Some p => if Py.eq p 0 then client_last_close s else ret p
  | None => client_last_close s
  end.

(** Steps 1 to 4 of [place_order]: the entry order and its fill price. *)
Definition entry_phase (signal : Signal) : M (Order * Q) :=
  _check_existing_position (sig_symbol signal) ;;;
  o <- _execute_market_order (sig_symbol signal) (sig_signal signal) (sig_size signal) ;;
  match o with
  | None => raise "Order not filled"
  | Some order =>
      if Py.le (executedQty order) 0 then raise "Order not filled"
      else
        avg_price <- fill_price_or_market (sig_symbol signal) order ;;
        ret (order, avg_price)
  end.

(** The [try] body of [place_order]. *)
Definition place_order_body (signal : Signal) : M Order :=
  oa <- entry_phase signal ;;
  _place_sl_tp_orders (sig_symbol signal) (sig_signal signal)
                      (executedQty (fst oa)) (snd oa)
                      (sig_stop_loss signal) (sig_take_profits signal) ;;;
  _record_position signal (fst oa) (snd oa) ;;;
  _send_trade_alert signal (snd oa) ;;;
  ret (fst oa).

Definition trigger_message : string := "Order would immediately trigger".

(** [place_order]: [Some order] when filled, [None] when deferred. *)
Definition place_order (signal : Signal) : M (option Order) :=
  try_except
    (order <- place_order_body signal ;; ret (Some order))
    (fun e =>
       if Py.contains trigger_message e then ret None
       else _handle_failure (sig_symbol signal) e ;;; raise e).

(** *** Closing a position *)

Definition _calculate_pnl (position : Position) (exit_price : Q) : Q :=
  match side position with
  | BUY => (exit_price - entry_price position) * quantity position
  | SELL => (entry_price position - exit_price) * quantity position
  end.

(** The order [close_position] sends. *)
Definition close_request (s : string) (position : Position) : OrderReq :=
  mkReq s (opposite (side position)) (quantity position) MARKET None false.

(** [notifier.send_alert(...)] of [close_position]: an attribute error when
    there is no notifier. *)
Definition send_alert (n : Notice) : M unit :=
  w <- get_world ;;
  if has_notifier w then send_message n
  else raise "'NoneType' object has no attribute 'send_alert'".

(** The [if result:] block of [close_position]. *)
Definition after_close (s : string) (reason : string) (current_price pnl : Q) : M unit :=
  w <- get_world ;;
  match risk_manager w with
  | None => raise "'OrderManager' object has no attribute 'risk_manager'"
  | Some r =>
      set_risk_manager
        (RiskManagement.mk (RiskManagement.last_trade_time r)
                           (RiskManagement.daily_pnl r)
                           (RiskManagement.daily_start_time r)
                           (filter (fun kv => negb (String.eqb (fst kv) s))
                                   (RiskManagement.position_strengths r))) ;;;
      set_tracker (PositionTracker.close_position s current_price reason pnl
                                                  (utcnow client (env w)) (tracker w)) ;;;
      set_active_orders (filter (fun k => negb (String.eqb k s)) (active_orders w)) ;;;
      send_alert (PositionClosed s reason pnl)
  end.

Definition close_position (s : string) (reason : string) : M (option Order) :=
  try_except
    (w <- get_world ;;
     match PositionTracker.get_position s (tracker w) with
     | None => ret None
     | Some position =>
         current_price <- client_last_close s ;;
         let pnl := _calculate_pnl position current_price in
         result <- client_create_order (close_request s position) ;;
         after_close s reason current_price pnl ;;;
         ret (Some result)
     end)
    (fun e => send_alert (CloseFailed s e) ;;; ret None).

(** *** Closing everything, trailing stops *)

(** The ledger update of [close_all_positions] for one exchange position. *)
Definition record_shutdown (position : PositionRisk) : M unit :=
  w <- get_world ;;
  match PositionTracker.get_position (pr_symbol position) (tracker w) with
  | Some _ =>
      set_tracker (PositionTracker.close_position
                     (pr_symbol position) (markPrice position) "shutdown"
                     (unrealizedProfit position) (utcnow client (env w)) (tracker w))
  | None => ret tt
  end.

(** One iteration of the loop of [close_all_positions]: [results] is the
    list so far, and what the inner [except] leaves of it. *)
Definition close_one (position : PositionRisk) (results : list Order) : M (list Order) :=
  if Py.eq (positionAmt position) 0 then ret results
  else
    try_except
      (result <- client_create_order (flatten_request (pr_symbol position) position) ;;
       try_except
         (client_cancel_all_orders (pr_symbol position) ;;;
          record_shutdown position ;;;
          ret (results ++ [result]))
         (fun _ => ret (results ++ [result])))
      (fun _ => ret results).

Fixpoint close_each (positions : list PositionRisk) (results : list Order)
  : M (list Order) :=
  match positions with
  | [] => ret results
  | position :: rest =>
      results' <- close_one position results ;;
      close_each rest results'
  end.

Definition close_all_positions : M (list Order) :=
  try_except
    (positions <- client_get_position_risk ;;
     close_each positions [])
    (fun e => raise e).

(** [position['stop_loss'] = new_stop] on the tracked position. *)
Definition move_stop (s : string) (new_stop : Q) : M unit :=
  w <- get_world ;;
  set_tracker (PositionTracker.set_stop_loss s new_stop (tracker w)).

(** [apply_trailing_stop]: nothing catches the division by a zero entry
    price or the comparison with a missing stop-loss. *)
Definition apply_trailing_stop (s : string) (activation_percent trail_percent : Q)
  : M unit :=
  w <- get_world ;;
  match PositionTracker.get_position s (tracker w) with
  | None => ret tt
  | Some position =>
      current_price <- client_last_close s ;;
      if Py.eq (entry_price position) 0 then raise "float division by zero"
      else
        match side position with
        | BUY =>
            let profit_pct := (current_price - entry_price position) / entry_price position in
            if Py.le activation_percent profit_pct then
              let new_stop := current_price * (1 - trail_percent) in
              match stop_loss position with
              | None => raise "'>' not supported between instances of 'float' and 'NoneType'"
              | Some sl => if Py.lt sl new_stop then move_stop s new_stop else ret tt
              end
            else ret tt
        | SELL =>
            let profit_pct := (entry_price position - current_price) / entry_price position in
            if Py.le activation_percent profit_pct then
              let new_stop := current_price * (1 + trail_percent) in
              match stop_loss position with
              | None => raise "'<' not supported between instances of 'float' and 'NoneType'"
              | Some sl => if Py.lt new_stop sl then move_stop s new_stop else ret tt
              end
            else ret tt
        end
  end.

End WithClient.

End OrderManager.


(** ** The position monitor: [exchange/position_monitor.py] *)

Module PositionMonitor.

Import OrderManager.

(** What one pass of [check_positions] decides for a position at the
    current price: the reason to close it with, nothing, or the type error
    of a comparison with a missing stop-loss. *)
Inductive Decision :=
| Close (reason : string)
| Hold
| TypeError.

(** [for tp in position['take_profits']: if ...: close; break] *)
Definition take_profit_hit (sd : Side) (current_price : Q) (tps : list TakeProfit) : bool :=
  existsb (fun tp => match sd with
                     | BUY => Py.le (tp_price tp) current_price
                     | SELL => Py.le current_price (tp_price tp)
                     end) tps.

Definition decide (position : Position) (current_price : Q) : Decision :=
  match stop_loss position with
  | None => TypeError
  | Some sl =>
      if match side position with
         | BUY => Py.le current_price sl
         | SELL => Py.le sl current_price
         end
      then Close "stop_loss"
      else if take_profit_hit (side position) current_price (take_profits position)
           then Close "take_profit"
           else Hold
  end.

Section WithClient.

Variable E : Type.
Variable client : Client E.

(** The [try] body of the loop of [check_positions]. *)
Definition check_one (position : Position) : M E unit :=
  bind (client_last_close client (symbol position))
       (fun current_price =>
          match decide position current_price with
          | TypeError =>
              raise "'<=' not supported between instances of 'float' and 'NoneType'"
          | Close reason =>
              bind (close_position client (symbol position) reason) (fun _ => ret tt)
          | Hold => ret tt
          end).

Fixpoint check_each (positions : list Position) : M E unit :=
  match positions with
  | [] => ret tt
  | position :: rest =>
      bind (try_except (check_one position) (fun _ => ret tt))
           (fun _ => check_each rest)
  end.

(** [check_positions]: over the list the ledger returned at the start. *)
Definition check_positions : M E unit :=
  bind (get_world (E:=E))
       (fun w => check_each (PositionTracker.get_all_positions (tracker w))).

End WithClient.

End PositionMonitor.

(** ** A scripted exchange, for running the order manager on concrete inputs *)

Module Fixture.

(** What the exchange answers: the position snapshot, the answer to market
    orders, the answer to stop and take-profit orders, the open orders, the
    latest close, the price precision and the clock. *)
Record Script := mkScript {
  sc_positions : list PositionRisk;
  sc_market : string + Order;
  sc_bracket : string + Order;
  sc_open_orders : list Order;
  sc_close : Q;
  sc_precision : Z;
  sc_now : Z
}.

(** The client that follows a script; it keeps no state of its own. *)
Definition scripted (sc : Script) : Client unit :=
  mkClient
    (fun e => (inr (sc_positions sc), e))
    (fun r e => (match req_type r with
                 | MARKET => sc_market sc
                 | _ => sc_bracket sc
                 end, e))
    (fun _ _ e => (sc_market sc, e))
    (fun _ e => (inr tt, e))
    (fun _ e => (inr (sc_open_orders sc), e))
    (fun _ e => (inr (sc_close sc), e))
    (fun _ e => (inr (sc_precision sc), e))
    (fun _ => sc_now sc).

(** A world with an empty log and an empty ledger. *)
Definition fresh : World unit :=
  mkWorld tt [] PositionTracker.init [] None true.

(** A filled entry order of [qty] at [price]. *)
Definition filled (s : string) (qty price : Q) : Order :=
  mkOrder 1 s qty (Some price) [mkFill price qty].

Definition accepted (s : string) : Order := mkOrder 2 s 0 None [].

Definition long_signal (sl : Q) (tps : list TakeProfit) : Signal :=
  mkSignal "BTCUSDT" BUY (Some 100) 2 sl tps (Some (6 # 10)) (Some 1).

(** The exchange's rejection of a stop that is on the wrong side of the
    mark price. *)
Definition trigger_error : string :=
  "API Error 400: {'code': -2021, 'msg': 'Order would immediately trigger.'}".

Definition margin_error : string :=
  "API Error 400: {'code': -2019, 'msg': 'Margin is insufficient.'}".

(** Entry fills at 100; every bracket order is accepted. *)
Definition calm : Script :=
  mkScript [] (inr (filled "BTCUSDT" 2 100)) (inr (accepted "BTCUSDT")) [] 100 2 1700000000.

(** Entry fills at 100; every bracket order is rejected with [err]. *)
Definition rejecting (err : string) : Script :=
  mkScript [] (inr (filled "BTCUSDT" 2 100)) (inl err) [] 100 2 1700000000.

(** The entry order itself is rejected with [err]. *)
Definition refusing (err : string) : Script :=
  mkScript [] (inl err) (inl err) [] 100 2 1700000000.

Definition long_position (s : string) (entry qty : Q) : Position :=
  mkPosition s BUY qty entry None 0 (Some (entry - 1)) [] None.

Definition short_position (s : string) (entry qty : Q) : Position :=
  mkPosition s SELL qty entry None 0 (Some (entry + 1)) [] None.

(** The default settings with [max_concurrent_positions] set to [n]. *)
Definition config (n : Z) : Config :=
  mkConfig (Some (mkStrategyCfg None None)) (Some (mkRiskCfg None))
           (Some (mkPairsCfg (Some n))).

(** One open exchange position, on ETHUSDT. *)
Definition one_open : list PositionRisk := [mkPR "ETHUSDT" 1 2000 2010 10 10].

(** A risk state that tracks ETHUSDT at strength 0.40 and traded BTCUSDT
    at time 1000. *)
Definition tracking_eth : RiskManagement.t :=
  RiskManagement.mk [("BTCUSDT"%string, 1000)] 0 0 [("ETHUSDT"%string, 4 # 10)].

(** A BTCUSDT signal of the given strength, with [atr] over a price of 100. *)
Definition signal_of (strength atr : Q) : Signal :=
  mkSignal "BTCUSDT" BUY (Some 100) 2 99 [mkTP 102 50] (Some strength) (Some atr).

(** The exchange quotes [price] for everything and accepts every order. *)
Definition quoting (price : Q) : Script :=
  mkScript [] (inr (filled "X" 2 price)) (inr (accepted "X")) [] price 2 1700000000.

(** A manager that holds the one position [p], with a risk manager attached. *)
Definition holding (p : Position) : World unit :=
  mkWorld tt [] (PositionTracker.add_position p PositionTracker.init) []
          (Some tracking_eth) true.

(** Entry fills at 100 and every stop order is accepted, but every
    take-profit order is rejected with [err]. *)
Definition stops_only (err : string) : Client unit :=
  mkClient
    (get_position_risk (scripted calm))
    (fun r e => match req_type r with
                | TAKE_PROFIT_MARKET => (inl err, e)
                | _ => create_order (scripted calm) r e
                end)
    (get_order (scripted calm))
    (cancel_all_orders (scripted calm))
    (open_orders (scripted calm))
    (last_close (scripted calm))
    (get_precision (scripted calm))
    (utcnow (scripted calm)).

(** Three exchange positions, the middle one flat; every market order is
    rejected. *)
Definition exposed : Script :=
  mkScript [mkPR "X" 3 100 101 10 3; mkPR "Y" 0 50 50 10 0; mkPR "Z" (-2) 70 69 10 2]
           (inl margin_error) (inl margin_error) [] 100 2 1700000000.

End Fixture.


(** ** Notions the properties are stated with *)

Module Ledger.

Import PositionTracker.

(** The ledgers the program can build: from the empty one, by the
    operations of [PositionTracker] and the in-place stop-loss update. *)
Inductive reachable : t -> Prop :=
| reach_init : reachable init
| reach_add (p : Position) (l : t) :
    reachable l -> reachable (add_position p l)
| reach_close (s : string) (xprice : Q) (xreason : string) (xpnl : Q) (now : Z) (l : t) :
    reachable l -> reachable (close_position s xprice xreason xpnl now l)
| reach_stop (s : string) (new_stop : Q) (l : t) :
    reachable l -> reachable (set_stop_loss s new_stop l)
| reach_sync (snap : list PositionRisk) (now : Z) (l : t) :
    reachable l -> reachable (sync_with_exchange snap now l).

(** Keys are pairwise distinct and each position is filed under its own
    symbol. *)
Definition wf (l : t) : Prop :=
  NoDup (map fst (positions l)) /\
  Forall (fun kp => symbol (snd kp) = fst kp) (positions l).

(** The exit data the first loop of [sync_with_exchange] records for a
    symbol: the mark price and unrealized profit of its first snapshot
    entry, or zero for both when the snapshot has none. *)
Definition external_exit (snap : list PositionRisk) (now : Z) (s : string) : ExitInfo :=
  match snapshot_find s snap with
  | None => mkExit 0 now "external_close" 0
  | Some pos => mkExit (markPrice pos) now "external_close" (unrealizedProfit pos)
  end.

(** The test of the first loop: no snapshot entry, or a zero amount. *)
Definition gone (snap : list PositionRisk) (s : string) : bool :=
  match snapshot_find s snap with
  | None => true
  | Some pos => Py.eq (positionAmt pos) 0
  end.

(** The test of a dict lookup. *)
Definition key_is (s : string) (kp : string * Position) : bool := String.eqb (fst kp) s.

End Ledger.

(** ** What a computation of the order manager leaves behind *)

Module Trace.

Import OrderManager.

(** [m] relates the world it starts in to the world it ends in by [R],
    whether it returns or raises. *)
Definition steps {E A : Type} (R : World E -> World E -> Prop) (m : M E A) : Prop :=
  forall w r w', m w = (r, w') -> R w w'.

(** The log grew by events that all satisfy [P]. *)
Definition logs {E : Type} (P : Event -> Prop) (w w' : World E) : Prop :=
  exists evs, log w' = log w ++ evs /\ Forall P evs.

(** The log grew by events that all satisfy [P], and the ledger, the
    notifier and the other fields of the manager are as they were. *)
Definition quiet {E : Type} (P : Event -> Prop) (w w' : World E) : Prop :=
  logs P w w' /\ tracker w' = tracker w /\ has_notifier w' = has_notifier w /\
  risk_manager w' = risk_manager w /\ active_orders w' = active_orders w.

Definition is_stop (ev : Event) : bool :=
  match ev with
  | EvCreateOrder r => match req_type r with STOP_MARKET => true | _ => false end
  | _ => false
  end.

(** The number of stop-loss orders sent: one per bracket attempt. *)
Definition stop_requests (l : list Event) : nat := List.length (filter is_stop l).

(** The events of the rollback of [_handle_failure]: cancelling the orders
    of a symbol, or a market order. *)
Definition rollback_event (ev : Event) : Prop :=
  match ev with
  | EvCancelAll _ => True
  | EvCreateOrder r => req_type r = MARKET
  | _ => False
  end.

Definition open_orders_query (ev : Event) : Prop :=
  match ev with
  | EvOpenOrders _ => True
  | _ => False
  end.

(** The log grew, and the first new event is [ev]. *)
Definition sent {E : Type} (ev : Event) (w w' : World E) : Prop :=
  exists evs, log w' = log w ++ ev :: evs.

(** Nothing but the entry phase and the rollback sends a market order or a
    cancellation; nothing in force queries the open orders. *)
Definition bracket_event (ev : Event) : Prop :=
  ~ rollback_event ev /\ ~ open_orders_query ev.

(** An event other than a query of the open orders. *)
Definition no_query (ev : Event) : Prop := ~ open_orders_query ev.

(** The entry order of [place_order]. *)
Definition entry_request (signal : Signal) : OrderReq :=
  mkReq (sig_symbol signal) (sig_signal signal) (sig_size signal) MARKET None false.

End Trace.

(** * Properties of the ledger *)

Module LedgerFacts.

Import PositionTracker Ledger.

Local Open Scope string_scope.

Lemma find_del_same (s : string) (d : list (string * Position)) :
  find (key_is s) (del s d) = None.
Proof.
  induction d as [|kp d IH]; simpl; auto.
  destruct (String.eqb (fst kp) s) eqn:K; simpl; auto.
  unfold key_is at 1. rewrite K. exact IH.
Qed.

Lemma find_del_other (s s' : string) (d : list (string * Position)) :
  s <> s' -> find (key_is s') (del s d) = find (key_is s') d.
Proof.
  intros N. induction d as [|kp d IH]; simpl; auto.
  destruct (String.eqb (fst kp) s) eqn:K; simpl.
  - apply String.eqb_eq in K. unfold key_is at 2.
    destruct (String.eqb (fst kp) s') eqn:K'.
    + apply String.eqb_eq in K'. congruence.
    + exact IH.
  - unfold key_is at 1 3. destruct (String.eqb (fst kp) s'); auto.
Qed.

Lemma in_keys_del (s k : string) (d : list (string * Position)) :
  In k (map fst (del s d)) -> In k (map fst d) /\ k <> s.
Proof.
  induction d as [|kp d IH]; simpl; [tauto|].
  destruct (String.eqb (fst kp) s) eqn:K; simpl.
  - intros H. destruct (IH H). tauto.
  - intros [H|H].
    + subst k. split; [tauto|]. now apply String.eqb_neq.
    + destruct (IH H). tauto.
Qed.

Lemma NoDup_del (s : string) (d : list (string * Position)) :
  NoDup (map fst d) -> NoDup (map fst (del s d)).
Proof.
  induction d as [|kp d IH]; simpl; intros H; [constructor|].
  inversion H as [|? ? Hn Hd]; subst.
  destruct (String.eqb (fst kp) s); simpl; auto.
  constructor; auto. intros Hin. apply in_keys_del in Hin. tauto.
Qed.

Lemma tracked_find (s : string) (l : t) :
  tracked s l = true <-> find (key_is s) (positions l) <> None.
Proof.
  unfold tracked. fold (key_is s).
  induction (positions l) as [|kp d IH]; simpl.
  - split; [discriminate | congruence].
  - destruct (key_is s kp); simpl; [split; [discriminate | reflexivity] | exact IH].
Qed.

Lemma tracked_get (s : string) (l : t) :
  tracked s l = true <-> exists p, get_position s l = Some p.
Proof.
  rewrite tracked_find. unfold get_position. fold (key_is s).
  destruct (find (key_is s) (positions l)) as [kp|]; simpl.
  - split; [eauto | discriminate].
  - split; [congruence | intros [p Hp]; discriminate].
Qed.

Lemma untracked_get (s : string) (l : t) :
  tracked s l = false <-> get_position s l = None.
Proof.
  destruct (tracked s l) eqn:T.
  - apply tracked_get in T. destruct T as [p Hp]. rewrite Hp.
    split; discriminate.
  - split; auto. intros _.
    destruct (get_position s l) eqn:G; auto.
    assert (tracked s l = true) by (apply tracked_get; eauto). congruence.
Qed.

Lemma tracked_in_keys (s : string) (l : t) :
  tracked s l = true <-> In s (map fst (positions l)).
Proof.
  unfold tracked. rewrite existsb_exists. rewrite in_map_iff. split.
  - intros [kp [Hin K]]. apply String.eqb_eq in K. eauto.
  - intros [kp [K Hin]]. exists kp. split; auto. now apply String.eqb_eq.
Qed.

Lemma find_app_key (s : string) (d d' : list (string * Position)) :
  find (key_is s) (d ++ d') =
  match find (key_is s) d with Some kp => Some kp | None => find (key_is s) d' end.
Proof.
  induction d as [|kp d IH]; simpl; auto. destruct (key_is s kp); auto.
Qed.

(** *** The operations keep the ledger well formed *)

Lemma NoDup_snoc (k : string) (ks : list string) :
  NoDup ks -> ~ In k ks -> NoDup (ks ++ [k]).
Proof.
  induction ks as [|a ks IH]; simpl; intros Hn Hk.
  - constructor; [tauto | constructor].
  - inversion Hn; subst. constructor.
    + rewrite in_app_iff. simpl. intros [?|[?|[]]]; [tauto|]. apply Hk. auto.
    + apply IH; auto.
Qed.

Lemma wf_init : wf init.
Proof. split; constructor. Qed.

Lemma wf_add (p : Position) (l : t) : wf l -> wf (add_position p l).
Proof.
  intros [Hn Hf]. unfold add_position. destruct (tracked (symbol p) l) eqn:T.
  - split; auto.
  - split; simpl.
    + rewrite map_app. simpl. apply NoDup_snoc; auto.
      intros Hin. apply tracked_in_keys in Hin. congruence.
    + apply Forall_app. split; auto.
Qed.

Lemma wf_close (s : string) (xp : Q) (xr : string) (xpnl : Q) (now : Z) (l : t) :
  wf l -> wf (close_position s xp xr xpnl now l).
Proof.
  intros [Hn Hf]. unfold close_position.
  destruct (get_position s l); [|split; auto].
  split; simpl.
  - now apply NoDup_del.
  - unfold del. rewrite Forall_forall in *. intros kp Hin.
    apply filter_In in Hin. apply Hf. tauto.
Qed.

Lemma wf_stop (s : string) (q : Q) (l : t) : wf l -> wf (set_stop_loss s q l).
Proof.
  intros [Hn Hf]. split; simpl.
  - rewrite map_map.
    replace (map _ (positions l)) with (map fst (positions l)); auto.
    apply map_ext. intros kp. destruct (String.eqb (fst kp) s); auto.
  - rewrite Forall_map. rewrite Forall_forall in *. intros kp Hin.
    destruct (String.eqb (fst kp) s); simpl; auto.
Qed.

Lemma wf_close_step (snap : list PositionRisk) (now : Z) (l : t) (s : string) :
  wf l -> wf (sync_close_step snap now l s).
Proof.
  intros H. unfold sync_close_step.
  destruct (snapshot_find s snap) as [pos|]; [|now apply wf_close].
  destruct (Py.eq (positionAmt pos) 0); auto. now apply wf_close.
Qed.

Lemma wf_add_step (now : Z) (l : t) (pos : PositionRisk) :
  wf l -> wf (sync_add_step now l pos).
Proof.
  intros H. unfold sync_add_step.
  destruct (negb _ && negb _); auto. now apply wf_add.
Qed.

Lemma wf_fold {A : Type} (f : t -> A -> t) (xs : list A) :
  (forall l x, wf l -> wf (f l x)) -> forall l, wf l -> wf (fold_left f xs l).
Proof.
  intros Hf. induction xs as [|x xs IH]; simpl; auto.
Qed.

Lemma wf_sync (snap : list PositionRisk) (now : Z) (l : t) :
  wf l -> wf (sync_with_exchange snap now l).
Proof.
  intros H. unfold sync_with_exchange.
  apply wf_fold; [intros; now apply wf_add_step|].
  apply wf_fold; [intros; now apply wf_close_step|]. exact H.
Qed.

Lemma reachable_wf (l : t) : reachable l -> wf l.
Proof.
  induction 1.
  - apply wf_init.
  - now apply wf_add.
  - now apply wf_close.
  - now apply wf_stop.
  - now apply wf_sync.
Qed.

Lemma wf_symbols_nodup (l : t) : wf l -> NoDup (map symbol (get_all_positions l)).
Proof.
  intros [Hn Hf]. unfold get_all_positions. rewrite map_map.
  replace (map (fun kp => symbol (snd kp)) (positions l)) with (map fst (positions l)); auto.
  apply map_ext_in. intros kp Hin. rewrite Forall_forall in Hf. symmetry. now apply Hf.
Qed.

(** *** Lookups after each operation *)

Lemma get_close (s s' : string) (xp : Q) (xr : string) (xpnl : Q) (now : Z) (l : t) :
  get_position s' (close_position s xp xr xpnl now l) =
  if String.eqb s s' then None else get_position s' l.
Proof.
  unfold close_position. destruct (get_position s l) eqn:G.
  - unfold get_position; simpl. fold (key_is s'). destruct (String.eqb s s') eqn:K.
    + apply String.eqb_eq in K. subst. now rewrite find_del_same.
    + apply String.eqb_neq in K. now rewrite find_del_other.
  - destruct (String.eqb s s') eqn:K; auto.
    apply String.eqb_eq in K. now subst.
Qed.

Lemma close_step_spec (snap : list PositionRisk) (now : Z) (l : t) (k : string) :
  sync_close_step snap now l k =
  if gone snap k
  then close_position k (exit_price (external_exit snap now k)) "external_close"
                      (pnl (external_exit snap now k)) now l
  else l.
Proof.
  unfold sync_close_step, gone, external_exit.
  destruct (snapshot_find k snap) as [pos|]; simpl; auto.
Qed.

Lemma get_close_step_other (snap : list PositionRisk) (now : Z) (l : t) (k s : string) :
  k <> s -> get_position s (sync_close_step snap now l k) = get_position s l.
Proof.
  intros N. rewrite close_step_spec. destruct (gone snap k); auto.
  rewrite get_close. apply String.eqb_neq in N. now rewrite N.
Qed.

Lemma get_close_step_none (snap : list PositionRisk) (now : Z) (l : t) (k s : string) :
  get_position s l = None -> get_position s (sync_close_step snap now l k) = None.
Proof.
  intros G. rewrite close_step_spec. destruct (gone snap k); auto.
  rewrite get_close. now destruct (String.eqb k s).
Qed.

Lemma closed_close_step (snap : list PositionRisk) (now : Z) (l : t) (k : string) (x : Position) :
  In x (closed_positions l) -> In x (closed_positions (sync_close_step snap now l k)).
Proof.
  intros H. rewrite close_step_spec. destruct (gone snap k); auto.
  unfold close_position. destruct (get_position k l); auto.
  simpl. apply in_or_app. now left.
Qed.

Lemma fold_close_none (snap : list PositionRisk) (now : Z) (ks : list string) (s : string) :
  forall l, get_position s l = None ->
            get_position s (fold_left (sync_close_step snap now) ks l) = None.
Proof.
  induction ks as [|k ks IH]; simpl; auto.
  intros l G. apply IH. now apply get_close_step_none.
Qed.

Lemma fold_close_closed (snap : list PositionRisk) (now : Z) (ks : list string) (x : Position) :
  forall l, In x (closed_positions l) ->
            In x (closed_positions (fold_left (sync_close_step snap now) ks l)).
Proof.
  induction ks as [|k ks IH]; simpl; auto.
  intros l H. apply IH. now apply closed_close_step.
Qed.

Lemma fold_close_closes (snap : list PositionRisk) (now : Z) (s : string) (p : Position)
      (ks : list string) :
  gone snap s = true ->
  forall l, In s ks -> get_position s l = Some p ->
    let l1 := fold_left (sync_close_step snap now) ks l in
    get_position s l1 = None /\
    In (with_exit p (external_exit snap now s)) (closed_positions l1).
Proof.
  intros Hg. induction ks as [|k ks IH]; simpl; [tauto|].
  intros l Hin G. destruct (string_dec k s) as [->|N].
  - split.
    + apply fold_close_none. rewrite close_step_spec, Hg, get_close.
      now rewrite String.eqb_refl.
    + apply fold_close_closed. rewrite close_step_spec, Hg.
      unfold close_position. rewrite G. simpl. apply in_or_app. right.
      left. unfold external_exit. destruct (snapshot_find s snap); reflexivity.
  - apply IH; [destruct Hin; [congruence|assumption]|].
    now rewrite get_close_step_other.
Qed.

Lemma add_step_closed (now : Z) (l : t) (pos : PositionRisk) :
  closed_positions (sync_add_step now l pos) = closed_positions l.
Proof.
  unfold sync_add_step. destruct (negb _ && negb _); auto.
  unfold add_position. now destruct (tracked _ l).
Qed.

Lemma fold_add_closed (now : Z) (snap : list PositionRisk) :
  forall l, closed_positions (fold_left (sync_add_step now) snap l) = closed_positions l.
Proof.
  induction snap as [|a snap IH]; simpl; auto.
  intros l. rewrite IH. apply add_step_closed.
Qed.

Lemma get_add_other (p : Position) (s : string) (l : t) :
  symbol p <> s -> get_position s (add_position p l) = get_position s l.
Proof.
  intros N. unfold add_position. destruct (tracked (symbol p) l); auto.
  unfold get_position; simpl. fold (key_is s). rewrite find_app_key.
  destruct (find (key_is s) (positions l)); auto.
  simpl. unfold key_is; simpl. apply String.eqb_neq in N. now rewrite N.
Qed.

Lemma get_add_some (p q : Position) (s : string) (l : t) :
  get_position s l = Some q -> get_position s (add_position p l) = Some q.
Proof.
  intros G. unfold add_position. destruct (tracked (symbol p) l); auto.
  unfold get_position in *; simpl. fold (key_is s) in *. rewrite find_app_key.
  destruct (find (key_is s) (positions l)); [auto | discriminate].
Qed.

Lemma get_add_new (p : Position) (l : t) :
  tracked (symbol p) l = false -> get_position (symbol p) (add_position p l) = Some p.
Proof.
  intros T. unfold add_position. rewrite T.
  apply untracked_get in T. unfold get_position in *; simpl.
  fold (key_is (symbol p)) in *. rewrite find_app_key.
  destruct (find (key_is (symbol p)) (positions l)); [discriminate|].
  simpl. unfold key_is; simpl. now rewrite String.eqb_refl.
Qed.

Lemma get_add_step_other (now : Z) (l : t) (pos : PositionRisk) (s : string) :
  pr_symbol pos <> s -> get_position s (sync_add_step now l pos) = get_position s l.
Proof.
  intros N. unfold sync_add_step. destruct (negb _ && negb _); auto.
  now apply get_add_other.
Qed.

Lemma get_add_step_some (now : Z) (l : t) (pos : PositionRisk) (s : string) (q : Position) :
  get_position s l = Some q -> get_position s (sync_add_step now l pos) = Some q.
Proof.
  intros G. unfold sync_add_step. destruct (negb _ && negb _); auto.
  now apply get_add_some.
Qed.

Lemma fold_add_some (now : Z) (snap : list PositionRisk) (s : string) (q : Position) :
  forall l, get_position s l = Some q ->
            get_position s (fold_left (sync_add_step now) snap l) = Some q.
Proof.
  induction snap as [|a snap IH]; simpl; auto.
  intros l G. apply IH. now apply get_add_step_some.
Qed.

Lemma fold_add_untouched (now : Z) (snap : list PositionRisk) (s : string) :
  (forall pos, In pos snap -> pr_symbol pos = s -> Py.eq (positionAmt pos) 0 = true) ->
  forall l, get_position s (fold_left (sync_add_step now) snap l) = get_position s l.
Proof.
  induction snap as [|a snap IH]; simpl; auto.
  intros H l. rewrite IH by (intros; apply H; auto).
  destruct (string_dec (pr_symbol a) s) as [E|N].
  - unfold sync_add_step. rewrite (H a (or_introl eq_refl) E). reflexivity.
  - now apply get_add_step_other.
Qed.

Lemma fold_add_adopts (now : Z) (snap : list PositionRisk) (pos : PositionRisk) :
  NoDup (map pr_symbol snap) -> In pos snap ->
  Py.eq (positionAmt pos) 0 = false ->
  forall l, get_position (pr_symbol pos) l = None ->
    get_position (pr_symbol pos) (fold_left (sync_add_step now) snap l)
    = Some (adopted pos now).
Proof.
  intros Hn Hin Hz. induction snap as [|a snap IH]; simpl; [destruct Hin|].
  intros l G. inversion Hn as [|? ? Ha Hn']; subst.
  destruct Hin as [->|Hin].
  - apply fold_add_some. unfold sync_add_step.
    apply untracked_get in G. rewrite Hz, G. simpl.
    apply (get_add_new (adopted pos now)). exact G.
  - apply IH; auto. rewrite get_add_step_other; auto.
    intros E. apply Ha. rewrite E. now apply in_map.
Qed.

Lemma snapshot_find_unique (snap : list PositionRisk) (pos : PositionRisk) :
  NoDup (map pr_symbol snap) -> In pos snap ->
  snapshot_find (pr_symbol pos) snap = Some pos.
Proof.
  unfold snapshot_find. induction snap as [|a snap IH]; simpl; intros Hn Hin; [tauto|].
  inversion Hn as [|? ? Ha Hn']; subst. destruct Hin as [->|Hin].
  - now rewrite String.eqb_refl.
  - destruct (String.eqb (pr_symbol a) (pr_symbol pos)) eqn:K; auto.
    apply String.eqb_eq in K. exfalso. apply Ha. rewrite K. now apply in_map.
Qed.

Lemma gone_no_live_entry (snap : list PositionRisk) (s : string) :
  NoDup (map pr_symbol snap) -> gone snap s = true ->
  forall pos, In pos snap -> pr_symbol pos = s -> Py.eq (positionAmt pos) 0 = true.
Proof.
  intros Hn Hg pos Hin E. subst s. unfold gone in Hg.
  now rewrite (snapshot_find_unique _ _ Hn Hin) in Hg.
Qed.

Lemma untracked_not_listed (s : string) (l : t) :
  wf l -> get_position s l = None -> ~ In s (map symbol (get_all_positions l)).
Proof.
  intros [_ Hf] G Hin. apply untracked_get in G.
  assert (tracked s l = true); [|congruence].
  apply tracked_in_keys. unfold get_all_positions in Hin. rewrite map_map in Hin.
  apply in_map_iff in Hin. destruct Hin as [kp [E Hin]].
  apply in_map_iff. exists kp. split; auto.
  rewrite Forall_forall in Hf. rewrite <- (Hf kp Hin). exact E.
Qed.

(** *** The claims about the ledger *)

(** C9. Ledger uniqueness and no-overwrite: every ledger the program can
    reach holds at most one position per symbol; adding a position whose
    symbol is already tracked leaves the ledger as it was; closing a tracked
    position removes it from the open set and appends exactly one record,
    the position with its exit price, exit time, exit reason and pnl, to the
    closed history. *)
Theorem ledger_unique_no_overwrite (l : t) :
  reachable l ->
  NoDup (map symbol (get_all_positions l)) /\
  (forall p, tracked (symbol p) l = true -> add_position p l = l) /\
  (forall s p xprice xreason xpnl now,
      get_position s l = Some p ->
      let l' := close_position s xprice xreason xpnl now l in
      get_position s l' = None /\
      ~ In s (map symbol (get_all_positions l')) /\
      get_closed_positions l' =
      (get_closed_positions l ++ [with_exit p (mkExit xprice now xreason xpnl)])%list /\
      exit_info (with_exit p (mkExit xprice now xreason xpnl))
      = Some (mkExit xprice now xreason xpnl)).
Proof.
  intros R. pose proof (reachable_wf R) as W. split; [|split].
  - now apply wf_symbols_nodup.
  - intros p T. unfold add_position. now rewrite T.
  - intros s p xprice xreason xpnl now G l'.
    assert (get_position s l' = None) as G'.
    { unfold l'. rewrite get_close. now rewrite String.eqb_refl. }
    split; [exact G'|]. split; [|split].
    + apply untracked_not_listed; auto. unfold l'. now apply wf_close.
    + unfold l', close_position, get_closed_positions. now rewrite G.
    + reflexivity.
Qed.

Lemma ledger_unique_no_overwrite_witness :
  NoDup (map symbol (get_all_positions
                       (add_position (Fixture.long_position "X" 100 2) init))) /\
  add_position (Fixture.short_position "X" 90 5)
               (add_position (Fixture.long_position "X" 100 2) init)
  = add_position (Fixture.long_position "X" 100 2) init /\
  get_position "X" (close_position "X" 110 "manual" 20 7
                      (add_position (Fixture.long_position "X" 100 2) init)) = None.
Proof.
  destruct (@ledger_unique_no_overwrite
              (add_position (Fixture.long_position "X" 100 2) init)
              (reach_add _ reach_init)) as [H1 [H2 H3]].
  split; [exact H1|]. split.
  - apply H2. reflexivity.
  - apply (H3 "X" (Fixture.long_position "X" 100 2) 110%Q "manual" 20%Q 7%Z).
    reflexivity.
Defined.

(** C8, as stated, fails: with a snapshot that lists the tracked symbol
    twice, first with a zero amount and then with a nonzero one, the symbol
    is closed by the first loop and adopted again by the second, so it is
    still among the open positions after reconciliation. *)
Lemma sync_zeroed_symbol_stays_open :
  get_position "X" (add_position (Fixture.long_position "X" 100 2) init)
  = Some (Fixture.long_position "X" 100 2) /\
  snapshot_find "X" [mkPR "X" 0 100 105 10 3; mkPR "X" (-4) 101 105 10 1]
  = Some (mkPR "X" 0 100 105 10 3) /\
  get_position "X"
    (sync_with_exchange [mkPR "X" 0 100 105 10 3; mkPR "X" (-4) 101 105 10 1] 7
                        (add_position (Fixture.long_position "X" 100 2) init))
  = Some (adopted (mkPR "X" (-4) 101 105 10 1) 7) /\
  In "X" (map symbol (get_all_positions
    (sync_with_exchange [mkPR "X" 0 100 105 10 3; mkPR "X" (-4) 101 105 10 1] 7
                        (add_position (Fixture.long_position "X" 100 2) init)))).
Proof.
  repeat split; try reflexivity. simpl. left. reflexivity.
Qed.

(** C8, amended. For every reachable ledger and every snapshot that lists
    each symbol at most once, after reconciliation: a tracked symbol absent
    from the snapshot is no longer open and its position is in the closed
    history with reason "external_close", exit price 0 and pnl 0; a tracked
    symbol reported with a zero amount is no longer open and its position is
    in the closed history with reason "external_close" and the reported mark
    price and unrealized profit; and every snapshot position with a nonzero
    amount whose symbol was not tracked is open, with no stop-loss and no
    take-profits. *)
Theorem sync_reconciles (snap : list PositionRisk) (now : Z) (l : t) :
  reachable l ->
  NoDup (map pr_symbol snap) ->
  let l' := sync_with_exchange snap now l in
  (forall s p,
      get_position s l = Some p -> snapshot_find s snap = None ->
      get_position s l' = None /\
      ~ In s (map symbol (get_all_positions l')) /\
      In (with_exit p (mkExit 0 now "external_close" 0)) (get_closed_positions l')) /\
  (forall s p pos,
      get_position s l = Some p -> snapshot_find s snap = Some pos ->
      Py.eq (positionAmt pos) 0 = true ->
      get_position s l' = None /\
      ~ In s (map symbol (get_all_positions l')) /\
      In (with_exit p (mkExit (markPrice pos) now "external_close" (unrealizedProfit pos)))
         (get_closed_positions l')) /\
  (forall pos,
      In pos snap -> Py.eq (positionAmt pos) 0 = false ->
      get_position (pr_symbol pos) l = None ->
      get_position (pr_symbol pos) l' = Some (adopted pos now) /\
      stop_loss (adopted pos now) = None /\
      take_profits (adopted pos now) = []).
Proof.
  intros R Hn l'.
  pose proof (reachable_wf R) as W.
  assert (wf l') as W' by (unfold l'; now apply wf_sync).
  assert (forall s p, get_position s l = Some p -> gone snap s = true ->
            get_position s l' = None /\
            ~ In s (map symbol (get_all_positions l')) /\
            In (with_exit p (external_exit snap now s)) (get_closed_positions l')) as Hclose.
  { intros s p G Hg.
    assert (In s (map fst (positions l))) as Hk.
    { apply tracked_in_keys. apply tracked_get. eauto. }
    destruct (@fold_close_closes snap now s p _ Hg l Hk G) as [G1 C1].
    assert (get_position s l' = None) as G'.
    { unfold l', sync_with_exchange.
      rewrite fold_add_untouched; auto. now apply gone_no_live_entry. }
    split; [exact G'|]. split; [now apply untracked_not_listed|].
    unfold l', sync_with_exchange, get_closed_positions.
    now rewrite fold_add_closed. }
  split; [|split].
  - intros s p G F.
    destruct (Hclose s p G) as [A [B C]]; [unfold gone; now rewrite F|].
    unfold external_exit in C. rewrite F in C. auto.
  - intros s p pos G F Z0.
    destruct (Hclose s p G) as [A [B C]]; [unfold gone; now rewrite F|].
    unfold external_exit in C. rewrite F in C. auto.
  - intros pos Hin Hz G. split; [|split; reflexivity].
    unfold l', sync_with_exchange. apply fold_add_adopts; auto.
    now apply fold_close_none.
Qed.

Lemma sync_reconciles_witness :
  get_position "X"
    (sync_with_exchange [mkPR "X" 0 100 105 10 3; mkPR "Y" 4 50 51 5 1] 7
                        (add_position (Fixture.long_position "X" 100 2) init)) = None /\
  In (with_exit (Fixture.long_position "X" 100 2) (mkExit 105 7 "external_close" 3))
     (get_closed_positions
        (sync_with_exchange [mkPR "X" 0 100 105 10 3; mkPR "Y" 4 50 51 5 1] 7
                            (add_position (Fixture.long_position "X" 100 2) init))) /\
  get_position "Y"
    (sync_with_exchange [mkPR "X" 0 100 105 10 3; mkPR "Y" 4 50 51 5 1] 7
                        (add_position (Fixture.long_position "X" 100 2) init))
  = Some (adopted (mkPR "Y" 4 50 51 5 1) 7).
Proof.
  assert (NoDup (map pr_symbol [mkPR "X" 0 100 105 10 3; mkPR "Y" 4 50 51 5 1])) as Hn.
  { simpl. constructor.
    - simpl. intros [H|[]]. discriminate H.
    - constructor; [intros []|constructor]. }
  destruct (@sync_reconciles [mkPR "X" 0 100 105 10 3; mkPR "Y" 4 50 51 5 1] 7%Z
              (add_position (Fixture.long_position "X" 100 2) init)
              (reach_add _ reach_init) Hn) as [_ [H2 H3]].
  destruct (H2 "X" (Fixture.long_position "X" 100 2) (mkPR "X" 0 100 105 10 3)
               eq_refl eq_refl eq_refl) as [A [_ C]].
  destruct (H3 (mkPR "Y" 4 50 51 5 1)) as [D _];
    [simpl; auto | reflexivity | reflexivity |].
  split; [exact A|]. split; [exact C | exact D].
Defined.

End LedgerFacts.


(** * Properties of the risk gate *)

Module RiskFacts.

Import RiskManagement.

Local Open Scope Q_scope.

Lemma lt_true (a b : Q) : Py.lt a b = true <-> a < b.
Proof.
  unfold Py.lt. rewrite negb_true_iff. split.
  - intros H. apply Qnot_le_lt. intros L. apply Qle_bool_iff in L. congruence.
  - intros H. destruct (Qle_bool b a) eqn:L; auto.
    apply Qle_bool_iff in L. exfalso. apply (Qlt_not_le _ _ H L).
Qed.

Lemma lt_false (a b : Q) : Py.lt a b = false <-> b <= a.
Proof.
  unfold Py.lt. rewrite negb_false_iff. apply Qle_bool_iff.
Qed.

Lemma reset_keeps_strengths (utcnow : Q) (r : t) :
  position_strengths (reset_daily_stats utcnow r) = position_strengths r.
Proof.
  unfold reset_daily_stats. now destruct (Py.lt one_day _).
Qed.

Lemma reset_keeps_last_trade (utcnow : Q) (r : t) :
  last_trade_time (reset_daily_stats utcnow r) = last_trade_time r.
Proof.
  unfold reset_daily_stats. now destruct (Py.lt one_day _).
Qed.

(** Below capacity, nothing is let through without the volatility and the
    cooldown checks. *)
Lemma allowed_passes_additional_checks (cfg : Config) (now : Q) (r : t)
      (snapshot : string + list PositionRisk) (s : string) (signal : Signal) :
  verdict cfg now r snapshot s signal = Allowed ->
  ~ (5 # 100) < get_or (sig_atr signal) 0 / get_or (sig_price signal) 1 /\
  (exists st, cfg_strategy cfg = Some st /\
              ~ now - dict_get s (last_trade_time r) 0 < get_or (trade_cooldown_sec st) 60).
Proof.
  unfold verdict. destruct snapshot as [e|positions]; [discriminate|].
  destruct (existing_pos s positions); [discriminate|].
  destruct (cfg_strategy cfg) as [st|] eqn:S; [|discriminate].
  destruct (Py.lt _ (get_or (min_signal_strength st) _)); [discriminate|].
  destruct (cfg_risk cfg) as [rk|]; [|discriminate].
  destruct (Py.lt (daily_pnl r) _); [discriminate|].
  unfold capacity_check. destruct (cfg_pairs cfg) as [pairs|]; [|discriminate].
  destruct (_ <=? _)%Z.
  - destruct (truthy_symbol _); [|discriminate].
    destruct (Py.lt _ _); discriminate.
  - unfold additional_checks. rewrite S.
    destruct (Py.eq _ 0); [discriminate|].
    destruct (Py.lt (5 # 100) _) eqn:V; [discriminate|].
    destruct (Py.lt (now - _) _) eqn:C; [discriminate|].
    intros _. split.
    + intros H. apply lt_true in H. congruence.
    + exists st. split; auto. intros H. apply lt_true in H. congruence.
Qed.

(** C4. Displacement boundary: for a signal that passed the first three
    checks (no exchange position on its symbol, the daily loss limit not
    reached, a minimum strength of at most 0.48 as with the default 0.35),
    with the open-position count at or above [max_concurrent_positions] and
    the tracked strengths holding one symbol at strength 0.40 in absolute
    value, [can_trade] answers true exactly when the absolute strength of
    the signal is strictly above 0.40 * 1.2. *)
Theorem displacement_boundary (cfg : Config) (st : StrategyCfg) (rk : RiskCfg)
        (pairs : PairsCfg) (utcnow now : Q) (r : t) (positions : list PositionRisk)
        (s : string) (signal : Signal) (weakest : string) (w0 : Q) :
  cfg_strategy cfg = Some st ->
  cfg_risk cfg = Some rk ->
  cfg_pairs cfg = Some pairs ->
  existing_pos s positions = None ->
  get_or (min_signal_strength st) (35 # 100) <= 48 # 100 ->
  Py.lt (daily_pnl (reset_daily_stats utcnow r)) (- get_or (max_daily_loss rk) 5) = false ->
  (get_or (max_concurrent_positions pairs) 5
   <= Z.of_nat (List.length (active_positions positions)))%Z ->
  position_strengths r = [(weakest, w0)] ->
  weakest <> ""%string ->
  Qabs w0 == 4 # 10 ->
  (snd (can_trade cfg utcnow now r (inr positions) s signal) = true
   <-> (4 # 10) * (12 # 10) < Qabs (get_or (sig_strength signal) 0)).
Proof.
  intros S R P X Hmin Hloss Hcap Hst Hw Habs.
  unfold can_trade; simpl snd. unfold verdict. rewrite X, S, R, Hloss.
  unfold capacity_check. rewrite P.
  apply Z.leb_le in Hcap. rewrite Hcap.
  rewrite reset_keeps_strengths, Hst. simpl weakest_item. simpl truthy_symbol.
  apply String.eqb_neq in Hw. rewrite Hw.
  unfold dict_get. simpl find. rewrite String.eqb_refl. simpl snd.
  unfold Py.abs.
  destruct (Py.lt (Qabs (get_or (sig_strength signal) 0))
                  (get_or (min_signal_strength st) (35 # 100))) eqn:Weak.
  - apply lt_true in Weak. simpl. split; [discriminate|].
    intros H. exfalso. lra.
  - destruct (Py.lt (Qabs w0 * (12 # 10)) (Qabs (get_or (sig_strength signal) 0))) eqn:D.
    + apply lt_true in D. simpl. split; auto. intros _. lra.
    + apply lt_false in D. simpl. split; [discriminate|]. intros H. exfalso. lra.
Qed.

Lemma displacement_boundary_witness :
  snd (can_trade (Fixture.config 1) 0 5000 Fixture.tracking_eth (inr Fixture.one_open)
                 "BTCUSDT" (Fixture.signal_of (481 # 1000) 1)) = true /\
  snd (can_trade (Fixture.config 1) 0 5000 Fixture.tracking_eth (inr Fixture.one_open)
                 "BTCUSDT" (Fixture.signal_of (48 # 100) 1)) = false.
Proof.
  assert (forall g : Q,
             snd (can_trade (Fixture.config 1) 0 5000 Fixture.tracking_eth
                            (inr Fixture.one_open) "BTCUSDT" (Fixture.signal_of g 1)) = true
             <-> (4 # 10) * (12 # 10) < Qabs g) as B.
  { intros g.
    apply (@displacement_boundary (Fixture.config 1) (mkStrategyCfg None None)
             (mkRiskCfg None) (mkPairsCfg (Some 1%Z)) 0 5000 Fixture.tracking_eth
             Fixture.one_open "BTCUSDT" (Fixture.signal_of g 1) "ETHUSDT" (4 # 10));
      try reflexivity.
    - apply Qle_bool_iff. reflexivity.
    - discriminate. }
  split.
  - apply B. reflexivity.
  - destruct (snd (can_trade (Fixture.config 1) 0 5000 Fixture.tracking_eth
                             (inr Fixture.one_open) "BTCUSDT"
                             (Fixture.signal_of (48 # 100) 1))) eqn:T; [|reflexivity].
    apply B in T. apply lt_true in T. discriminate T.
Defined.

(** C2 at its failing input. With one position open, [max_concurrent_positions]
    at 1 and ETHUSDT tracked at strength 0.40, a BTCUSDT signal of strength
    0.9 whose atr/price is 10% and whose symbol traded 10 seconds ago is let
    through by the displacement branch; the same signal below capacity is
    rejected for its volatility, and with a calm atr for its cooldown. *)
Theorem displacement_skips_volatility_and_cooldown :
  verdict (Fixture.config 1) 1010 Fixture.tracking_eth (inr Fixture.one_open)
          "BTCUSDT" (Fixture.signal_of (9 # 10) 10) = Replacing "ETHUSDT" /\
  snd (can_trade (Fixture.config 1) 0 1010 Fixture.tracking_eth (inr Fixture.one_open)
                 "BTCUSDT" (Fixture.signal_of (9 # 10) 10)) = true /\
  (5 # 100) < get_or (sig_atr (Fixture.signal_of (9 # 10) 10)) 0
              / get_or (sig_price (Fixture.signal_of (9 # 10) 10)) 1 /\
  1010 - dict_get "BTCUSDT" (last_trade_time Fixture.tracking_eth) 0 < 60 /\
  verdict (Fixture.config 5) 1010 Fixture.tracking_eth (inr Fixture.one_open)
          "BTCUSDT" (Fixture.signal_of (9 # 10) 10) = HighVolatility /\
  verdict (Fixture.config 5) 1010 Fixture.tracking_eth (inr Fixture.one_open)
          "BTCUSDT" (Fixture.signal_of (9 # 10) 1) = Cooldown.
Proof.
  repeat split; try reflexivity.
Qed.

End RiskFacts.


(** * Properties of the order manager *)

Module OrderFacts.

Import OrderManager Trace.

Section Generic.

Variable E : Type.
Variable R : World E -> World E -> Prop.
Hypothesis R_refl : forall w, R w w.
Hypothesis R_trans : forall a b c, R a b -> R b c -> R a c.

Lemma steps_ret (A : Type) (a : A) : steps R (ret (E:=E) a).
Proof. intros w r w' H. inversion H; subst. apply R_refl. Qed.

Lemma steps_raise (A : Type) (e : string) : steps R (raise (E:=E) (A:=A) e).
Proof. intros w r w' H. inversion H; subst. apply R_refl. Qed.

Lemma steps_get_world : steps R (get_world (E:=E)).
Proof. intros w r w' H. inversion H; subst. apply R_refl. Qed.

Lemma steps_bind (A B : Type) (m : M E A) (k : A -> M E B) :
  steps R m -> (forall a, steps R (k a)) -> steps R (bind m k).
Proof.
  intros Hm Hk w r w' H. unfold bind in H.
  destruct (m w) as [[e|a] w1] eqn:Em.
  - inversion H; subst. eapply Hm; eauto.
  - eapply R_trans; [eapply Hm; eauto | eapply Hk; eauto].
Qed.

Lemma steps_try (A : Type) (m : M E A) (h : string -> M E A) :
  steps R m -> (forall e, steps R (h e)) -> steps R (try_except m h).
Proof.
  intros Hm Hh w r w' H. unfold try_except in H.
  destruct (m w) as [[e|a] w1] eqn:Em.
  - eapply R_trans; [eapply Hm; eauto | eapply Hh; eauto].
  - inversion H; subst. eapply Hm; eauto.
Qed.

End Generic.

Lemma logs_refl (E : Type) (P : Event -> Prop) (w : World E) : logs P w w.
Proof. exists []. split; [now rewrite app_nil_r | constructor]. Qed.

Lemma logs_trans (E : Type) (P : Event -> Prop) (a b c : World E) :
  logs P a b -> logs P b c -> logs P a c.
Proof.
  intros [e1 [L1 F1]] [e2 [L2 F2]]. exists (e1 ++ e2). split.
  - now rewrite L2, L1, app_assoc.
  - apply Forall_app. now split.
Qed.

Lemma logs_weaken (E : Type) (P Q : Event -> Prop) (w w' : World E) :
  (forall ev, P ev -> Q ev) -> logs P w w' -> logs Q w w'.
Proof.
  intros H [evs [L F]]. exists evs. split; auto.
  eapply Forall_impl; eauto.
Qed.

Lemma quiet_refl (E : Type) (P : Event -> Prop) (w : World E) : quiet P w w.
Proof. repeat split; auto. apply logs_refl. Qed.

Lemma quiet_trans (E : Type) (P : Event -> Prop) (a b c : World E) :
  quiet P a b -> quiet P b c -> quiet P a c.
Proof.
  intros [L1 [T1 [N1 [K1 A1]]]] [L2 [T2 [N2 [K2 A2]]]]. repeat split.
  - eapply logs_trans; eauto.
  - congruence.
  - congruence.
  - congruence.
  - congruence.
Qed.

Lemma quiet_logs (E : Type) (P : Event -> Prop) (w w' : World E) :
  quiet P w w' -> logs P w w'.
Proof. now intros [L _]. Qed.

Lemma steps_weaken (E A : Type) (R R' : World E -> World E -> Prop) (m : M E A) :
  (forall w w', R w w' -> R' w w') -> steps R m -> steps R' m.
Proof. intros H Hm w r w' Hw. apply H. eapply Hm; eauto. Qed.

(** *** Every function of the manager, step by step *)

Section Walk.

Variable E : Type.
Variable client : Client E.
Variable P : Event -> Prop.

Lemma q_ret (A : Type) (a : A) : steps (quiet P) (ret (E:=E) a).
Proof. apply steps_ret, quiet_refl. Qed.

Lemma q_raise (A : Type) (e : string) : steps (quiet P) (raise (E:=E) (A:=A) e).
Proof. apply steps_raise, quiet_refl. Qed.

Lemma q_get : steps (quiet P) (get_world (E:=E)).
Proof. apply steps_get_world, quiet_refl. Qed.

Lemma q_bind (A B : Type) (m : M E A) (k : A -> M E B) :
  steps (quiet P) m -> (forall a, steps (quiet P) (k a)) -> steps (quiet P) (bind m k).
Proof. apply steps_bind, quiet_trans. Qed.

Lemma q_try (A : Type) (m : M E A) (h : string -> M E A) :
  steps (quiet P) m -> (forall e, steps (quiet P) (h e)) -> steps (quiet P) (try_except m h).
Proof. apply steps_try, quiet_trans. Qed.

Lemma q_call (A : Type) (ev : Event) (f : E -> (string + A) * E) :
  P ev -> steps (quiet P) (call ev f).
Proof.
  intros Hev w r w' H. unfold call in H. simpl in H.
  destruct (f (env w)) as [r0 e']. inversion H; subst; clear H.
  repeat split; simpl; auto. exists [ev]. split; auto.
Qed.

Lemma q_emit (ev : Event) : P ev -> steps (quiet P) (emit (E:=E) ev).
Proof.
  intros Hev w r w' H. unfold emit in H. inversion H; subst; clear H.
  repeat split; simpl; auto. exists [ev]. split; auto.
Qed.

Lemma l_ret (A : Type) (a : A) : steps (logs P) (ret (E:=E) a).
Proof. apply steps_ret, logs_refl. Qed.

Lemma l_raise (A : Type) (e : string) : steps (logs P) (raise (E:=E) (A:=A) e).
Proof. apply steps_raise, logs_refl. Qed.

Lemma l_get : steps (logs P) (get_world (E:=E)).
Proof. apply steps_get_world, logs_refl. Qed.

Lemma l_bind (A B : Type) (m : M E A) (k : A -> M E B) :
  steps (logs P) m -> (forall a, steps (logs P) (k a)) -> steps (logs P) (bind m k).
Proof. apply steps_bind, logs_trans. Qed.

Lemma l_try (A : Type) (m : M E A) (h : string -> M E A) :
  steps (logs P) m -> (forall e, steps (logs P) (h e)) -> steps (logs P) (try_except m h).
Proof. apply steps_try, logs_trans. Qed.

Lemma l_quiet (A : Type) (m : M E A) : steps (quiet P) m -> steps (logs P) m.
Proof. apply steps_weaken. intros w w'. apply quiet_logs. Qed.

Lemma l_set_tracker (l : PositionTracker.t) : steps (logs P) (set_tracker (E:=E) l).
Proof. intros w r w' H. inversion H; subst. simpl. exists []. simpl. now rewrite app_nil_r. Qed.

Lemma l_set_active_orders (a : list string) : steps (logs P) (set_active_orders (E:=E) a).
Proof. intros w r w' H. inversion H; subst. simpl. exists []. simpl. now rewrite app_nil_r. Qed.

Lemma l_set_risk_manager (r0 : RiskManagement.t) : steps (logs P) (set_risk_manager (E:=E) r0).
Proof. intros w r w' H. inversion H; subst. simpl. exists []. simpl. now rewrite app_nil_r. Qed.

End Walk.

(** Decomposes a goal [steps R m] along the structure of [m]. *)
Ltac walk :=
  repeat (intros;
          match goal with
          | |- steps (quiet _) (ret _) => apply q_ret
          | |- steps (quiet _) (raise _) => apply q_raise
          | |- steps (quiet _) get_world => apply q_get
          | |- steps (quiet _) (get_world (E:=_)) => apply q_get
          | |- steps (quiet _) (bind _ _) => apply q_bind
          | |- steps (quiet _) (try_except _ _) => apply q_try
          | |- steps (quiet _) (call _ _) => apply q_call
          | |- steps (quiet _) (emit _) => apply q_emit
          | |- steps (logs _) (ret _) => apply l_ret
          | |- steps (logs _) (raise _) => apply l_raise
          | |- steps (logs _) (get_world (E:=_)) => apply l_get
          | |- steps (logs _) (bind _ _) => apply l_bind
          | |- steps (logs _) (try_except _ _) => apply l_try
          | |- steps (logs _) (call _ _) => apply l_quiet, q_call
          | |- steps (logs _) (emit _) => apply l_quiet, q_emit
          | |- steps (logs _) (set_tracker _) => apply l_set_tracker
          | |- steps (logs _) (set_active_orders _) => apply l_set_active_orders
          | |- steps (logs _) (set_risk_manager _) => apply l_set_risk_manager
          | |- steps _ (match ?x with _ => _ end) => destruct x
          end); intros.

Ltac unfold_client :=
  unfold client_get_position_risk, client_create_order, client_get_order,
    client_cancel_all_orders, client_open_orders, client_last_close,
    client_get_precision, send_message, sleep.

Section Functions.

Variable E : Type.
Variable client : Client E.

Lemma place_tps_quiet (s : string) (sd : Side) (qty : Q) (prec : Z) (tps : list TakeProfit) :
  steps (quiet (fun ev => bracket_event ev /\ is_stop ev = false))
        (place_tps client s sd qty prec tps).
Proof.
  induction tps as [|tp tps IH]; simpl.
  - walk.
  - unfold_client. walk; [|exact IH].
    unfold bracket_event; simpl. repeat split; auto; try tauto. discriminate.
Qed.

Lemma bracket_attempt_quiet (s : string) (sd : Side) (qty : Q) (prec : Z) (sl : Q)
      (tps : list TakeProfit) :
  steps (quiet bracket_event) (bracket_attempt client s sd qty prec sl tps).
Proof.
  unfold bracket_attempt. unfold_client. walk.
  - unfold bracket_event; simpl. split; [discriminate | tauto].
  - eapply steps_weaken; [|apply place_tps_quiet].
    intros w w' [L T]. split; auto.
    eapply logs_weaken; [|exact L]. intros ev [H _]. exact H.
Qed.

Lemma retry_loop_quiet (n : nat) :
  forall attempt max_retries s sd qty sl tps prec,
    steps (quiet bracket_event)
          (retry_loop client n attempt max_retries s sd qty sl tps prec).
Proof.
  induction n as [|n IH]; intros; simpl.
  - walk.
  - unfold_client. walk; try apply bracket_attempt_quiet; try apply IH.
    unfold bracket_event; simpl; tauto.
Qed.

Lemma place_sl_tp_quiet (s : string) (sd : Side) (qty entry sl : Q) (tps : list TakeProfit) :
  steps (quiet bracket_event) (_place_sl_tp_orders client s sd qty entry sl tps).
Proof.
  unfold _place_sl_tp_orders, _place_orders_with_retry. unfold_client.
  walk; try apply retry_loop_quiet; unfold bracket_event; simpl; tauto.
Qed.

End Functions.

Section Phases.

Variable E : Type.
Variable client : Client E.

Lemma check_existing_quiet (s : string) :
  steps (quiet no_query) (_check_existing_position client s).
Proof.
  unfold _check_existing_position. unfold_client.
  walk; unfold no_query; simpl; tauto.
Qed.

Lemma market_attempt_quiet (s : string) (sd : Side) (qty : Q) :
  steps (quiet no_query) (market_attempt client s sd qty).
Proof.
  unfold market_attempt. unfold_client.
  walk; unfold no_query; simpl; tauto.
Qed.

Lemma market_loop_quiet (n : nat) :
  forall attempt s sd qty,
    steps (quiet no_query) (market_loop client n attempt s sd qty).
Proof.
  induction n as [|n IH]; intros; simpl.
  - walk.
  - unfold_client. walk; try apply market_attempt_quiet; try apply IH.
    unfold no_query; simpl; tauto.
Qed.

Lemma fill_price_quiet (s : string) (order : Order) :
  steps (quiet no_query) (fill_price_or_market client s order).
Proof.
  unfold fill_price_or_market, _calculate_avg_fill_price, avg_price_field,
    position_entry_price.
  unfold_client. walk; unfold no_query; simpl; tauto.
Qed.

Lemma entry_phase_quiet (signal : Signal) :
  steps (quiet no_query) (entry_phase client signal).
Proof.
  unfold entry_phase, _execute_market_order.
  walk; try apply check_existing_quiet; try apply market_loop_quiet;
    try apply fill_price_quiet.
Qed.

Lemma bracket_no_query (ev : Event) : bracket_event ev -> no_query ev.
Proof. now intros [_ H]. Qed.

Lemma handle_failure_logs (s : string) (e : string) :
  steps (logs no_query) (_handle_failure client s e).
Proof.
  unfold _handle_failure. unfold_client.
  walk; unfold no_query; simpl; tauto.
Qed.

Lemma place_order_logs (signal : Signal) :
  steps (logs no_query) (place_order client signal).
Proof.
  unfold place_order, place_order_body, _record_position, _send_trade_alert.
  unfold_client.
  walk; try apply handle_failure_logs; try (unfold no_query; simpl; tauto).
  - apply l_quiet, entry_phase_quiet.
  - apply l_quiet. eapply steps_weaken; [|apply place_sl_tp_quiet].
    intros w w' [L T]. split; auto.
    eapply logs_weaken; [|exact L]. apply bracket_no_query.
Qed.

End Phases.

(** C3 at its failing input. [place_order] never queries the open orders:
    whatever the exchange answers, no such call is in the log it leaves.
    With an exchange that accepts the stop and take-profit orders but
    reports no open order afterwards, [place_order] returns the filled
    order and records the position, while the earlier definition of
    [_place_sl_tp_orders], which the later one replaces, raises
    "Not all SL/TP orders were placed" in the same world. *)
Theorem place_order_never_queries_open_orders :
  (forall (E : Type) (client : Client E) (signal : Signal) (w : World E),
      logs (fun ev => ~ open_orders_query ev) w (snd (place_order client signal w))) /\
  fst (place_order (Fixture.scripted Fixture.calm)
                   (Fixture.long_signal 99 [mkTP 102 50]) Fixture.fresh)
  = inr (Some (Fixture.filled "BTCUSDT" 2 100)) /\
  PositionTracker.tracked "BTCUSDT"
    (tracker (snd (place_order (Fixture.scripted Fixture.calm)
                               (Fixture.long_signal 99 [mkTP 102 50]) Fixture.fresh)))
  = true /\
  Fixture.sc_open_orders Fixture.calm = [] /\
  fst (_place_sl_tp_orders_shadowed (Fixture.scripted Fixture.calm)
         "BTCUSDT" BUY 2 100 99 [mkTP 102 50] Fixture.fresh)
  = inl "Not all SL/TP orders were placed"%string.
Proof.
  split; [|repeat split; vm_compute; reflexivity].
  intros E client signal w.
  destruct (place_order client signal w) as [r w'] eqn:H.
  simpl. eapply (@place_order_logs E client signal). exact H.
Qed.

(** *** The retry loop of the bracket orders *)

Lemma stop_requests_app (a b : list Event) :
  stop_requests (a ++ b) = (stop_requests a + stop_requests b)%nat.
Proof. unfold stop_requests. now rewrite filter_app, length_app. Qed.

Lemma no_stop_requests (evs : list Event) :
  Forall (fun ev => is_stop ev = false) evs -> stop_requests evs = 0%nat.
Proof.
  induction 1 as [|ev evs H _ IH]; auto.
  unfold stop_requests in *. simpl. now rewrite H.
Qed.

Section Retry.

Variable E : Type.
Variable client : Client E.

Lemma place_tps_no_stop (s : string) (sd : Side) (qty : Q) (prec : Z)
      (tps : list TakeProfit) (w : World E) (r : string + unit) (w' : World E) :
  place_tps client s sd qty prec tps w = (r, w') ->
  stop_requests (log w') = stop_requests (log w).
Proof.
  intros H. destruct (@place_tps_quiet E client s sd qty prec tps w r w' H) as [[evs [L F]] _].
  rewrite L, stop_requests_app, (@no_stop_requests evs); [lia|].
  eapply Forall_impl; [|exact F]. now intros ev [_ N].
Qed.

Lemma bracket_attempt_one_stop (s : string) (sd : Side) (qty : Q) (prec : Z) (sl : Q)
      (tps : list TakeProfit) (w : World E) (r : string + bool) (w' : World E) :
  bracket_attempt client s sd qty prec sl tps w = (r, w') ->
  stop_requests (log w') = (stop_requests (log w) + 1)%nat.
Proof.
  unfold bracket_attempt, bind, client_create_order, call. simpl.
  destruct (create_order client _ (env w)) as [[e|o] e1]; simpl.
  - intros H. inversion H; subst; clear H. simpl.
    now rewrite stop_requests_app.
  - match goal with
    | |- context [place_tps client s sd qty prec tps ?w1] =>
        destruct (place_tps client s sd qty prec tps w1) as [[e|[]] w2] eqn:T
    end; intros H; inversion H; subst; clear H;
      apply place_tps_no_stop in T; rewrite T; simpl; now rewrite stop_requests_app.
Qed.

Lemma retry_loop_bound (n : nat) :
  forall attempt max_retries s sd qty sl tps prec (w : World E) r w',
    retry_loop client n attempt max_retries s sd qty sl tps prec w = (r, w') ->
    (stop_requests (log w') <= stop_requests (log w) + n)%nat.
Proof.
  induction n as [|n IH]; intros attempt max_retries s sd qty sl tps prec w r w'; simpl.
  - intros H. inversion H; subst. lia.
  - unfold try_except, bind at 1.
    destruct (bracket_attempt client s sd qty prec sl tps w) as [[e|b] w1] eqn:A;
      pose proof A as S1; apply bracket_attempt_one_stop in S1.
    + destruct (Nat.eqb attempt (max_retries - 1)).
      * intros H. inversion H; subst. lia.
      * unfold bind, sleep, emit. intros H. apply IH in H.
        unfold record in H. simpl log in H. rewrite stop_requests_app in H.
        change (stop_requests [EvSleep 1]) with 0%nat in H. lia.
    + intros H. inversion H; subst. lia.
Qed.

(** C5 at the input the claim fails on.  With a price precision of 0 the
    adjusted price is the old one: 99 times 1.001 is 99.099, which rounds
    back to 99, so the three attempts are made on the same stop price and
    not on 99, 99.099 and 99.198. *)
Lemma retry_price_is_rounded :
  log (snd (_place_orders_with_retry
              (Fixture.scripted (Fixture.rejecting Fixture.margin_error))
              "BTCUSDT" BUY 2 99 [mkTP 102 50] 0 3 Fixture.fresh))
  = [EvCreateOrder (mkReq "BTCUSDT" SELL 2 STOP_MARKET (Some 99) true);
     EvSleep 1;
     EvCreateOrder (mkReq "BTCUSDT" SELL 2 STOP_MARKET (Some 99) true);
     EvSleep 1;
     EvCreateOrder (mkReq "BTCUSDT" SELL 2 STOP_MARKET (Some 99) true)] /\
  nudge_sl BUY 0 99 = 99 /\
  nudge_tp BUY 0 (mkTP 102 50) = mkTP 102 50 /\
  99 < 99 * (1001 # 1000).
Proof. repeat split; reflexivity. Qed.

(** C5, as amended. Bounded bracket retry: [_place_orders_with_retry] with
    the default of 3 retries sends at most 3 stop-loss orders, one per
    attempt.  After a failed first or second attempt it pauses and retries
    with every price replaced by [round(price * factor, price_precision)],
    the factor being 1.001 for BUY and 0.999 for SELL; when the second
    attempt goes through it returns [True], and when all three attempts
    raise it raises the error of the third, having made exactly 3
    attempts. *)
Theorem bracket_retry_bounded (s : string) (sd : Side) (qty sl : Q)
        (tps : list TakeProfit) (prec : Z) :
  (forall w : World E,
      (stop_requests (log (snd (_place_orders_with_retry client s sd qty sl tps prec 3 w)))
       <= stop_requests (log w) + 3)%nat) /\
  (forall (factor sl2 sl3 : Q) (tps2 tps3 : list TakeProfit),
      factor = match sd with BUY => 1001 # 1000 | SELL => 999 # 1000 end ->
      sl2 = Py.round (Py.mul sl factor) prec ->
      tps2 = map (fun tp => mkTP (Py.round (Py.mul (tp_price tp) factor) prec)
                                 (tp_percentage tp)) tps ->
      sl3 = Py.round (Py.mul sl2 factor) prec ->
      tps3 = map (fun tp => mkTP (Py.round (Py.mul (tp_price tp) factor) prec)
                                 (tp_percentage tp)) tps2 ->
      forall (w : World E) e1 w1,
        bracket_attempt client s sd qty prec sl tps w = (inl e1, w1) ->
        (forall b w2,
            bracket_attempt client s sd qty prec sl2 tps2 (record (EvSleep 1) w1)
            = (inr b, w2) ->
            _place_orders_with_retry client s sd qty sl tps prec 3 w
            = (inr (Some true), w2)) /\
        (forall e2 w2 e3 w3,
            bracket_attempt client s sd qty prec sl2 tps2 (record (EvSleep 1) w1)
            = (inl e2, w2) ->
            bracket_attempt client s sd qty prec sl3 tps3 (record (EvSleep 1) w2)
            = (inl e3, w3) ->
            _place_orders_with_retry client s sd qty sl tps prec 3 w = (inl e3, w3) /\
            stop_requests (log w3) = (stop_requests (log w) + 3)%nat)).
Proof.
  split.
  - intros w.
    destruct (_place_orders_with_retry client s sd qty sl tps prec 3 w) as [r w'] eqn:H.
    simpl. unfold _place_orders_with_retry in H. now apply retry_loop_bound in H.
  - intros factor sl2 sl3 tps2 tps3 F S2 T2 S3 T3 w e1 w1 A1.
    assert (sl2 = nudge_sl sd prec sl) as N2
        by (rewrite S2, F; unfold nudge_sl, adjustment_factor; destruct sd; reflexivity).
    assert (tps2 = map (nudge_tp sd prec) tps) as M2
        by (rewrite T2, F; unfold nudge_tp, adjustment_factor; destruct sd; reflexivity).
    assert (sl3 = nudge_sl sd prec sl2) as N3
        by (rewrite S3, F; unfold nudge_sl, adjustment_factor; destruct sd; reflexivity).
    assert (tps3 = map (nudge_tp sd prec) tps2) as M3
        by (rewrite T3, F; unfold nudge_tp, adjustment_factor; destruct sd; reflexivity).
    clear F S2 T2 S3 T3. subst sl3 tps3 sl2 tps2.
    split.
    + intros b w2 A2.
      unfold _place_orders_with_retry. simpl.
      unfold try_except at 1. unfold bind at 1. rewrite A1. simpl.
      unfold bind at 1. unfold sleep, emit.
      unfold try_except at 1. unfold bind at 1. rewrite A2. simpl.
      unfold bracket_attempt, bind in A2.
      destruct (client_create_order client _ (record (EvSleep 1) w1)) as [[c|o] wa];
        [discriminate|].
      destruct (place_tps client s sd qty prec _ wa) as [[c|[]] wb]; [discriminate|].
      inversion A2; subst. reflexivity.
    + intros e2 w2 e3 w3 A2 A3. split.
      * unfold _place_orders_with_retry. simpl.
        unfold try_except at 1. unfold bind at 1. rewrite A1. simpl.
        unfold bind at 1. unfold sleep, emit.
        unfold try_except at 1. unfold bind at 1. rewrite A2. simpl.
        unfold bind at 1.
        unfold try_except at 1. unfold bind at 1. rewrite A3. simpl.
        reflexivity.
      * apply bracket_attempt_one_stop in A1, A2, A3.
        unfold record in A2, A3. simpl log in A2, A3.
        rewrite stop_requests_app in A2, A3.
        change (stop_requests [EvSleep 1]) with 0%nat in A2, A3. lia.
Qed.

End Retry.

Lemma bracket_retry_bounded_witness :
  fst (_place_orders_with_retry (Fixture.scripted (Fixture.rejecting Fixture.margin_error))
         "BTCUSDT" BUY 2 99 [mkTP 102 50] 2 3 Fixture.fresh)
  = inl Fixture.margin_error /\
  stop_requests
    (log (snd (_place_orders_with_retry
                 (Fixture.scripted (Fixture.rejecting Fixture.margin_error))
                 "BTCUSDT" BUY 2 99 [mkTP 102 50] 2 3 Fixture.fresh))) = 3%nat /\
  log (snd (_place_orders_with_retry
              (Fixture.scripted (Fixture.rejecting Fixture.margin_error))
              "BTCUSDT" BUY 2 99 [mkTP 102 50] 2 3 Fixture.fresh))
  = [EvCreateOrder (mkReq "BTCUSDT" SELL 2 STOP_MARKET (Some 99) true);
     EvSleep 1;
     EvCreateOrder (mkReq "BTCUSDT" SELL 2 STOP_MARKET (Some (991 # 10)) true);
     EvSleep 1;
     EvCreateOrder (mkReq "BTCUSDT" SELL 2 STOP_MARKET (Some (496 # 5)) true)].
Proof.
  pose (c := Fixture.scripted (Fixture.rejecting Fixture.margin_error)).
  pose (tps := [mkTP 102 50]).
  pose (f := 1001 # 1000).
  pose (nx := fun tp => mkTP (Py.round (Py.mul (tp_price tp) f) 2) (tp_percentage tp)).
  pose (w1 := snd (bracket_attempt c "BTCUSDT" BUY 2 2 99 tps Fixture.fresh)).
  pose (w2 := snd (bracket_attempt c "BTCUSDT" BUY 2 2 (991 # 10) (map nx tps)
                                   (record (EvSleep 1) w1))).
  pose (w3 := snd (bracket_attempt c "BTCUSDT" BUY 2 2 (496 # 5) (map nx (map nx tps))
                                   (record (EvSleep 1) w2))).
  destruct (@bracket_retry_bounded unit c "BTCUSDT" BUY 2 99 tps 2) as [_ H].
  destruct (H f (991 # 10) (496 # 5) (map nx tps) (map nx (map nx tps))
              eq_refl eq_refl eq_refl eq_refl eq_refl
              Fixture.fresh Fixture.margin_error w1 eq_refl) as [_ H3].
  destruct (H3 Fixture.margin_error w2 Fixture.margin_error w3 eq_refl eq_refl) as [R N].
  fold c. fold tps. rewrite R. simpl fst. simpl snd.
  split; [reflexivity|]. split; [exact N | reflexivity].
Defined.

(** *** Deferral and rollback in [place_order] *)

Section Deferral.

Variable E : Type.
Variable client : Client E.

(** [_handle_failure] never raises; it first asks the exchange to cancel
    the orders of the symbol, and it ends on the failure notice when there
    is a notifier. *)
Lemma handle_failure_rolls_back (s e : string) (w : World E) :
  exists w' evs,
    _handle_failure client s e w = (inr tt, w') /\
    log w' = log w ++ EvCancelAll s :: evs
                   ++ (if has_notifier w then [EvNotify (OrderFailed s e)] else []) /\
    tracker w' = tracker w.
Proof.
  unfold _handle_failure, bind, try_except, client_cancel_all_orders,
    client_get_position_risk, client_create_order, call, get_world, send_message,
    emit, ret, record. simpl.
  destruct (cancel_all_orders client s (env w)) as [[c|[]] e1]; simpl.
  { destruct (has_notifier w); eexists; exists []; simpl;
      (split; [reflexivity|]); simpl; rewrite <- ?app_assoc; auto. }
  destruct (get_position_risk client e1) as [[c|positions] e2]; simpl.
  { destruct (has_notifier w); eexists; exists [EvPositionRisk]; simpl;
      (split; [reflexivity|]); simpl; rewrite <- ?app_assoc; auto. }
  destruct (nonzero_position s positions) as [pos|]; simpl.
  - destruct (create_order client (flatten_request s pos) e2) as [[c|o] e3]; simpl;
      destruct (has_notifier w); eexists;
        exists [EvPositionRisk; EvCreateOrder (flatten_request s pos)]; simpl;
          (split; [reflexivity|]); simpl; rewrite <- ?app_assoc; auto.
  - destruct (has_notifier w); eexists; exists [EvPositionRisk]; simpl;
      (split; [reflexivity|]); simpl; rewrite <- ?app_assoc; auto.
Qed.

(** What [place_order] does once its body has raised. *)
Lemma place_order_on_error (signal : Signal) (w : World E) (e : string) (w' : World E) :
  place_order_body client signal w = (inl e, w') ->
  place_order client signal w =
  (if Py.contains "Order would immediately trigger" e
   then ret None
   else bind (_handle_failure client (sig_symbol signal) e) (fun _ => raise e)) w'.
Proof.
  intros B. unfold place_order, try_except. unfold bind at 1.
  cbv beta. rewrite B. reflexivity.
Qed.

(** The calls of the rollback of [_handle_failure], as the answers of the
    exchange decide them: the cancellation; when it went through, the
    position query; and when that reports a nonzero position of the symbol,
    the reduce-only market order that flattens it. *)
Lemma handle_failure_trace (s e : string) (w : World E) :
  exists w',
    _handle_failure client s e w = (inr tt, w') /\
    tracker w' = tracker w /\
    log w' = log w
             ++ EvCancelAll s
             :: match cancel_all_orders client s (env w) with
                | (inl _, _) => []
                | (inr _, e1) =>
                    EvPositionRisk
                    :: match get_position_risk client e1 with
                       | (inr positions, _) =>
                           match nonzero_position s positions with
                           | Some pos => [EvCreateOrder (flatten_request s pos)]
                           | None => []
                           end
                       | (inl _, _) => []
                       end
                end
             ++ (if has_notifier w then [EvNotify (OrderFailed s e)] else []).
Proof.
  unfold _handle_failure, bind, try_except, client_cancel_all_orders,
    client_get_position_risk, client_create_order, call, get_world, send_message,
    emit, ret, record. simpl.
  destruct (cancel_all_orders client s (env w)) as [[c|[]] e1]; simpl.
  { destruct (has_notifier w); eexists; simpl;
      (split; [reflexivity|]); simpl; rewrite <- ?app_assoc; auto. }
  destruct (get_position_risk client e1) as [[c|positions] e2]; simpl.
  { destruct (has_notifier w); eexists; simpl;
      (split; [reflexivity|]); simpl; rewrite <- ?app_assoc; auto. }
  destruct (nonzero_position s positions) as [pos|]; simpl.
  - destruct (create_order client (flatten_request s pos) e2) as [[c|o] e3]; simpl;
      destruct (has_notifier w); eexists; simpl;
        (split; [reflexivity|]); simpl; rewrite <- ?app_assoc; auto.
  - destruct (has_notifier w); eexists; simpl;
      (split; [reflexivity|]); simpl; rewrite <- ?app_assoc; auto.
Qed.

(** C6. Deferral on price staleness: when the body of [place_order] raises
    an error whose message contains "Order would immediately trigger",
    [place_order] returns [None] in the world the error was raised in, so
    neither the rollback nor the failure notice takes place.  When the
    message does not contain it, [place_order] raises that same error after
    the rollback has run, and the calls made since the error are exactly:
    the cancellation of the symbol's orders; if it went through, the
    position query; if that reports a nonzero position of the symbol, the
    reduce-only market order for its full amount on the closing side; and
    last the failure notice, when there is a notifier.  The ledger is not
    touched. *)
Theorem place_order_defers_on_trigger (signal : Signal) (w : World E)
        (e : string) (w' : World E) :
  place_order_body client signal w = (inl e, w') ->
  (Py.contains "Order would immediately trigger" e = true ->
   place_order client signal w = (inr None, w')) /\
  (Py.contains "Order would immediately trigger" e = false ->
   exists w'',
     place_order client signal w = (inl e, w'') /\
     tracker w'' = tracker w' /\
     log w''
     = log w'
       ++ EvCancelAll (sig_symbol signal)
       :: match cancel_all_orders client (sig_symbol signal) (env w') with
          | (inl _, _) => []
          | (inr _, e1) =>
              EvPositionRisk
              :: match get_position_risk client e1 with
                 | (inr positions, _) =>
                     match nonzero_position (sig_symbol signal) positions with
                     | Some pos =>
                         [EvCreateOrder
                            (mkReq (sig_symbol signal)
                                   (if Py.lt 0 (positionAmt pos) then SELL else BUY)
                                   (Py.abs (positionAmt pos)) MARKET None true)]
                     | None => []
                     end
                 | (inl _, _) => []
                 end
          end
       ++ (if has_notifier w'
           then [EvNotify (OrderFailed (sig_symbol signal) e)]
           else [])).
Proof.
  intros B. rewrite (place_order_on_error _ _ B).
  split; intros C; rewrite C.
  - reflexivity.
  - destruct (handle_failure_trace (sig_symbol signal) e w') as [w'' [H [T L]]].
    exists w''. unfold bind. rewrite H. auto.
Qed.

End Deferral.

Lemma place_order_defers_on_trigger_witness :
  place_order (Fixture.scripted (Fixture.refusing Fixture.trigger_error))
              (Fixture.long_signal 99 [mkTP 102 50]) Fixture.fresh
  = (inr None,
     snd (place_order_body (Fixture.scripted (Fixture.refusing Fixture.trigger_error))
                           (Fixture.long_signal 99 [mkTP 102 50]) Fixture.fresh)) /\
  exists w'',
    place_order (Fixture.scripted Fixture.exposed)
                (mkSignal "X" BUY (Some 100) 2 99 [mkTP 102 50] (Some 1) (Some 1))
                Fixture.fresh
    = (inl Fixture.margin_error, w'') /\
    tracker w'' = PositionTracker.init /\
    log w''
    = [EvPositionRisk;
       EvCreateOrder (mkReq "X" SELL 3 MARKET None true);
       EvCancelAll "X";
       EvPositionRisk;
       EvCreateOrder (mkReq "X" SELL 3 MARKET None true);
       EvNotify (OrderFailed "X" Fixture.margin_error)].
Proof.
  split.
  - apply (@place_order_defers_on_trigger unit
             (Fixture.scripted (Fixture.refusing Fixture.trigger_error))
             (Fixture.long_signal 99 [mkTP 102 50]) Fixture.fresh
             ("Order failed after retries: " ++ Fixture.trigger_error)%string);
      reflexivity.
  - destruct (@place_order_defers_on_trigger unit
                (Fixture.scripted Fixture.exposed)
                (mkSignal "X" BUY (Some 100) 2 99 [mkTP 102 50] (Some 1) (Some 1))
                Fixture.fresh Fixture.margin_error
                (snd (place_order_body
                        (Fixture.scripted Fixture.exposed)
                        (mkSignal "X" BUY (Some 100) 2 99 [mkTP 102 50] (Some 1) (Some 1))
                        Fixture.fresh))
                eq_refl) as [_ H].
    destruct (H eq_refl) as [w'' [P [T L]]].
    exists w''. split; [exact P|]. split; [exact T | exact L].
Defined.

(** *** The entry order, then the brackets *)

Section Entry.

Variable E : Type.
Variable client : Client E.

Lemma sent_then_logs (ev : Event) (P : Event -> Prop) (a b c : World E) :
  sent ev a b -> logs P b c -> sent ev a c.
Proof.
  intros [e1 L1] [e2 [L2 _]]. exists (e1 ++ e2).
  rewrite L2, L1, <- app_assoc. reflexivity.
Qed.

Lemma sent_call (A : Type) (ev : Event) (f : E -> (string + A) * E) :
  steps (sent ev) (call ev f).
Proof.
  intros w r w' H. unfold call in H. simpl in H.
  destruct (f (env w)) as [r0 e']. inversion H; subst; clear H.
  exists []. reflexivity.
Qed.

Lemma sent_bind (A B : Type) (ev : Event) (P : Event -> Prop)
      (m : M E A) (k : A -> M E B) :
  steps (sent ev) m -> (forall a, steps (logs P) (k a)) -> steps (sent ev) (bind m k).
Proof.
  intros Hm Hk w r w' H. unfold bind in H.
  destruct (m w) as [[e|a] w1] eqn:Em.
  - inversion H; subst. eapply Hm; eauto.
  - eapply sent_then_logs; [eapply Hm; eauto | eapply Hk; eauto].
Qed.

Lemma sent_try (A : Type) (ev : Event) (P : Event -> Prop)
      (m : M E A) (h : string -> M E A) :
  steps (sent ev) m -> (forall e, steps (logs P) (h e)) -> steps (sent ev) (try_except m h).
Proof.
  intros Hm Hh w r w' H. unfold try_except in H.
  destruct (m w) as [[e|a] w1] eqn:Em.
  - eapply sent_then_logs; [eapply Hm; eauto | eapply Hh; eauto].
  - inversion H; subst. eapply Hm; eauto.
Qed.

Lemma market_attempt_sends (s : string) (sd : Side) (qty : Q) :
  steps (sent (EvCreateOrder (mkReq s sd qty MARKET None false)))
        (market_attempt client s sd qty).
Proof.
  unfold market_attempt, client_create_order.
  apply sent_bind with (P := no_query); [apply sent_call|].
  intros order. apply l_quiet. unfold_client. walk; unfold no_query; simpl; tauto.
Qed.

(** A market loop that runs at all sends the entry order first. *)
Lemma market_loop_sends (n attempt : nat) (s : string) (sd : Side) (qty : Q) :
  steps (sent (EvCreateOrder (mkReq s sd qty MARKET None false)))
        (market_loop client (S n) attempt s sd qty).
Proof.
  simpl. apply sent_try with (P := no_query).
  - apply sent_bind with (P := no_query); [apply market_attempt_sends|].
    intros order. walk.
  - intros e. apply l_quiet. unfold_client.
    walk; try apply market_loop_quiet. unfold no_query; simpl; tauto.
Qed.

(** When the entry phase returns, the entry order was sent, the order it
    returns is filled, and the ledger was not touched. *)
Lemma entry_phase_filled (signal : Signal) (w : World E) (order : Order) (avg : Q)
      (w1 : World E) :
  entry_phase client signal w = (inr (order, avg), w1) ->
  Py.lt 0 (executedQty order) = true /\
  In (EvCreateOrder (entry_request signal)) (log w1) /\
  tracker w1 = tracker w.
Proof.
  intros H. split; [|split].
  - revert H. unfold entry_phase, bind.
    destruct (_check_existing_position client (sig_symbol signal) w) as [[e|[]] wa];
      [discriminate|].
    destruct (_execute_market_order client _ _ _ wa) as [[e|[o|]] wb];
      try discriminate.
    destruct (Py.le (executedQty o) 0) eqn:L; [discriminate|].
    destruct (fill_price_or_market client (sig_symbol signal) o wb) as [[e|p] wc];
      [discriminate|].
    intros H. inversion H; subst. unfold Py.lt. unfold Py.le in L. now rewrite L.
  - revert H. unfold entry_phase, bind.
    destruct (_check_existing_position client (sig_symbol signal) w) as [[e|[]] wa];
      [discriminate|].
    destruct (_execute_market_order client _ _ _ wa) as [[e|[o|]] wb] eqn:X;
      try discriminate.
    destruct (Py.le (executedQty o) 0); [discriminate|].
    destruct (fill_price_or_market client (sig_symbol signal) o wb) as [[e|p] wc] eqn:F;
      [discriminate|].
    intros H. inversion H; subst.
    apply market_loop_sends in X. destruct X as [evs L].
    apply fill_price_quiet in F. destruct F as [[evs' [L' _]] _].
    rewrite L', L. apply in_or_app. left. apply in_or_app. right. now left.
  - apply entry_phase_quiet in H. destruct H as [_ [T _]]. exact T.
Qed.

(** C10, as amended. The deferral covers the bracket phase: when the entry
    phase has returned a filled order and the bracket placement then raises
    an error whose message contains "Order would immediately trigger",
    [place_order] returns [None] in the world the error was raised in.  The
    entry order is in the log, nothing sent since is a cancellation or a
    market order, and the ledger is as it was before the call: the filled
    position stays on the exchange with whatever bracket orders were
    accepted before the error, and it is not recorded. *)
Theorem deferral_covers_bracket_phase (signal : Signal) (w : World E)
        (order : Order) (avg : Q) (w1 : World E) (e : string) (w2 : World E) :
  entry_phase client signal w = (inr (order, avg), w1) ->
  _place_sl_tp_orders client (sig_symbol signal) (sig_signal signal)
                      (executedQty order) avg
                      (sig_stop_loss signal) (sig_take_profits signal) w1
  = (inl e, w2) ->
  Py.contains "Order would immediately trigger" e = true ->
  place_order client signal w = (inr None, w2) /\
  Py.lt 0 (executedQty order) = true /\
  In (EvCreateOrder (entry_request signal)) (log w1) /\
  (exists evs, log w2 = log w1 ++ evs /\ Forall (fun ev => ~ rollback_event ev) evs) /\
  tracker w2 = tracker w.
Proof.
  intros H1 H2 C.
  assert (place_order_body client signal w = (inl e, w2)) as B.
  { unfold place_order_body. unfold bind at 1. rewrite H1.
    unfold bind at 1. simpl fst. simpl snd. rewrite H2. reflexivity. }
  destruct (entry_phase_filled _ _ H1) as [F [S T]].
  pose proof H2 as Q2. apply place_sl_tp_quiet in Q2.
  destruct Q2 as [[evs [L A]] [T2 _]].
  split; [|split; [exact F|split; [exact S|split]]].
  - rewrite (@place_order_on_error E client signal w e w2 B). now rewrite C.
  - exists evs. split; [exact L|].
    eapply Forall_impl; [|exact A]. now intros ev [N _].
  - congruence.
Qed.

End Entry.

Lemma deferral_covers_bracket_phase_witness :
  fst (place_order (Fixture.scripted (Fixture.rejecting Fixture.trigger_error))
                   (Fixture.long_signal 99 [mkTP 102 50]) Fixture.fresh)
  = inr None /\
  tracker (snd (place_order (Fixture.scripted (Fixture.rejecting Fixture.trigger_error))
                            (Fixture.long_signal 99 [mkTP 102 50]) Fixture.fresh))
  = PositionTracker.init /\
  In (EvCreateOrder (mkReq "BTCUSDT" BUY 2 MARKET None false))
     (log (snd (place_order (Fixture.scripted (Fixture.rejecting Fixture.trigger_error))
                            (Fixture.long_signal 99 [mkTP 102 50]) Fixture.fresh))) /\
  Forall (fun ev => EvCancelAll "BTCUSDT" <> ev)
         (log (snd (place_order (Fixture.scripted (Fixture.rejecting Fixture.trigger_error))
                                (Fixture.long_signal 99 [mkTP 102 50]) Fixture.fresh))).
Proof.
  pose (c := Fixture.scripted (Fixture.rejecting Fixture.trigger_error)).
  pose (sg := Fixture.long_signal 99 [mkTP 102 50]).
  pose (w1 := snd (entry_phase c sg Fixture.fresh)).
  pose (w2 := snd (_place_sl_tp_orders c "BTCUSDT" BUY 2 (200 # 2) 99 [mkTP 102 50] w1)).
  destruct (@deferral_covers_bracket_phase unit c sg Fixture.fresh
              (Fixture.filled "BTCUSDT" 2 100) (200 # 2) w1 Fixture.trigger_error w2)
    as [R [_ [S [_ T]]]]; try reflexivity.
  fold c. fold sg. rewrite R. simpl fst. simpl snd.
  split; [reflexivity|]. split; [exact T|]. split.
  - vm_compute. tauto.
  - vm_compute. repeat constructor; discriminate.
Defined.

(** C10 at the input the claim fails on.  The exchange accepts the stop
    orders and rejects the take-profit with the trigger message: each of the
    three attempts places its stop before the take-profit fails, and
    [place_order] returns [None] without cancelling anything.  The filled
    position is left with three accepted stop orders, at 99.85, 99.95 and
    100.05, not without protective orders; the ledger does not hold it. *)
Lemma deferred_position_keeps_stops :
  place_order (Fixture.stops_only Fixture.trigger_error)
              (Fixture.long_signal 99 [mkTP 102 50]) Fixture.fresh
  = (inr None,
     mkWorld tt
             [EvPositionRisk;
              EvCreateOrder (mkReq "BTCUSDT" BUY 2 MARKET None false);
              EvKlines "BTCUSDT"; EvPrecision "BTCUSDT";
              EvCreateOrder (mkReq "BTCUSDT" SELL 2 STOP_MARKET (Some (1997 # 20)) true);
              EvCreateOrder (mkReq "BTCUSDT" SELL 1 TAKE_PROFIT_MARKET (Some 102) true);
              EvSleep 1;
              EvCreateOrder (mkReq "BTCUSDT" SELL 2 STOP_MARKET (Some (1999 # 20)) true);
              EvCreateOrder (mkReq "BTCUSDT" SELL 1 TAKE_PROFIT_MARKET
                                   (Some (1021 # 10)) true);
              EvSleep 1;
              EvCreateOrder (mkReq "BTCUSDT" SELL 2 STOP_MARKET (Some (2001 # 20)) true);
              EvCreateOrder (mkReq "BTCUSDT" SELL 1 TAKE_PROFIT_MARKET
                                   (Some (511 # 5)) true)]
             PositionTracker.init [] None true) /\
  create_order (Fixture.stops_only Fixture.trigger_error)
               (mkReq "BTCUSDT" SELL 2 STOP_MARKET (Some (1997 # 20)) true) tt
  = (inr (Fixture.accepted "BTCUSDT"), tt) /\
  create_order (Fixture.stops_only Fixture.trigger_error)
               (mkReq "BTCUSDT" SELL 2 STOP_MARKET (Some (1999 # 20)) true) tt
  = (inr (Fixture.accepted "BTCUSDT"), tt) /\
  create_order (Fixture.stops_only Fixture.trigger_error)
               (mkReq "BTCUSDT" SELL 2 STOP_MARKET (Some (2001 # 20)) true) tt
  = (inr (Fixture.accepted "BTCUSDT"), tt).
Proof. repeat split; vm_compute; reflexivity. Qed.

(** *** Closing a position *)

Section Closing.

Variable E : Type.
Variable client : Client E.

Lemma close_untracked (s reason : string) (w : World E) :
  PositionTracker.get_position s (tracker w) = None ->
  close_position client s reason w = (inr None, w).
Proof.
  intros G. unfold close_position, try_except, bind, get_world.
  rewrite G. reflexivity.
Qed.

(** For a tracked position whose price query is answered, the order sent
    is [close_request]: right after the price query in the log. *)
Lemma close_tracked_sends (s reason : string) (position : Position) (w : World E)
      (price : Q) (e1 : E) :
  PositionTracker.get_position s (tracker w) = Some position ->
  last_close client s (env w) = (inr price, e1) ->
  exists evs,
    log (snd (close_position client s reason w))
    = log w ++ EvKlines s :: EvCreateOrder (close_request s position) :: evs.
Proof.
  intros G K.
  unfold close_position, try_except, bind, get_world, client_last_close,
    client_create_order, call, after_close, send_alert, send_message, emit, ret,
    raise, set_risk_manager, set_tracker, set_active_orders, get_world, record.
  simpl. rewrite G. simpl. rewrite K. simpl.
  destruct (create_order client (close_request s position) e1) as [[c|o] e2]; simpl.
  - destruct (has_notifier w); simpl; rewrite <- ?app_assoc; simpl; eexists; reflexivity.
  - destruct (risk_manager w); simpl;
      destruct (has_notifier w); simpl; rewrite <- ?app_assoc; simpl;
        eexists; reflexivity.
Qed.

End Closing.

(** C7 at its failing input. [close_position] computes the pnl as claimed
    (20 for a long from 100 to 110 and for a short from 100 to 90, with
    quantity 2), sends one market order for the full quantity on the
    opposite side, and returns [None] without any call for an untracked
    symbol; but the order it sends carries no [reduceOnly], unlike the
    closing orders of [_check_existing_position] and [_handle_failure]. *)
Theorem close_position_order_not_reduce_only :
  (forall (E : Type) (client : Client E) (s reason : string) (position : Position)
          (w : World E) (price : Q) (e1 : E),
      PositionTracker.get_position s (tracker w) = Some position ->
      last_close client s (env w) = (inr price, e1) ->
      exists evs,
        log (snd (close_position client s reason w))
        = log w ++ EvKlines s
                :: EvCreateOrder (mkReq s (opposite (side position)) (quantity position)
                                        MARKET None false)
                :: evs) /\
  (forall (E : Type) (client : Client E) (s reason : string) (w : World E),
      PositionTracker.get_position s (tracker w) = None ->
      close_position client s reason w = (inr None, w)) /\
  (forall (s : string) (p : PositionRisk), req_reduceOnly (flatten_request s p) = true) /\
  _calculate_pnl (Fixture.long_position "X" 100 2) 110 == 20 /\
  _calculate_pnl (Fixture.short_position "X" 100 2) 90 == 20 /\
  close_position (Fixture.scripted (Fixture.quoting 110)) "X" "manual"
                 (Fixture.holding (Fixture.long_position "X" 100 2))
  = (inr (Some (Fixture.filled "X" 2 110)),
     mkWorld tt
             [EvKlines "X";
              EvCreateOrder (mkReq "X" SELL 2 MARKET None false);
              EvNotify (PositionClosed "X" "manual" 20)]
             (PositionTracker.mk
                []
                [PositionTracker.with_exit (Fixture.long_position "X" 100 2)
                                           (mkExit 110 1700000000 "manual" 20)])
             [] (Some Fixture.tracking_eth) true).
Proof.
  split; [|split; [|split; [|split; [|split]]]].
  - intros. eapply close_tracked_sends; eauto.
  - intros. now apply close_untracked.
  - reflexivity.
  - reflexivity.
  - reflexivity.
  - reflexivity.
Qed.

(** *** The price guard of the brackets *)

Lemma max_ge_first (a b : Q) : a <= Py.max a b.
Proof.
  unfold Py.max. destruct (Py.lt a b) eqn:L.
  - apply RiskFacts.lt_true in L. now apply Qlt_le_weak.
  - apply Qle_refl.
Qed.

Lemma max_ge_second (a b : Q) : b <= Py.max a b.
Proof.
  unfold Py.max. destruct (Py.lt a b) eqn:L.
  - apply Qle_refl.
  - now apply RiskFacts.lt_false in L.
Qed.

Lemma min_le_first (a b : Q) : Py.min a b <= a.
Proof.
  unfold Py.min. destruct (Py.lt b a) eqn:L.
  - apply RiskFacts.lt_true in L. now apply Qlt_le_weak.
  - apply Qle_refl.
Qed.

Lemma min_le_second (a b : Q) : Py.min a b <= b.
Proof.
  unfold Py.min. destruct (Py.lt b a) eqn:L.
  - apply Qle_refl.
  - now apply RiskFacts.lt_false in L.
Qed.

(** C1 at its failing input. For a BUY at a market price of 100 with a
    proposed stop-loss of 99.97, the stop price handed to the retry loop
    and sent to the exchange is 99.97, above 99.95.  The adjustment never
    moves a stop away from the market: for BUY the adjusted stop is at least
    the proposed one and at least market minus 0.15%, for SELL at most the
    proposed one and at most market plus 0.15%.  The take-profit adjustment
    does keep its distance: before rounding, at least market plus 0.2% for
    BUY and at most market minus 0.2% for SELL. *)
Theorem stop_loss_guard_keeps_tight_stop :
  fst (bracket_prices BUY 100 2 (9997 # 100) [mkTP 102 50]) = 9997 # 100 /\
  9995 # 100 < fst (bracket_prices BUY 100 2 (9997 # 100) [mkTP 102 50]) /\
  In (EvCreateOrder (mkReq "BTCUSDT" SELL 2 STOP_MARKET (Some (9997 # 100)) true))
     (log (snd (place_order (Fixture.scripted Fixture.calm)
                            (Fixture.long_signal (9997 # 100) [mkTP 102 50])
                            Fixture.fresh))) /\
  (forall cur sl : Q,
      sl <= adjust_sl BUY cur sl /\
      cur - Py.max (cur * (15 # 10000)) (cur * (5 # 10000)) <= adjust_sl BUY cur sl) /\
  (forall cur sl : Q,
      adjust_sl SELL cur sl <= sl /\
      adjust_sl SELL cur sl <= cur + Py.max (cur * (15 # 10000)) (cur * (5 # 10000))) /\
  (forall cur tp : Q,
      cur + Py.max (cur * (2 # 1000)) (cur * (5 # 10000))
      <= Py.max tp (cur + min_tp_diff cur) /\
      Py.min tp (cur - min_tp_diff cur)
      <= cur - Py.max (cur * (2 # 1000)) (cur * (5 # 10000))).
Proof.
  split; [reflexivity|]. split; [reflexivity|]. split; [vm_compute; tauto|].
  split; [|split].
  - intros cur sl. unfold adjust_sl, min_sl_diff.
    split; [apply max_ge_first | apply max_ge_second].
  - intros cur sl. unfold adjust_sl, min_sl_diff.
    split; [apply min_le_first | apply min_le_second].
  - intros cur tp. unfold min_tp_diff.
    split; [apply max_ge_second | apply min_le_second].
Qed.

End OrderFacts.


(** * Further properties of the ledger *)

Module LedgerMore.

Import PositionTracker Ledger LedgerFacts.

Local Open Scope string_scope.

(** *** What stays tracked through the two loops of the reconciliation *)

Lemma close_step_tracked_before (snap : list PositionRisk) (now : Z) (l : t) (k s : string) :
  tracked s (sync_close_step snap now l k) = true -> tracked s l = true.
Proof.
  intros T. destruct (tracked s l) eqn:B; auto.
  apply untracked_get in B.
  apply (get_close_step_none snap now l k) in B.
  apply untracked_get in B. congruence.
Qed.

Lemma fold_close_tracked_before (snap : list PositionRisk) (now : Z) (ks : list string)
      (s : string) :
  forall l, tracked s (fold_left (sync_close_step snap now) ks l) = true ->
            tracked s l = true.
Proof.
  induction ks as [|k ks IH]; simpl; auto.
  intros l T. apply IH in T. now apply close_step_tracked_before in T.
Qed.

Lemma gone_false_live_entry (snap : list PositionRisk) (s : string) :
  gone snap s = false ->
  exists pos, In pos snap /\ pr_symbol pos = s /\ Py.eq (positionAmt pos) 0 = false.
Proof.
  unfold gone, snapshot_find. intros G.
  destruct (find (fun p => String.eqb (pr_symbol p) s) snap) as [pos|] eqn:F;
    [|discriminate].
  apply find_some in F. destruct F as [Hin K]. apply String.eqb_eq in K.
  exists pos. auto.
Qed.

Lemma add_step_tracked_after (now : Z) (l : t) (pos : PositionRisk) (s : string) :
  tracked s l = true -> tracked s (sync_add_step now l pos) = true.
Proof.
  intros T. apply tracked_get in T. destruct T as [q G].
  apply tracked_get. exists q. now apply get_add_step_some.
Qed.

Lemma fold_add_tracked_after (now : Z) (snap : list PositionRisk) (s : string) :
  forall l, tracked s l = true ->
            tracked s (fold_left (sync_add_step now) snap l) = true.
Proof.
  induction snap as [|a snap IH]; simpl; auto.
  intros l T. apply IH. now apply add_step_tracked_after.
Qed.

Lemma add_step_tracks_live (now : Z) (l : t) (pos : PositionRisk) :
  Py.eq (positionAmt pos) 0 = false ->
  tracked (pr_symbol pos) (sync_add_step now l pos) = true.
Proof.
  intros Z0. unfold sync_add_step. rewrite Z0. simpl.
  destruct (tracked (pr_symbol pos) l) eqn:T; simpl; auto.
  apply tracked_get. exists (adopted pos now).
  apply (get_add_new (adopted pos now)). exact T.
Qed.

Lemma fold_add_tracks_live (now : Z) (snap : list PositionRisk) (pos : PositionRisk) :
  In pos snap -> Py.eq (positionAmt pos) 0 = false ->
  forall l, tracked (pr_symbol pos) (fold_left (sync_add_step now) snap l) = true.
Proof.
  intros Hin Z0. induction snap as [|a snap IH]; simpl; [destruct Hin|].
  intros l. destruct Hin as [->|Hin].
  - apply fold_add_tracked_after. now apply add_step_tracks_live.
  - now apply IH.
Qed.

Lemma add_step_tracked_origin (now : Z) (l : t) (pos : PositionRisk) (s : string) :
  tracked s (sync_add_step now l pos) = true ->
  tracked s l = true \/ (pr_symbol pos = s /\ Py.eq (positionAmt pos) 0 = false).
Proof.
  intros T. destruct (string_dec (pr_symbol pos) s) as [K|N].
  - destruct (Py.eq (positionAmt pos) 0) eqn:Z0; [|now right].
    left. unfold sync_add_step in T. now rewrite Z0 in T.
  - left. apply tracked_get in T. destruct T as [q G].
    rewrite get_add_step_other in G by exact N.
    apply tracked_get. eauto.
Qed.

Lemma fold_add_tracked_origin (now : Z) (snap : list PositionRisk) (s : string) :
  forall l, tracked s (fold_left (sync_add_step now) snap l) = true ->
    tracked s l = true \/
    exists pos, In pos snap /\ pr_symbol pos = s /\ Py.eq (positionAmt pos) 0 = false.
Proof.
  induction snap as [|a snap IH]; simpl; auto.
  intros l T. apply IH in T. destruct T as [T|[pos [Hin H]]].
  - apply add_step_tracked_origin in T. destruct T as [T|[K Z0]]; auto.
    right. exists a. auto.
  - right. exists pos. auto.
Qed.

Lemma tracked_after_sync (snap : list PositionRisk) (now : Z) (l : t) (s : string) :
  tracked s (sync_with_exchange snap now l) = true <->
  exists pos, In pos snap /\ pr_symbol pos = s /\ Py.eq (positionAmt pos) 0 = false.
Proof.
  unfold sync_with_exchange. split.
  - intros T. apply fold_add_tracked_origin in T. destruct T as [T|T]; auto.
    pose proof (fold_close_tracked_before _ _ _ _ _ T) as B.
    destruct (gone snap s) eqn:G; [|now apply gone_false_live_entry].
    exfalso. apply tracked_get in B. destruct B as [p Gp].
    assert (In s (map fst (positions l))) as Hk.
    { apply tracked_in_keys. apply tracked_get. eauto. }
    destruct (@fold_close_closes snap now s p _ G l Hk Gp) as [N _].
    apply untracked_get in N. congruence.
  - intros [pos [Hin [K Z0]]]. subst s. now apply fold_add_tracks_live.
Qed.

(** After reconciliation the open symbols are exactly the symbols the
    snapshot reports with a nonzero amount, for every ledger and every
    snapshot. *)
Theorem sync_open_iff_live (snap : list PositionRisk) (now : Z) (l : t) (s : string) :
  tracked s (sync_with_exchange snap now l) = true <->
  exists pos, In pos snap /\ pr_symbol pos = s /\ Py.eq (positionAmt pos) 0 = false.
Proof. apply tracked_after_sync. Qed.

(** *** Reconciling twice *)

Lemma fold_fixed {A : Type} (f : t -> A -> t) (xs : list A) (l : t) :
  (forall x, In x xs -> f l x = l) -> fold_left f xs l = l.
Proof.
  induction xs as [|x xs IH]; simpl; auto.
  intros H. rewrite (H x (or_introl eq_refl)). apply IH. intros y Hy. apply H. now right.
Qed.

(** Reconciliation is idempotent on a snapshot that lists each symbol at
    most once: a second pass over the same snapshot, at any later time,
    closes nothing and adopts nothing. *)
Theorem sync_idempotent (snap : list PositionRisk) (now now' : Z) (l : t) :
  NoDup (map pr_symbol snap) ->
  sync_with_exchange snap now' (sync_with_exchange snap now l)
  = sync_with_exchange snap now l.
Proof.
  intros Hn. set (l1 := sync_with_exchange snap now l).
  unfold sync_with_exchange at 1.
  assert (fold_left (sync_close_step snap now') (map fst (positions l1)) l1 = l1) as C.
  { apply fold_fixed. intros k Hk. rewrite close_step_spec.
    destruct (gone snap k) eqn:G; auto. exfalso.
    apply tracked_in_keys in Hk. unfold l1 in Hk.
    apply tracked_after_sync in Hk. destruct Hk as [pos [Hin [K Z0]]].
    rewrite (gone_no_live_entry snap Hn G pos Hin K) in Z0. discriminate. }
  rewrite C. apply fold_fixed. intros pos Hin. unfold sync_add_step.
  destruct (Py.eq (positionAmt pos) 0) eqn:Z0; simpl; auto.
  assert (tracked (pr_symbol pos) l1 = true) as T.
  { unfold l1. apply tracked_after_sync. exists pos. auto. }
  now rewrite T.
Qed.

Lemma sync_idempotent_witness :
  sync_with_exchange [mkPR "X" 0 100 105 10 3; mkPR "Y" 4 50 51 5 1] 9
    (sync_with_exchange [mkPR "X" 0 100 105 10 3; mkPR "Y" 4 50 51 5 1] 7
                        (add_position (Fixture.long_position "X" 100 2) init))
  = sync_with_exchange [mkPR "X" 0 100 105 10 3; mkPR "Y" 4 50 51 5 1] 7
                       (add_position (Fixture.long_position "X" 100 2) init).
Proof.
  apply sync_idempotent. simpl. constructor.
  - simpl. intros [H|[]]. discriminate H.
  - constructor; [intros []|constructor].
Defined.

(** A tracked position whose first snapshot entry has a nonzero amount
    comes out of the reconciliation as it went in: its side, quantity,
    entry price and protective levels are not refreshed from the exchange. *)
Theorem sync_keeps_live_position (snap : list PositionRisk) (now : Z) (l : t)
        (s : string) (p : Position) (pos : PositionRisk) :
  get_position s l = Some p ->
  snapshot_find s snap = Some pos ->
  Py.eq (positionAmt pos) 0 = false ->
  get_position s (sync_with_exchange snap now l) = Some p.
Proof.
  intros G F Z0. unfold sync_with_exchange. apply fold_add_some.
  assert (gone snap s = false) as NG by (unfold gone; now rewrite F).
  clear F Z0. generalize (map fst (positions l)) as ks. intros ks.
  revert l G. induction ks as [|k ks IH]; simpl; auto.
  intros l0 G. apply IH. destruct (string_dec k s) as [->|N].
  - rewrite close_step_spec, NG. exact G.
  - now rewrite get_close_step_other.
Qed.

Lemma sync_keeps_live_position_witness :
  get_position "X"
    (sync_with_exchange [mkPR "X" (-7) 90 95 20 1] 7
                        (add_position (Fixture.long_position "X" 100 2) init))
  = Some (Fixture.long_position "X" 100 2).
Proof.
  apply (@sync_keeps_live_position [mkPR "X" (-7) 90 95 20 1] 7
           (add_position (Fixture.long_position "X" 100 2) init) "X"
           (Fixture.long_position "X" 100 2) (mkPR "X" (-7) 90 95 20 1));
    reflexivity.
Defined.

(** *** The closed history and the realized pnl *)

Definition realized (p : Position) : Q :=
  match exit_info p with Some x => pnl x | None => 0 end.

Lemma total_pnl_from (c : list Position) :
  forall acc : Q,
    fold_left (fun a p => match exit_info p with
                          | Some x => (a + pnl x)%Q
                          | None => a
                          end) c acc
    == acc + fold_right (fun p a => (realized p + a)%Q) 0 c.
Proof.
  induction c as [|p c IH]; intros acc; simpl.
  - ring.
  - rewrite IH. unfold realized. destruct (exit_info p); ring.
Qed.

(** The total realized pnl is the sum of the pnl of the closed records;
    closing a tracked position adds exactly the pnl it is closed with, and
    closing an untracked symbol changes nothing. *)
Theorem total_pnl_accumulates (l : t) (s : string) (xprice : Q) (xreason : string)
        (xpnl : Q) (now : Z) :
  get_total_pnl l == fold_right (fun p a => (realized p + a)%Q) 0 (closed_positions l) /\
  (tracked s l = true ->
   get_total_pnl (close_position s xprice xreason xpnl now l) == get_total_pnl l + xpnl) /\
  (tracked s l = false -> close_position s xprice xreason xpnl now l = l).
Proof.
  split; [|split].
  - unfold get_total_pnl. rewrite total_pnl_from. ring.
  - intros T. apply tracked_get in T. destruct T as [p G].
    unfold close_position. rewrite G. unfold get_total_pnl. simpl.
    rewrite fold_left_app. simpl. reflexivity.
  - intros T. apply untracked_get in T. unfold close_position. now rewrite T.
Qed.

Lemma close_step_appends (snap : list PositionRisk) (now : Z) (l : t) (k : string) :
  exists suffix,
    closed_positions (sync_close_step snap now l k) = (closed_positions l ++ suffix)%list /\
    Forall (fun p => option_map exit_reason (exit_info p) = Some "external_close") suffix.
Proof.
  rewrite close_step_spec. destruct (gone snap k).
  - unfold close_position. destruct (get_position k l) as [p|].
    + simpl. eexists. split; [reflexivity|]. constructor; [reflexivity|constructor].
    + exists []. split; [now rewrite app_nil_r | constructor].
  - exists []. split; [now rewrite app_nil_r | constructor].
Qed.

Lemma fold_close_appends (snap : list PositionRisk) (now : Z) (ks : list string) :
  forall l, exists suffix,
    closed_positions (fold_left (sync_close_step snap now) ks l)
    = (closed_positions l ++ suffix)%list /\
    Forall (fun p => option_map exit_reason (exit_info p) = Some "external_close") suffix.
Proof.
  induction ks as [|k ks IH]; simpl; intros l.
  - exists []. split; [now rewrite app_nil_r | constructor].
  - destruct (close_step_appends snap now l k) as [s1 [E1 F1]].
    destruct (IH (sync_close_step snap now l k)) as [s2 [E2 F2]].
    exists (s1 ++ s2)%list. split.
    + now rewrite E2, E1, app_assoc.
    + apply Forall_app. now split.
Qed.

(** The closed history is append-only: adding a position and moving a stop
    leave it as it is, closing appends at most one record, and
    reconciliation appends only records closed with reason
    "external_close"; no operation drops or rewrites a record. *)
Theorem closed_history_append_only (l : t) :
  (forall p, get_closed_positions (add_position p l) = get_closed_positions l) /\
  (forall s q, get_closed_positions (set_stop_loss s q l) = get_closed_positions l) /\
  (forall s xprice xreason xpnl now,
      exists suffix,
        get_closed_positions (close_position s xprice xreason xpnl now l)
        = (get_closed_positions l ++ suffix)%list /\
        (List.length suffix <= 1)%nat) /\
  (forall snap now,
      exists suffix,
        get_closed_positions (sync_with_exchange snap now l)
        = (get_closed_positions l ++ suffix)%list /\
        Forall (fun p => option_map exit_reason (exit_info p) = Some "external_close")
               suffix).
Proof.
  unfold get_closed_positions. split; [|split; [|split]].
  - intros p. unfold add_position. now destruct (tracked (symbol p) l).
  - reflexivity.
  - intros s xprice xreason xpnl now. unfold close_position.
    destruct (get_position s l) as [p|].
    + simpl. eexists. split; [reflexivity|]. simpl. lia.
    + exists []. split; [now rewrite app_nil_r | simpl; lia].
  - intros snap now. unfold sync_with_exchange. rewrite fold_add_closed.
    apply fold_close_appends.
Qed.

(** Lookup after insertion: a position added under an untracked symbol is
    what a lookup of that symbol returns and is listed last among the open
    positions; a position added under a tracked symbol is dropped; lookups
    of other symbols are not affected. *)
Theorem add_then_get (p : Position) (l : t) :
  (tracked (symbol p) l = false ->
   get_position (symbol p) (add_position p l) = Some p /\
   get_all_positions (add_position p l) = (get_all_positions l ++ [p])%list) /\
  (tracked (symbol p) l = true ->
   get_position (symbol p) (add_position p l) = get_position (symbol p) l /\
   get_all_positions (add_position p l) = get_all_positions l) /\
  (forall s, s <> symbol p -> get_position s (add_position p l) = get_position s l).
Proof.
  split; [|split].
  - intros T. split; [now apply get_add_new|].
    unfold add_position, get_all_positions. rewrite T. simpl. now rewrite map_app.
  - intros T. unfold add_position. now rewrite T.
  - intros s N. apply get_add_other. congruence.
Qed.

End LedgerMore.


(** * Further properties of the risk gate *)

Module RiskMore.

Import RiskManagement RiskFacts.

Local Open Scope Q_scope.

Lemma dict_get_set_same (A : Type) (k : string) (v dflt : A) (d : list (string * A)) :
  dict_get k (dict_set k v d) dflt = v.
Proof.
  unfold dict_get. induction d as [|kv d IH]; simpl.
  - now rewrite String.eqb_refl.
  - destruct (String.eqb (fst kv) k) eqn:K; simpl.
    + now rewrite String.eqb_refl.
    + now rewrite K.
Qed.

Lemma dict_get_set_other (A : Type) (k k' : string) (v dflt : A) (d : list (string * A)) :
  k <> k' -> dict_get k' (dict_set k v d) dflt = dict_get k' d dflt.
Proof.
  intros N. unfold dict_get. induction d as [|kv d IH]; simpl.
  - apply String.eqb_neq in N. now rewrite N.
  - destruct (String.eqb (fst kv) k) eqn:K; simpl.
    + apply String.eqb_eq in K. rewrite K. apply String.eqb_neq in N. now rewrite N.
    + destruct (String.eqb (fst kv) k'); auto.
Qed.

(** [can_trade] fails closed: it answers false when the position query
    raised, when the exchange already holds a position on the symbol, and
    when a section of the configuration is missing, whatever the signal. *)
Theorem can_trade_fails_closed (cfg : Config) (utcnow now : Q) (r : t)
        (s : string) (signal : Signal) :
  (forall e, snd (can_trade cfg utcnow now r (inl e) s signal) = false) /\
  (forall positions pos,
      In pos positions -> pr_symbol pos = s -> Py.eq (positionAmt pos) 0 = false ->
      snd (can_trade cfg utcnow now r (inr positions) s signal) = false) /\
  (forall snapshot,
      cfg_strategy cfg = None \/ cfg_risk cfg = None \/ cfg_pairs cfg = None ->
      snd (can_trade cfg utcnow now r snapshot s signal) = false).
Proof.
  unfold can_trade; simpl. split; [|split].
  - reflexivity.
  - intros positions pos Hin K Z0. unfold verdict.
    destruct (existing_pos s positions) eqn:X; [reflexivity|].
    unfold existing_pos in X. apply (find_none _ _ X) in Hin.
    apply String.eqb_eq in K. rewrite K, Z0 in Hin. discriminate.
  - intros snapshot H. unfold verdict.
    destruct snapshot as [e|positions]; [reflexivity|].
    destruct (existing_pos s positions); [reflexivity|].
    destruct (cfg_strategy cfg) as [st|] eqn:S; [|reflexivity].
    destruct (Py.lt _ (get_or (min_signal_strength st) _)); [reflexivity|].
    destruct (cfg_risk cfg) as [rk|] eqn:R; [|reflexivity].
    destruct (Py.lt (daily_pnl _) _); [reflexivity|].
    unfold capacity_check.
    destruct (cfg_pairs cfg) as [pairs|] eqn:P; [|reflexivity].
    destruct H as [H|[H|H]]; discriminate.
Qed.

(** The daily loss lock: while the accumulated pnl is below the negated
    limit and the 24-hour window has not elapsed, every call answers false;
    once the window has elapsed the next call resets the pnl to 0 and
    restarts the window at the time of the call. *)
Theorem daily_loss_lock (cfg : Config) (rk : RiskCfg) (utcnow now : Q) (r : t)
        (snapshot : string + list PositionRisk) (s : string) (signal : Signal) :
  cfg_risk cfg = Some rk ->
  (Py.lt (daily_pnl r) (- get_or (max_daily_loss rk) 5) = true ->
   ~ one_day < utcnow - daily_start_time r ->
   can_trade cfg utcnow now r snapshot s signal = (r, false)) /\
  (one_day < utcnow - daily_start_time r ->
   daily_pnl (fst (can_trade cfg utcnow now r snapshot s signal)) = 0 /\
   daily_start_time (fst (can_trade cfg utcnow now r snapshot s signal)) = utcnow).
Proof.
  intros R. unfold can_trade, reset_daily_stats. split.
  - intros L W. destruct (Py.lt one_day _) eqn:D;
      [apply lt_true in D; contradiction|].
    f_equal. unfold verdict.
    destruct snapshot as [e|positions]; [reflexivity|].
    destruct (existing_pos s positions); [reflexivity|].
    destruct (cfg_strategy cfg) as [st|]; [|reflexivity].
    destruct (Py.lt _ (get_or (min_signal_strength st) _)); [reflexivity|].
    rewrite R, L. reflexivity.
  - intros W. apply lt_true in W. rewrite W. simpl. auto.
Qed.

Lemma daily_loss_lock_witness :
  can_trade (Fixture.config 5) 3600 5000
            (mk [] (-6) 0 []) (inr []) "BTCUSDT" (Fixture.signal_of (9 # 10) 1)
  = (mk [] (-6) 0 [], false) /\
  daily_pnl (fst (can_trade (Fixture.config 5) 90000 5000
                            (mk [] (-6) 0 []) (inr []) "BTCUSDT"
                            (Fixture.signal_of (9 # 10) 1))) = 0.
Proof.
  split.
  - apply (@daily_loss_lock (Fixture.config 5) (mkRiskCfg None) 3600 5000
             (mk [] (-6) 0 []) (inr []) "BTCUSDT" (Fixture.signal_of (9 # 10) 1)
             eq_refl); [reflexivity|].
    intros H. apply lt_true in H. discriminate H.
  - apply (@daily_loss_lock (Fixture.config 5) (mkRiskCfg None) 90000 5000
             (mk [] (-6) 0 []) (inr []) "BTCUSDT" (Fixture.signal_of (9 # 10) 1)
             eq_refl). reflexivity.
Defined.

(** Cooldown after a trade: once [update_trade_outcome] has recorded a
    trade of a symbol at time [t0], no call for that symbol made less than
    the cooldown after [t0] passes the cooldown check, so it is not let
    through below capacity. *)
Theorem cooldown_after_trade (cfg : Config) (st : StrategyCfg) (utcnow now t0 : Q)
        (r : t) (snapshot : string + list PositionRisk) (s : string) (signal : Signal)
        (pnl : Q) (strength : option Q) :
  cfg_strategy cfg = Some st ->
  now - t0 < get_or (trade_cooldown_sec st) 60 ->
  verdict cfg now (reset_daily_stats utcnow (update_trade_outcome s pnl strength t0 r))
          snapshot s signal <> Allowed.
Proof.
  intros S C H.
  destruct (allowed_passes_additional_checks _ _ _ _ _ _ H) as [_ [st' [S' N]]].
  rewrite S in S'. inversion S'; subst st'. apply N.
  rewrite reset_keeps_last_trade. simpl.
  now rewrite dict_get_set_same.
Qed.

Lemma cooldown_after_trade_witness :
  verdict (Fixture.config 5) 59
          (reset_daily_stats 59 (update_trade_outcome "BTCUSDT" 1 None 0 (mk [] 0 0 [])))
          (inr []) "BTCUSDT" (Fixture.signal_of (9 # 10) 1) <> Allowed /\
  verdict (Fixture.config 5) 59
          (reset_daily_stats 59 (update_trade_outcome "BTCUSDT" 1 None 0 (mk [] 0 0 [])))
          (inr []) "BTCUSDT" (Fixture.signal_of (9 # 10) 1) = Cooldown /\
  verdict (Fixture.config 5) 61
          (reset_daily_stats 61 (update_trade_outcome "BTCUSDT" 1 None 0 (mk [] 0 0 [])))
          (inr []) "BTCUSDT" (Fixture.signal_of (9 # 10) 1) = Allowed.
Proof.
  split; [|split; reflexivity].
  apply (@cooldown_after_trade (Fixture.config 5) (mkStrategyCfg None None) 59 59 0
           (mk [] 0 0 []) (inr []) "BTCUSDT" (Fixture.signal_of (9 # 10) 1) 1 None eq_refl).
  reflexivity.
Defined.

(** With the book full, the only way in is the displacement branch; and
    since that branch needs a tracked strength, a gate whose
    [position_strengths] is empty answers false for every signal. *)
Theorem full_book_needs_displacement (cfg : Config) (pairs : PairsCfg) (now : Q) (r : t)
        (positions : list PositionRisk) (s : string) (signal : Signal) :
  cfg_pairs cfg = Some pairs ->
  (get_or (max_concurrent_positions pairs) 5
   <= Z.of_nat (List.length (active_positions positions)))%Z ->
  verdict cfg now r (inr positions) s signal <> Allowed /\
  (position_strengths r = [] ->
   returns (verdict cfg now r (inr positions) s signal) = false).
Proof.
  intros P C. apply Z.leb_le in C. unfold verdict.
  destruct (existing_pos s positions); [split; [discriminate|reflexivity]|].
  destruct (cfg_strategy cfg) as [st|]; [|split; [discriminate|reflexivity]].
  destruct (Py.lt _ (get_or (min_signal_strength st) _));
    [split; [discriminate|reflexivity]|].
  destruct (cfg_risk cfg) as [rk|]; [|split; [discriminate|reflexivity]].
  destruct (Py.lt (daily_pnl r) _); [split; [discriminate|reflexivity]|].
  unfold capacity_check. rewrite P, C. split.
  - destruct (truthy_symbol _); [|discriminate]. destruct (Py.lt _ _); discriminate.
  - intros E. rewrite E. reflexivity.
Qed.

Lemma full_book_needs_displacement_witness :
  verdict (Fixture.config 1) 5000 (mk [] 0 0 []) (inr Fixture.one_open)
          "BTCUSDT" (Fixture.signal_of (9 # 10) 1) <> Allowed /\
  returns (verdict (Fixture.config 1) 5000 (mk [] 0 0 []) (inr Fixture.one_open)
                   "BTCUSDT" (Fixture.signal_of (9 # 10) 1)) = false.
Proof.
  assert ((get_or (max_concurrent_positions (mkPairsCfg (Some 1%Z))) 5
           <= Z.of_nat (List.length (active_positions Fixture.one_open)))%Z) as C
      by (apply Z.leb_le; reflexivity).
  destruct (@full_book_needs_displacement (Fixture.config 1) (mkPairsCfg (Some 1%Z))
              5000 (mk [] 0 0 []) Fixture.one_open "BTCUSDT"
              (Fixture.signal_of (9 # 10) 1) eq_refl C) as [A B].
  split; [exact A | apply B; reflexivity].
Defined.

Lemma weakest_fold (rest : list (string * Q)) :
  forall best,
    let w := fold_left (fun best y =>
                          if Py.lt (Py.abs (snd y)) (Py.abs (snd best)) then y else best)
                       rest best in
    (w = best \/ In w rest) /\
    Qabs (snd w) <= Qabs (snd best) /\
    (forall y, In y rest -> Qabs (snd w) <= Qabs (snd y)).
Proof.
  induction rest as [|x rest IH]; intros best; simpl.
  - split; [now left|]. split; [apply Qle_refl | intros y []].
  - destruct (Py.lt (Py.abs (snd x)) (Py.abs (snd best))) eqn:L.
    + apply lt_true in L. unfold Py.abs in L.
      destruct (IH x) as [O [B A]]. split; [|split].
      * destruct O as [->|O]; auto.
      * apply Qle_trans with (Qabs (snd x)); auto. now apply Qlt_le_weak.
      * intros y [<-|Hy]; auto.
    + apply lt_false in L. unfold Py.abs in L.
      destruct (IH best) as [O [B A]]. split; [|split].
      * destruct O as [->|O]; auto.
      * exact B.
      * intros y [<-|Hy]; auto. now apply Qle_trans with (Qabs (snd best)).
Qed.

(** The position picked for displacement is a weakest one: [weakest_item]
    is [None] only for an empty dict, and otherwise returns an item of the
    dict whose absolute strength is at most that of every item. *)
Theorem weakest_item_minimal (d : list (string * Q)) :
  match weakest_item d with
  | None => d = []
  | Some w => In w d /\ forall y, In y d -> Qabs (snd w) <= Qabs (snd y)
  end.
Proof.
  destruct d as [|x rest]; simpl; auto.
  destruct (weakest_fold rest x) as [O [B A]]. split.
  - destruct O as [->|O]; auto.
  - intros y [<-|Hy]; auto.
Qed.

End RiskMore.


(** * Further properties of the order manager *)

Module OrderMore.

Import OrderManager Trace OrderFacts.

(** *** The entry order *)

Definition is_entry (ev : Event) : bool :=
  match ev with
  | EvCreateOrder r => match req_type r with MARKET => true | _ => false end
  | _ => false
  end.

(** The number of market orders sent. *)
Definition market_requests (l : list Event) : nat := List.length (filter is_entry l).

Lemma market_requests_app (a b : list Event) :
  market_requests (a ++ b) = (market_requests a + market_requests b)%nat.
Proof. unfold market_requests. now rewrite filter_app, length_app. Qed.

Lemma contains_app (needle p e : string) :
  Py.contains needle e = true -> Py.contains needle (p ++ e) = true.
Proof.
  intros H. induction p as [|c p IH]; [exact H|].
  change (Py.contains needle (String c p ++ e))
    with (if String.prefix needle (String c (p ++ e)) then true
          else Py.contains needle (p ++ e)).
  rewrite IH. now destruct (String.prefix needle (String c (p ++ e))).
Qed.

Section Market.

Variable E : Type.
Variable client : Client E.

Lemma market_attempt_outcome (s : string) (sd : Side) (qty : Q) (w : World E)
      (r : string + Order) (w' : World E) :
  market_attempt client s sd qty w = (r, w') ->
  market_requests (log w') = (market_requests (log w) + 1)%nat /\
  (forall o, r = inr o -> Py.lt 0 (executedQty o) = true).
Proof.
  unfold market_attempt, bind, client_create_order, client_get_order, call, sleep,
    emit, ret, raise, record. simpl.
  destruct (create_order client _ (env w)) as [[e|o] e1]; simpl.
  - intros H. inversion H; subst; clear H. simpl.
    rewrite market_requests_app. split; [reflexivity | discriminate].
  - destruct (Py.lt 0 (executedQty o)) eqn:F; simpl.
    + intros H. inversion H; subst; clear H. simpl.
      rewrite market_requests_app. split; [reflexivity|].
      intros o' Ho. inversion Ho; subst. exact F.
    + destruct (get_order client s (orderId o) e1) as [[e|v] e2]; simpl.
      * intros H. inversion H; subst; clear H. simpl.
        rewrite !market_requests_app. split; [unfold market_requests; simpl; lia | discriminate].
      * destruct (Py.lt 0 (executedQty v)) eqn:G; simpl;
          intros H; inversion H; subst; clear H; simpl;
            rewrite !market_requests_app;
            (split; [unfold market_requests; simpl; lia|]).
        -- intros o' Ho. inversion Ho; subst. exact G.
        -- discriminate.
Qed.

Lemma market_loop_outcome (n : nat) :
  forall attempt s sd qty (w : World E) r w',
    (attempt + S n = 3)%nat ->
    market_loop client (S n) attempt s sd qty w = (r, w') ->
    (market_requests (log w') <= market_requests (log w) + S n)%nat /\
    match r with
    | inr (Some o) => Py.lt 0 (executedQty o) = true
    | inr None => False
    | inl e => exists e', e = ("Order failed after retries: " ++ e')%string
    end.
Proof.
  induction n as [|n IH]; intros attempt s sd qty w r w' A.
  - assert (attempt = 2%nat) as -> by lia. simpl.
    unfold try_except, bind.
    destruct (market_attempt client s sd qty w) as [[e|o] w1] eqn:M;
      apply market_attempt_outcome in M; destruct M as [C F];
        intros H; inversion H; subst; clear H.
    + split; [lia | now exists e].
    + split; [lia | now apply F].
  - assert (Nat.eqb attempt 2 = false) as N2 by (apply Nat.eqb_neq; lia).
    change (market_loop client (S (S n)) attempt s sd qty w)
      with (try_except
              (bind (market_attempt client s sd qty) (fun order => ret (Some order)))
              (fun e =>
                 if Nat.eqb attempt 2
                 then raise ("Order failed after retries: " ++ e)%string
                 else bind (sleep 1)
                           (fun _ => market_loop client (S n) (S attempt) s sd qty)) w).
    rewrite N2. unfold try_except, bind at 1 2.
    destruct (market_attempt client s sd qty w) as [[e|o] w1] eqn:M;
      apply market_attempt_outcome in M; destruct M as [C F].
    + unfold sleep, emit. intros H. apply IH in H; [|lia].
      destruct H as [B R]. split; [|exact R].
      unfold record in B. simpl log in B. rewrite market_requests_app in B.
      change (market_requests [EvSleep 1]) with 0%nat in B. lia.
    + intros H. inversion H; subst; clear H. split; [lia | now apply F].
Qed.

(** [_execute_market_order] sends at most 3 market orders; it returns only
    an order with a positive executed quantity and never returns without
    an order; and it raises only when the first attempt, the second and the
    third (each a pause after the one before) have all raised, and then the
    error is the third attempt's behind the prefix
    "Order failed after retries: ", in the world that attempt left. *)
Theorem execute_market_order_outcome (s : string) (sd : Side) (qty : Q) (w : World E) :
  (market_requests (log (snd (_execute_market_order client s sd qty w)))
   <= market_requests (log w) + 3)%nat /\
  match fst (_execute_market_order client s sd qty w) with
  | inr (Some o) => Py.lt 0 (executedQty o) = true
  | inr None => False
  | inl e =>
      exists e1 w1 e2 w2 e3 w3,
        market_attempt client s sd qty w = (inl e1, w1) /\
        market_attempt client s sd qty (record (EvSleep 1) w1) = (inl e2, w2) /\
        market_attempt client s sd qty (record (EvSleep 1) w2) = (inl e3, w3) /\
        e = ("Order failed after retries: " ++ e3)%string /\
        snd (_execute_market_order client s sd qty w) = w3
  end.
Proof.
  split.
  { destruct (_execute_market_order client s sd qty w) as [r w'] eqn:H.
    unfold _execute_market_order in H.
    apply (market_loop_outcome 2 0 s sd qty w) in H; [|reflexivity].
    apply H. }
  destruct (market_attempt client s sd qty w) as [[e1|o1] w1] eqn:A1.
  2:{ assert (_execute_market_order client s sd qty w = (inr (Some o1), w1)) as X.
      { unfold _execute_market_order. simpl market_loop.
        unfold try_except at 1. unfold bind at 1. rewrite A1. reflexivity. }
      rewrite X. simpl. apply market_attempt_outcome in A1. now apply A1. }
  destruct (market_attempt client s sd qty (record (EvSleep 1) w1))
    as [[e2|o2] w2] eqn:A2.
  2:{ assert (_execute_market_order client s sd qty w = (inr (Some o2), w2)) as X.
      { unfold _execute_market_order. simpl market_loop.
        unfold try_except at 1. unfold bind at 1. rewrite A1.
        change (Nat.eqb 0 2) with false. cbv iota.
        unfold bind at 1. unfold sleep at 1, emit at 1.
        unfold try_except at 1. unfold bind at 1. rewrite A2. reflexivity. }
      rewrite X. simpl. apply market_attempt_outcome in A2. now apply A2. }
  destruct (market_attempt client s sd qty (record (EvSleep 1) w2))
    as [[e3|o3] w3] eqn:A3.
  2:{ assert (_execute_market_order client s sd qty w = (inr (Some o3), w3)) as X.
      { unfold _execute_market_order. simpl market_loop.
        unfold try_except at 1. unfold bind at 1. rewrite A1.
        change (Nat.eqb 0 2) with false. cbv iota.
        unfold bind at 1. unfold sleep at 1, emit at 1.
        unfold try_except at 1. unfold bind at 1. rewrite A2.
        change (Nat.eqb 1 2) with false. cbv iota.
        unfold bind at 1. unfold sleep at 1, emit at 1.
        unfold try_except at 1. unfold bind at 1. rewrite A3. reflexivity. }
      rewrite X. simpl. apply market_attempt_outcome in A3. now apply A3. }
  assert (_execute_market_order client s sd qty w
          = (inl ("Order failed after retries: " ++ e3)%string, w3)) as X.
  { unfold _execute_market_order. simpl market_loop.
    unfold try_except at 1. unfold bind at 1. rewrite A1.
    change (Nat.eqb 0 2) with false. cbv iota.
    unfold bind at 1. unfold sleep at 1, emit at 1.
    unfold try_except at 1. unfold bind at 1. rewrite A2.
    change (Nat.eqb 1 2) with false. cbv iota.
    unfold bind at 1. unfold sleep at 1, emit at 1.
    unfold try_except at 1. unfold bind at 1. rewrite A3. reflexivity. }
  rewrite X. simpl. exists e1, w1, e2, w2, e3, w3. repeat split; auto.
Qed.

(** An entry order the exchange rejects three times with the trigger
    message is deferred like any other: the message survives the prefix
    that [_execute_market_order] puts before it, so [place_order] returns
    [None] in the world of the third rejection, without rollback. *)
Theorem entry_rejection_defers (signal : Signal) (w wa : World E)
        (e1 : string) (w1 : World E) (e2 : string) (w2 : World E)
        (e3 : string) (w3 : World E) :
  _check_existing_position client (sig_symbol signal) w = (inr tt, wa) ->
  market_attempt client (sig_symbol signal) (sig_signal signal) (sig_size signal) wa
  = (inl e1, w1) ->
  market_attempt client (sig_symbol signal) (sig_signal signal) (sig_size signal)
                 (record (EvSleep 1) w1) = (inl e2, w2) ->
  market_attempt client (sig_symbol signal) (sig_signal signal) (sig_size signal)
                 (record (EvSleep 1) w2) = (inl e3, w3) ->
  Py.contains "Order would immediately trigger" e3 = true ->
  place_order client signal w = (inr None, w3).
Proof.
  intros C A1 A2 A3 T.
  assert (place_order_body client signal w
          = (inl ("Order failed after retries: " ++ e3)%string, w3)) as B.
  { unfold place_order_body, entry_phase, _execute_market_order.
    unfold bind at 1. unfold bind at 1. rewrite C.
    unfold bind at 1. simpl market_loop.
    unfold try_except at 1. unfold bind at 1. rewrite A1.
    change (Nat.eqb 0 2) with false. cbv iota.
    unfold bind at 1. unfold sleep at 1, emit at 1.
    unfold try_except at 1. unfold bind at 1. rewrite A2.
    change (Nat.eqb 1 2) with false. cbv iota.
    unfold bind at 1. unfold sleep at 1, emit at 1.
    unfold try_except at 1. unfold bind at 1. rewrite A3.
    reflexivity. }
  rewrite (@place_order_on_error E client signal w _ w3 B).
  now rewrite (contains_app _ _ _ T).
Qed.

End Market.

Lemma entry_rejection_defers_witness :
  place_order (Fixture.scripted (Fixture.refusing Fixture.trigger_error))
              (Fixture.long_signal 99 [mkTP 102 50]) Fixture.fresh
  = (inr None,
     mkWorld tt
             [EvPositionRisk;
              EvCreateOrder (mkReq "BTCUSDT" BUY 2 MARKET None false); EvSleep 1;
              EvCreateOrder (mkReq "BTCUSDT" BUY 2 MARKET None false); EvSleep 1;
              EvCreateOrder (mkReq "BTCUSDT" BUY 2 MARKET None false)]
             PositionTracker.init [] None true).
Proof.
  pose (c := Fixture.scripted (Fixture.refusing Fixture.trigger_error)).
  pose (sg := Fixture.long_signal 99 [mkTP 102 50]).
  pose (wa := snd (_check_existing_position c "BTCUSDT" Fixture.fresh)).
  pose (w1 := snd (market_attempt c "BTCUSDT" BUY 2 wa)).
  pose (w2 := snd (market_attempt c "BTCUSDT" BUY 2 (record (EvSleep 1) w1))).
  pose (w3 := snd (market_attempt c "BTCUSDT" BUY 2 (record (EvSleep 1) w2))).
  exact (@entry_rejection_defers unit c sg Fixture.fresh wa
           Fixture.trigger_error w1 Fixture.trigger_error w2
           Fixture.trigger_error w3 eq_refl eq_refl eq_refl eq_refl eq_refl).
Defined.

(** *** The bracket orders *)

(** What bracket placement may send for a position of side [sd] on [s]:
    the price and precision queries, pauses, and reduce-only stop or
    take-profit orders on the symbol, on the side opposite to the
    position. *)
Definition protective (s : string) (sd : Side) (ev : Event) : Prop :=
  match ev with
  | EvCreateOrder r =>
      req_symbol r = s /\ req_side r = opposite sd /\ req_reduceOnly r = true /\
      req_type r <> MARKET /\ req_stopPrice r <> None
  | EvKlines s' | EvPrecision s' => s' = s
  | EvSleep _ => True
  | _ => False
  end.

Section Brackets.

Variable E : Type.
Variable client : Client E.

Lemma place_tps_protective (s : string) (sd : Side) (qty : Q) (prec : Z)
      (tps : list TakeProfit) :
  steps (quiet (protective s sd)) (place_tps client s sd qty prec tps).
Proof.
  induction tps as [|tp tps IH]; simpl.
  - walk.
  - unfold_client. walk; [|exact IH].
    simpl. repeat split; discriminate.
Qed.

Lemma retry_loop_protective (n : nat) :
  forall attempt max_retries s sd qty sl tps prec,
    steps (quiet (protective s sd))
          (retry_loop client n attempt max_retries s sd qty sl tps prec).
Proof.
  induction n as [|n IH]; intros; simpl.
  - walk.
  - unfold bracket_attempt. unfold_client.
    walk; try apply place_tps_protective; try apply IH; simpl; auto.
    repeat split; discriminate.
Qed.

(** Bracket placement sends nothing but protective orders: every order
    of [_place_sl_tp_orders], on every attempt, is a stop or take-profit
    order on the position's symbol, reduce-only, on the opposite side and
    with a stop price; it cancels nothing, sends no market order, and
    leaves the ledger alone. *)
Theorem brackets_are_protective (s : string) (sd : Side) (qty entry sl : Q)
        (tps : list TakeProfit) (w : World E) :
  logs (protective s sd) w (snd (_place_sl_tp_orders client s sd qty entry sl tps w)) /\
  tracker (snd (_place_sl_tp_orders client s sd qty entry sl tps w)) = tracker w.
Proof.
  destruct (_place_sl_tp_orders client s sd qty entry sl tps w) as [r w'] eqn:H.
  simpl. revert H. revert w r w'.
  change (steps (fun w w' => logs (protective s sd) w w' /\ tracker w' = tracker w)
                (_place_sl_tp_orders client s sd qty entry sl tps)).
  eapply steps_weaken with (R := quiet (protective s sd)).
  - intros w w' [L [T _]]. auto.
  - unfold _place_sl_tp_orders, _place_orders_with_retry. unfold_client.
    walk; try apply retry_loop_protective; simpl; auto.
Qed.

Lemma place_tps_log (s : string) (sd : Side) (qty : Q) (prec : Z) (tps : list TakeProfit) :
  forall (w w' : World E),
    place_tps client s sd qty prec tps w = (inr tt, w') ->
    log w' = log w ++ map (fun tp => EvCreateOrder (tp_request s sd qty prec tp)) tps.
Proof.
  induction tps as [|tp tps IH]; simpl; intros w w' H.
  - inversion H; subst. now rewrite app_nil_r.
  - unfold bind, client_create_order, call in H. simpl in H.
    destruct (create_order client _ (env w)) as [[e|o] e1]; [discriminate|].
    apply IH in H. rewrite H. simpl. now rewrite <- app_assoc.
Qed.

(** The retry loop for any number of retries: with [max_retries] at 0 it
    sends nothing and returns without raising; it never makes more than
    [max_retries] attempts; and when the first attempt goes through it
    returns [True] having sent the stop order and then one order per
    take-profit, in their order. *)
Theorem retry_loop_general (s : string) (sd : Side) (qty sl : Q) (tps : list TakeProfit)
        (prec : Z) (max_retries : nat) (w : World E) :
  _place_orders_with_retry client s sd qty sl tps prec 0 w = (inr None, w) /\
  (stop_requests (log (snd (_place_orders_with_retry client s sd qty sl tps prec
                                                      max_retries w)))
   <= stop_requests (log w) + max_retries)%nat /\
  (forall b w',
      bracket_attempt client s sd qty prec sl tps w = (inr b, w') ->
      _place_orders_with_retry client s sd qty sl tps prec (S max_retries) w
      = (inr (Some true), w') /\
      log w' = log w ++ EvCreateOrder (sl_request s sd qty prec sl)
                     :: map (fun tp => EvCreateOrder (tp_request s sd qty prec tp)) tps).
Proof.
  split; [reflexivity|]. split.
  - destruct (_place_orders_with_retry client s sd qty sl tps prec max_retries w)
      as [r w'] eqn:H.
    simpl. unfold _place_orders_with_retry in H. now apply retry_loop_bound in H.
  - intros b w' A.
    assert (b = true /\
            log w' = log w ++ EvCreateOrder (sl_request s sd qty prec sl)
                           :: map (fun tp => EvCreateOrder (tp_request s sd qty prec tp)) tps)
      as [-> L].
    { revert A. unfold bracket_attempt, bind, client_create_order, call. simpl.
      destruct (create_order client _ (env w)) as [[e|o] e1]; [discriminate|].
      match goal with
      | |- context [place_tps client s sd qty prec tps ?w1] =>
          destruct (place_tps client s sd qty prec tps w1) as [[e|[]] w2] eqn:T
      end; [discriminate|].
      intros A. inversion A; subst. split; auto.
      apply place_tps_log in T. rewrite T. simpl. now rewrite <- app_assoc. }
    split; [|exact L].
    unfold _place_orders_with_retry. simpl.
    unfold try_except, bind. rewrite A. reflexivity.
Qed.

End Brackets.

(** *** What [place_order] does to the ledger *)

Section LedgerEffect.

Variable E : Type.
Variable client : Client E.

Lemma place_order_after_error (signal : Signal) (w : World E) (e : string) (w' : World E) :
  place_order_body client signal w = (inl e, w') ->
  exists r w'',
    place_order client signal w = (r, w'') /\
    tracker w'' = tracker w' /\
    (r = inr None \/ r = inl e).
Proof.
  intros B. rewrite (@place_order_on_error E client signal w e w' B).
  destruct (Py.contains "Order would immediately trigger" e).
  - exists (inr None), w'. auto.
  - destruct (handle_failure_rolls_back client (sig_symbol signal) e w')
      as [w'' [evs [H [_ T]]]].
    exists (inl e), w''. unfold bind. rewrite H. auto.
Qed.

(** The position [_record_position] files for a signal and its filled order. *)
Definition recorded (signal : Signal) (order : Order) (avg : Q) (now : Z) : Position :=
  mkPosition (sig_symbol signal) (sig_signal signal) (executedQty order) avg None now
             (Some (sig_stop_loss signal)) (sig_take_profits signal) None.

(** [place_order] touches the ledger only when it returns an order: then
    the ledger is the old one with the new position added (dropped if the
    symbol was already tracked), holding the executed quantity and the
    stop-loss and take-profits of the signal as proposed, not the adjusted
    prices that were sent; when it defers or raises, the ledger is as it
    was. *)
Theorem place_order_ledger_effect (signal : Signal) (w : World E) :
  match fst (place_order client signal w) with
  | inr (Some order) =>
      Py.lt 0 (executedQty order) = true /\
      exists avg now,
        tracker (snd (place_order client signal w))
        = PositionTracker.add_position (recorded signal order avg now) (tracker w)
  | _ => tracker (snd (place_order client signal w)) = tracker w
  end.
Proof.
  destruct (entry_phase client signal w) as [[e|[order avg]] w1] eqn:EP.
  - assert (place_order_body client signal w = (inl e, w1)) as B.
    { unfold place_order_body. unfold bind at 1. now rewrite EP. }
    apply entry_phase_quiet in EP. destruct EP as [_ [T _]].
    destruct (place_order_after_error _ _ B) as [r [w'' [P [T' R]]]].
    rewrite P. simpl. destruct R as [->| ->]; congruence.
  - destruct (entry_phase_filled _ _ _ EP) as [F [_ T1]].
    destruct (_place_sl_tp_orders client (sig_symbol signal) (sig_signal signal)
                                  (executedQty order) avg (sig_stop_loss signal)
                                  (sig_take_profits signal) w1)
      as [[e|b] w2] eqn:BR.
    + assert (place_order_body client signal w = (inl e, w2)) as B.
      { unfold place_order_body. unfold bind at 1. rewrite EP.
        unfold bind at 1. simpl fst. simpl snd. now rewrite BR. }
      apply place_sl_tp_quiet in BR. destruct BR as [_ [T2 _]].
      destruct (place_order_after_error _ _ B) as [r [w'' [P [T' R]]]].
      rewrite P. simpl. destruct R as [->| ->]; congruence.
    + pose proof BR as Q2. apply place_sl_tp_quiet in Q2. destruct Q2 as [_ [T2 _]].
      assert (exists w3,
                 place_order client signal w = (inr (Some order), w3) /\
                 tracker w3
                 = PositionTracker.add_position
                     (recorded signal order avg (utcnow client (env w2))) (tracker w2))
        as [w3 [P T3]].
      { unfold place_order, try_except, place_order_body, bind.
        rewrite EP. cbn [fst snd]. rewrite BR.
        unfold _record_position, _send_trade_alert, get_world, set_tracker, bind,
          send_message, emit, ret, record. cbn [has_notifier tracker env log].
        destruct (has_notifier w2); eexists; (split; [reflexivity|]); reflexivity. }
      rewrite P. simpl. split; [exact F|].
      exists avg, (utcnow client (env w2)). congruence.
Qed.

(** *** The fill price *)

(** [_calculate_avg_fill_price] never raises.  With fills of positive
    total quantity it is their volume-weighted average, and with no usable
    fills and a positive [avgPrice] it is that field, in both cases without
    asking the exchange; otherwise it asks for the positions once and
    answers the entry price of the symbol's first entry when positive, and
    [None] when there is none, when it is not positive, or when the query
    raises. *)
Theorem avg_fill_price_tiers (order : Order) (w : World E) :
  (exists r w', _calculate_avg_fill_price client order w = (inr r, w')) /\
  (fills order <> [] -> Py.lt 0 (sum_Q (map fill_qty (fills order))) = true ->
   _calculate_avg_fill_price client order w
   = (inr (Some (sum_Q (map (fun f => fill_price f * fill_qty f) (fills order))
                 / sum_Q (map fill_qty (fills order)))), w)) /\
  (fills order = [] \/ Py.lt 0 (sum_Q (map fill_qty (fills order))) = false ->
   (forall ap, avgPrice order = Some ap -> Py.lt 0 ap = true ->
               _calculate_avg_fill_price client order w = (inr (Some ap), w)) /\
   ((avgPrice order = None \/ exists ap, avgPrice order = Some ap /\ Py.lt 0 ap = false) ->
    _calculate_avg_fill_price client order w
    = (inr match fst (get_position_risk client (env w)) with
           | inr positions =>
               match find (fun p => String.eqb (pr_symbol p) (ord_symbol order)) positions with
               | Some pos => if Py.lt 0 (entryPrice pos) then Some (entryPrice pos) else None
               | None => None
               end
           | inl _ => None
           end,
       mkWorld (snd (get_position_risk client (env w))) (log w ++ [EvPositionRisk])
               (tracker w) (active_orders w) (risk_manager w) (has_notifier w)))).
Proof.
  assert (try_except (position_entry_price client order) (fun _ => ret None) w
            = (inr match fst (get_position_risk client (env w)) with
                   | inr positions =>
                       match find (fun p => String.eqb (pr_symbol p) (ord_symbol order))
                                  positions with
                       | Some pos => if Py.lt 0 (entryPrice pos)
                                     then Some (entryPrice pos) else None
                       | None => None
                       end
                   | inl _ => None
                   end,
               mkWorld (snd (get_position_risk client (env w))) (log w ++ [EvPositionRisk])
                       (tracker w) (active_orders w) (risk_manager w) (has_notifier w)))
    as T3.
  { unfold try_except, position_entry_price, bind,
      client_get_position_risk, call, ret, record. simpl.
    destruct (get_position_risk client (env w)) as [[e|positions] e1]; simpl; auto.
    destruct (find _ positions) as [pos|]; auto.
    destruct (Py.lt 0 (entryPrice pos)); auto. }
  assert (try_except (avg_price_field client order) (fun _ => ret None) w
          = match avgPrice order with
            | Some ap => if Py.lt 0 ap then (inr (Some ap), w)
                         else try_except (position_entry_price client order)
                                         (fun _ => ret None) w
            | None => try_except (position_entry_price client order) (fun _ => ret None) w
            end) as Tier2.
  { unfold avg_price_field. destruct (avgPrice order) as [ap|]; auto.
    destruct (Py.lt 0 ap); auto. }
  assert (_calculate_avg_fill_price client order w
          = match fills order with
            | [] => try_except (avg_price_field client order) (fun _ => ret None) w
            | _ :: _ =>
                if Py.lt 0 (sum_Q (map fill_qty (fills order)))
                then (inr (Some (sum_Q (map (fun f => fill_price f * fill_qty f)
                                            (fills order))
                                 / sum_Q (map fill_qty (fills order)))), w)
                else try_except (avg_price_field client order) (fun _ => ret None) w
            end) as Tier1.
  { unfold _calculate_avg_fill_price. destruct (fills order) as [|f fs]; auto.
    unfold try_except at 1. destruct (Py.lt 0 _); auto. }
  split; [|split].
  - rewrite Tier1. destruct (fills order) as [|f fs].
    + rewrite Tier2. destruct (avgPrice order) as [ap|];
        [destruct (Py.lt 0 ap)|]; rewrite ?T3; eauto.
    + destruct (Py.lt 0 _); eauto. rewrite Tier2.
      destruct (avgPrice order) as [ap|];
        [destruct (Py.lt 0 ap)|]; rewrite ?T3; eauto.
  - intros NE POS. rewrite Tier1. destruct (fills order) as [|f fs]; [congruence|].
    now rewrite POS.
  - intros NF. assert (_calculate_avg_fill_price client order w
                       = try_except (avg_price_field client order) (fun _ => ret None) w)
      as Skip.
    { rewrite Tier1. destruct (fills order) as [|f fs]; auto.
      destruct NF as [NF|NF]; [discriminate | now rewrite NF]. }
    rewrite Skip, Tier2. split.
    + intros ap A POS. now rewrite A, POS.
    + intros [A|[ap [A NEG]]]; rewrite A; [|rewrite NEG]; exact T3.
Qed.

End LedgerEffect.

(** *** Closing a position, and what comes after *)

Section CloseOutcomes.

Variable E : Type.
Variable client : Client E.

(** With a notifier, [close_position] never raises.  It returns an order
    only for a tracked position, and then the order is the one the exchange
    answered the close request with, and the ledger has moved the position
    to the closed history with the price the exchange quoted before the
    order, the given reason, the side-aware pnl at that price and the time
    of the clock after the order; when it returns [None] the ledger is as
    it was, so the position is still open for the next attempt. *)
Theorem close_position_outcomes (s reason : string) (w : World E) :
  has_notifier w = true ->
  exists r w',
    close_position client s reason w = (inr r, w') /\
    match r with
    | None => tracker w' = tracker w
    | Some o =>
        exists position price e1 e2,
          PositionTracker.get_position s (tracker w) = Some position /\
          last_close client s (env w) = (inr price, e1) /\
          create_order client (close_request s position) e1 = (inr o, e2) /\
          tracker w'
          = PositionTracker.close_position s price reason
                                           (_calculate_pnl position price)
                                           (utcnow client e2) (tracker w) /\
          PositionTracker.get_position s (tracker w') = None /\
          PositionTracker.get_closed_positions (tracker w')
          = (PositionTracker.get_closed_positions (tracker w)
             ++ [PositionTracker.with_exit
                   position
                   (mkExit price (utcnow client e2) reason
                           (_calculate_pnl position price))])%list
    end.
Proof.
  intros N.
  unfold close_position, try_except, bind, get_world, client_last_close,
    client_create_order, call, after_close, send_alert, send_message, emit, ret,
    raise, set_risk_manager, set_tracker, set_active_orders, get_world, record.
  simpl.
  destruct (PositionTracker.get_position s (tracker w)) as [position|] eqn:G; simpl.
  2:{ exists None, w. auto. }
  destruct (last_close client s (env w)) as [[e|price] e1] eqn:K; simpl.
  { rewrite N. simpl. eexists None, _. split; [reflexivity|]. reflexivity. }
  destruct (create_order client (close_request s position) e1) as [[e|o] e2] eqn:C; simpl.
  { rewrite N. simpl. eexists None, _. split; [reflexivity|]. reflexivity. }
  destruct (risk_manager w) as [rm|]; simpl.
  - rewrite N. simpl. eexists (Some o), _. split; [reflexivity|]. simpl.
    exists position, price, e1, e2. split; [reflexivity|].
    split; [reflexivity|]. split; [exact C|]. split; [reflexivity|].
    split.
    + rewrite LedgerFacts.get_close. now rewrite String.eqb_refl.
    + unfold PositionTracker.get_closed_positions, PositionTracker.close_position.
      rewrite G. reflexivity.
  - rewrite N. simpl. eexists None, _. split; [reflexivity|]. reflexivity.
Qed.

(** Without a [risk_manager] attribute on the manager, closing a tracked
    position sends the market order and then fails on the attribute: the
    failure is notified, [None] is returned and the position stays in the
    ledger although the exchange was asked to close it. *)
Theorem close_without_risk_manager (s reason : string) (w : World E)
        (position : Position) (price : Q) (e1 : E) (o : Order) (e2 : E) :
  risk_manager w = None ->
  has_notifier w = true ->
  PositionTracker.get_position s (tracker w) = Some position ->
  last_close client s (env w) = (inr price, e1) ->
  create_order client (close_request s position) e1 = (inr o, e2) ->
  close_position client s reason w
  = (inr None,
     mkWorld e2
             (log w ++ [EvKlines s; EvCreateOrder (close_request s position);
                        EvNotify (CloseFailed
                                    s "'OrderManager' object has no attribute 'risk_manager'")])
             (tracker w) (active_orders w) None true).
Proof.
  intros R N G K C.
  unfold close_position, try_except, bind, get_world, client_last_close,
    client_create_order, call, after_close, send_alert, send_message, emit, ret,
    raise, set_risk_manager, set_tracker, set_active_orders, get_world, record.
  simpl. rewrite G. simpl. rewrite K. simpl. rewrite C. simpl. rewrite R. simpl.
  rewrite N. simpl. rewrite <- !app_assoc. reflexivity.
Qed.

End CloseOutcomes.

Lemma close_position_outcomes_witness :
  exists r w',
    close_position (Fixture.scripted (Fixture.quoting 90)) "X" "stop_loss"
                   (Fixture.holding (Fixture.short_position "X" 100 2))
    = (inr r, w') /\
    match r with
    | None => tracker w' = tracker (Fixture.holding (Fixture.short_position "X" 100 2))
    | Some o =>
        exists position price e1 e2,
          PositionTracker.get_position
            "X" (tracker (Fixture.holding (Fixture.short_position "X" 100 2)))
          = Some position /\
          last_close (Fixture.scripted (Fixture.quoting 90)) "X"
                     (env (Fixture.holding (Fixture.short_position "X" 100 2)))
          = (inr price, e1) /\
          create_order (Fixture.scripted (Fixture.quoting 90))
                       (close_request "X" position) e1 = (inr o, e2) /\
          tracker w'
          = PositionTracker.close_position
              "X" price "stop_loss" (_calculate_pnl position price)
              (utcnow (Fixture.scripted (Fixture.quoting 90)) e2)
              (tracker (Fixture.holding (Fixture.short_position "X" 100 2))) /\
          PositionTracker.get_position "X" (tracker w') = None /\
          PositionTracker.get_closed_positions (tracker w')
          = (PositionTracker.get_closed_positions
               (tracker (Fixture.holding (Fixture.short_position "X" 100 2)))
             ++ [PositionTracker.with_exit
                   position
                   (mkExit price (utcnow (Fixture.scripted (Fixture.quoting 90)) e2)
                           "stop_loss" (_calculate_pnl position price))])%list
    end.
Proof.
  apply close_position_outcomes. reflexivity.
Defined.

Lemma close_without_risk_manager_witness :
  close_position (Fixture.scripted (Fixture.quoting 110)) "X" "manual"
                 (mkWorld tt [] (PositionTracker.add_position
                                   (Fixture.long_position "X" 100 2) PositionTracker.init)
                          [] None true)
  = (inr None,
     mkWorld tt
             [EvKlines "X"; EvCreateOrder (mkReq "X" SELL 2 MARKET None false);
              EvNotify (CloseFailed
                          "X" "'OrderManager' object has no attribute 'risk_manager'")]
             (PositionTracker.add_position
                (Fixture.long_position "X" 100 2) PositionTracker.init)
             [] None true).
Proof.
  exact (@close_without_risk_manager unit (Fixture.scripted (Fixture.quoting 110))
           "X" "manual"
           (mkWorld tt [] (PositionTracker.add_position
                             (Fixture.long_position "X" 100 2) PositionTracker.init)
                    [] None true)
           (Fixture.long_position "X" 100 2) 110 tt (Fixture.filled "X" 2 110) tt
           eq_refl eq_refl eq_refl eq_refl eq_refl).
Defined.


(** *** Trailing stops *)

Lemma get_set_stop (s : string) (q : Q) (l : PositionTracker.t) :
  PositionTracker.get_position s (PositionTracker.set_stop_loss s q l)
  = option_map (fun p => mkPosition (symbol p) (side p) (quantity p) (entry_price p)
                                    (leverage p) (entry_time p) (Some q)
                                    (take_profits p) (exit_info p))
               (PositionTracker.get_position s l).
Proof.
  unfold PositionTracker.get_position, PositionTracker.set_stop_loss. simpl.
  induction (PositionTracker.positions l) as [|kp d IH]; simpl; auto.
  destruct (String.eqb (fst kp) s) eqn:K; simpl; rewrite K; auto.
Qed.

Section Trailing.

Variable E : Type.
Variable client : Client E.

(** [apply_trailing_stop] only ratchets: when it returns for a tracked
    position with a stop-loss, it has asked for the price and nothing
    else, the stop of a long position has not gone down and the stop of a
    short position has not gone up, and the side, quantity, entry price and
    take-profits of the position and the closed history are as they were. *)
Theorem trailing_stop_ratchets (s : string) (activation trail : Q) (w w' : World E)
        (p : Position) (old : Q) :
  PositionTracker.get_position s (tracker w) = Some p ->
  stop_loss p = Some old ->
  apply_trailing_stop client s activation trail w = (inr tt, w') ->
  exists p' new,
    PositionTracker.get_position s (tracker w') = Some p' /\
    stop_loss p' = Some new /\
    match side p with BUY => old <= new | SELL => new <= old end /\
    side p' = side p /\ quantity p' = quantity p /\ entry_price p' = entry_price p /\
    take_profits p' = take_profits p /\
    PositionTracker.closed_positions (tracker w')
    = PositionTracker.closed_positions (tracker w) /\
    log w' = log w ++ [EvKlines s].
Proof.
  intros G S.
  unfold apply_trailing_stop, bind, get_world, client_last_close, call, move_stop,
    set_tracker, get_world, ret, raise, record. simpl. rewrite G. simpl.
  destruct (last_close client s (env w)) as [[e|price] e1]; simpl; [discriminate|].
  destruct (Py.eq (entry_price p) 0); simpl; [discriminate|].
  destruct (side p) eqn:SD; simpl.
  - destruct (Py.le activation _); simpl.
    + rewrite S. destruct (Py.lt old (price * (1 - trail))) eqn:L; simpl;
        intros H; inversion H; subst; clear H; simpl.
      * rewrite get_set_stop, G. simpl. eexists _, _. split; [reflexivity|]. simpl.
        split; [reflexivity|]. apply RiskFacts.lt_true in L.
        repeat split; auto. now apply Qlt_le_weak.
      * exists p, old. rewrite SD. repeat split; auto. apply Qle_refl.
    + intros H; inversion H; subst; clear H; simpl.
      exists p, old. rewrite SD. repeat split; auto. apply Qle_refl.
  - destruct (Py.le activation _); simpl.
    + rewrite S. destruct (Py.lt (price * (1 + trail)) old) eqn:L; simpl;
        intros H; inversion H; subst; clear H; simpl.
      * rewrite get_set_stop, G. simpl. eexists _, _. split; [reflexivity|]. simpl.
        split; [reflexivity|]. apply RiskFacts.lt_true in L.
        repeat split; auto. now apply Qlt_le_weak.
      * exists p, old. rewrite SD. repeat split; auto. apply Qle_refl.
    + intros H; inversion H; subst; clear H; simpl.
      exists p, old. rewrite SD. repeat split; auto. apply Qle_refl.
Qed.

End Trailing.

Lemma trailing_stop_ratchets_witness :
  exists p' new,
    PositionTracker.get_position
      "X" (tracker (snd (apply_trailing_stop (Fixture.scripted (Fixture.quoting 110))
                                             "X" (5 # 100) (2 # 100)
                                             (Fixture.holding
                                                (Fixture.long_position "X" 100 2)))))
    = Some p' /\
    stop_loss p' = Some new /\ 99 <= new.
Proof.
  destruct (@trailing_stop_ratchets unit (Fixture.scripted (Fixture.quoting 110))
              "X" (5 # 100) (2 # 100)
              (Fixture.holding (Fixture.long_position "X" 100 2))
              (snd (apply_trailing_stop (Fixture.scripted (Fixture.quoting 110))
                                        "X" (5 # 100) (2 # 100)
                                        (Fixture.holding
                                           (Fixture.long_position "X" 100 2))))
              (Fixture.long_position "X" 100 2) (100 - 1) eq_refl eq_refl eq_refl)
    as [p' [new [G [S [R _]]]]].
  exists p', new. split; [exact G|]. split; [exact S|].
  simpl in R. apply Qle_trans with (100 - 1); [|exact R].
  apply Qle_bool_iff. reflexivity.
Defined.

(** *** Closing every position *)

(** What [close_all_positions] may send: the position query, reduce-only
    market orders, cancellations. *)
Definition shutdown_event (ev : Event) : Prop :=
  match ev with
  | EvPositionRisk | EvCancelAll _ => True
  | EvCreateOrder r => req_type r = MARKET /\ req_reduceOnly r = true
  | _ => False
  end.

Definition live (p : PositionRisk) : bool := negb (Py.eq (positionAmt p) 0).

Section CloseAll.

Variable E : Type.
Variable client : Client E.

Lemma close_one_logs (position : PositionRisk) (results : list Order) :
  steps (logs shutdown_event) (close_one client position results).
Proof.
  unfold close_one, record_shutdown. unfold_client.
  walk; simpl; auto.
Qed.

Lemma close_one_returns (position : PositionRisk) (results : list Order) (w : World E) :
  exists results' w',
    close_one client position results w = (inr results', w') /\
    (List.length results'
     <= List.length results + (if live position then 1 else 0))%nat /\
    (live position = true ->
     sent (EvCreateOrder (flatten_request (pr_symbol position) position)) w w').
Proof.
  unfold close_one, live, record_shutdown, try_except, bind, get_world,
    client_create_order, client_cancel_all_orders, call, set_tracker, ret, record, sent.
  destruct (Py.eq (positionAmt position) 0); simpl.
  { exists results, w. repeat split; [lia | discriminate]. }
  destruct (create_order client _ (env w)) as [[e|o] e1]; simpl.
  { eexists _, _. split; [reflexivity|]. simpl. split; [lia|].
    intros _. exists []. reflexivity. }
  destruct (cancel_all_orders client _ e1) as [[e|[]] e2]; simpl.
  { eexists _, _. split; [reflexivity|]. simpl. rewrite length_app. simpl.
    split; [lia|]. intros _. rewrite <- app_assoc. eexists. reflexivity. }
  destruct (PositionTracker.get_position _ (tracker w)); simpl;
    eexists _, _; (split; [reflexivity|]); simpl; rewrite length_app; simpl;
      (split; [lia|]); intros _; rewrite <- app_assoc; eexists; reflexivity.
Qed.

Lemma close_each_returns (positions : list PositionRisk) :
  forall (results : list Order) (w : World E),
  exists results' w',
    close_each client positions results w = (inr results', w') /\
    (List.length results'
     <= List.length results + List.length (filter live positions))%nat /\
    logs shutdown_event w w' /\
    (forall position,
        In position positions -> live position = true ->
        In (EvCreateOrder (flatten_request (pr_symbol position) position)) (log w')).
Proof.
  induction positions as [|p rest IH]; intros results w; simpl.
  - exists results, w. repeat split; [lia | apply logs_refl | intros ? []].
  - destruct (close_one_returns p results w) as [r1 [w1 [C1 [L1 S1]]]].
    destruct (IH r1 w1) as [r2 [w2 [C2 [L2 [G2 S2]]]]].
    exists r2, w2. unfold bind. rewrite C1. split; [exact C2|]. split; [|split].
    + destruct (live p); simpl; lia.
    + eapply logs_trans; [|exact G2]. eapply close_one_logs. exact C1.
    + intros position [<-|Hin] Lv; [|now apply S2].
      destruct (S1 Lv) as [evs L]. destruct G2 as [evs' [L' _]].
      rewrite L', L. apply in_or_app. left. apply in_or_app. right. now left.
Qed.

(** [close_all_positions] isolates the symbols: once the exchange has
    answered the position query it never raises, and whatever happens to
    one symbol, every position with a nonzero amount gets its reduce-only
    market order; there is at most one result per such position, and
    nothing is sent but the query, reduce-only market orders and
    cancellations.  When the query itself raises, the error is passed on
    and nothing is sent. *)
Theorem close_all_isolates (w : World E) :
  (forall positions e1,
      get_position_risk client (env w) = (inr positions, e1) ->
      exists results w',
        close_all_positions client w = (inr results, w') /\
        (List.length results <= List.length (filter live positions))%nat /\
        logs shutdown_event w w' /\
        (forall position,
            In position positions -> live position = true ->
            In (EvCreateOrder (flatten_request (pr_symbol position) position)) (log w'))) /\
  (forall e e1,
      get_position_risk client (env w) = (inl e, e1) ->
      exists w',
        close_all_positions client w = (inl e, w') /\
        log w' = log w ++ [EvPositionRisk] /\ tracker w' = tracker w).
Proof.
  split.
  - intros positions e1 K.
    unfold close_all_positions, try_except, bind at 1, client_get_position_risk, call.
    simpl. rewrite K.
    match goal with
    | |- context [close_each client positions [] ?w1] =>
        destruct (close_each_returns positions [] w1) as [r [w' [C [L [G S]]]]]
    end.
    exists r, w'. rewrite C. split; [reflexivity|]. split; [exact L|]. split; [|exact S].
    eapply logs_trans; [|exact G]. exists [EvPositionRisk]. simpl. split; auto.
    constructor; simpl; auto.
  - intros e e1 K.
    unfold close_all_positions, try_except, bind at 1, client_get_position_risk, call,
      raise. simpl. rewrite K. eexists. split; [reflexivity|]. simpl. auto.
Qed.

End CloseAll.

Lemma close_all_isolates_witness :
  fst (close_all_positions (Fixture.scripted Fixture.exposed) Fixture.fresh) = inr [] /\
  In (EvCreateOrder (mkReq "X" SELL 3 MARKET None true))
     (log (snd (close_all_positions (Fixture.scripted Fixture.exposed) Fixture.fresh))) /\
  In (EvCreateOrder (mkReq "Z" BUY 2 MARKET None true))
     (log (snd (close_all_positions (Fixture.scripted Fixture.exposed) Fixture.fresh))).
Proof.
  destruct (@close_all_isolates unit (Fixture.scripted Fixture.exposed) Fixture.fresh)
    as [H _].
  destruct (H (Fixture.sc_positions Fixture.exposed) tt eq_refl)
    as [results [w' [C [L [_ S]]]]].
  split; [reflexivity|]. rewrite C. simpl snd. split.
  - apply (S (mkPR "X" 3 100 101 10 3)); [simpl; auto | reflexivity].
  - apply (S (mkPR "Z" (-2) 70 69 10 2)); [simpl; auto | reflexivity].
Defined.

(** *** The position monitor *)

Lemma le_true (a b : Q) : Py.le a b = true <-> a <= b.
Proof. unfold Py.le. apply Qle_bool_iff. Qed.

(** The hit tests of [check_positions], as propositions. *)
Definition stop_hit (position : Position) (sl price : Q) : Prop :=
  match side position with BUY => price <= sl | SELL => sl <= price end.

Definition target_hit (position : Position) (price : Q) (tp : TakeProfit) : Prop :=
  match side position with BUY => tp_price tp <= price | SELL => price <= tp_price tp end.

(** What [decide] answers for a position with a stop-loss, by the hit
    tests. *)
Lemma decide_cases (position : Position) (sl price : Q) :
  stop_loss position = Some sl ->
  (PositionMonitor.decide position price = PositionMonitor.Close "stop_loss"
   <-> stop_hit position sl price) /\
  (PositionMonitor.decide position price = PositionMonitor.Close "take_profit"
   <-> ~ stop_hit position sl price /\
       exists tp, In tp (take_profits position) /\ target_hit position price tp) /\
  (PositionMonitor.decide position price = PositionMonitor.Hold
   <-> ~ stop_hit position sl price /\
       forall tp, In tp (take_profits position) -> ~ target_hit position price tp).
Proof.
  intros S. unfold PositionMonitor.decide, stop_hit, target_hit. rewrite S.
  assert ((match side position with
           | BUY => Py.le price sl
           | SELL => Py.le sl price
           end) = true
          <-> match side position with BUY => price <= sl | SELL => sl <= price end) as HS.
  { destruct (side position); apply le_true. }
  assert (PositionMonitor.take_profit_hit (side position) price (take_profits position)
          = true
          <-> exists tp, In tp (take_profits position) /\
                         match side position with
                         | BUY => tp_price tp <= price
                         | SELL => price <= tp_price tp
                         end) as HT.
  { unfold PositionMonitor.take_profit_hit. rewrite existsb_exists.
    split; intros [tp [Hin H]]; exists tp; (split; [exact Hin|]);
      destruct (side position); apply le_true; exact H. }
  destruct (match side position with
            | BUY => Py.le price sl
            | SELL => Py.le sl price
            end) eqn:B.
  - assert (match side position with BUY => price <= sl | SELL => sl <= price end) as Hit
        by (now apply HS).
    split; [|split].
    + split; auto.
    + split; [discriminate | intros [N _]; contradiction].
    + split; [discriminate | intros [N _]; contradiction].
  - assert (~ match side position with BUY => price <= sl | SELL => sl <= price end) as Miss.
    { intros H. apply HS in H. discriminate. }
    destruct (PositionMonitor.take_profit_hit (side position) price
                                              (take_profits position)) eqn:T.
    + assert (exists tp, In tp (take_profits position) /\
                         match side position with
                         | BUY => tp_price tp <= price
                         | SELL => price <= tp_price tp
                         end) as Ex by (now apply HT).
      split; [|split].
      * split; [discriminate | intros H; contradiction].
      * split; auto.
      * split; [discriminate|]. intros [_ A]. destruct Ex as [tp [Hin H]].
        exfalso. now apply (A tp Hin).
    + assert (forall tp, In tp (take_profits position) ->
                         ~ match side position with
                           | BUY => tp_price tp <= price
                           | SELL => price <= tp_price tp
                           end) as No.
      { intros tp Hin H. assert (false = true); [|discriminate].
        apply HT. eauto. }
      split; [|split].
      * split; [discriminate | intros H; contradiction].
      * split; [discriminate|]. intros [_ [tp [Hin H]]]. exfalso. now apply (No tp Hin).
      * split; auto.
Qed.

(** An event that is no order on the symbol [s]. *)
Definition spares (s : string) (ev : Event) : Prop :=
  match ev with
  | EvCreateOrder r => req_symbol r <> s
  | _ => True
  end.

Lemma find_unique_key (d : list (string * Position)) (k : string) (v : Position) :
  NoDup (map fst d) -> In (k, v) d ->
  find (fun kp => String.eqb (fst kp) k) d = Some (k, v).
Proof.
  induction d as [|[k0 v0] d IH]; simpl; intros N H; [contradiction|].
  inversion N as [|? ? Hn Nd]; subst.
  destruct H as [H|H].
  - inversion H; subst. now rewrite String.eqb_refl.
  - destruct (String.eqb k0 k) eqn:K.
    + apply String.eqb_eq in K. subst. exfalso. apply Hn.
      change k with (fst (k, v)). now apply in_map.
    + now apply IH.
Qed.

(** In a ledger with distinct keys, each position under its own symbol, an
    open position is what a lookup of its symbol returns. *)
Lemma open_position_found (l : PositionTracker.t) (p : Position) :
  Ledger.wf l -> In p (PositionTracker.get_all_positions l) ->
  PositionTracker.get_position (symbol p) l = Some p.
Proof.
  intros [N F] H. unfold PositionTracker.get_all_positions in H.
  apply in_map_iff in H. destruct H as [[k v] [Hv Hin]]. simpl in Hv. subst v.
  assert (symbol p = k) as K.
  { rewrite Forall_forall in F. exact (F _ Hin). }
  subst k. unfold PositionTracker.get_position.
  now rewrite (@find_unique_key _ _ _ N Hin).
Qed.

Section Monitor.

Variable E : Type.
Variable client : Client E.

Lemma close_position_logs (s reason : string) :
  steps (logs (fun _ => True)) (close_position client s reason).
Proof.
  unfold close_position, after_close, send_alert. unfold_client.
  walk; simpl; auto.
Qed.

Lemma check_one_sends (position : Position) :
  steps (sent (EvKlines (symbol position))) (PositionMonitor.check_one client position).
Proof.
  unfold PositionMonitor.check_one, client_last_close.
  apply sent_bind with (P := fun _ => True); [apply sent_call|].
  intros price. destruct (PositionMonitor.decide position price); walk.
  apply close_position_logs.
Qed.

Lemma check_each_polls (positions : list Position) :
  forall w : World E,
  exists w',
    PositionMonitor.check_each client positions w = (inr tt, w') /\
    logs (fun _ => True) w w' /\
    forall p, In p positions -> In (EvKlines (symbol p)) (log w').
Proof.
  induction positions as [|p rest IH]; intros w; simpl.
  - exists w. repeat split; [apply logs_refl | intros ? []].
  - unfold bind, try_except.
    destruct (PositionMonitor.check_one client p w) as [[e|[]] w1] eqn:C;
      pose proof C as S; apply check_one_sends in S; destruct S as [evs L];
        unfold ret; destruct (IH w1) as [w' [R [G A]]];
          exists w'; (split; [exact R|]); (split;
            [eapply logs_trans; [|exact G]; exists (EvKlines (symbol p) :: evs);
             split; [exact L | apply Forall_forall; auto]|]);
            intros q [<-|Hin]; auto;
              destruct G as [evs' [L' _]]; rewrite L', L;
                apply in_or_app; left; apply in_or_app; right; now left.
Qed.

(** One pass of the monitor never raises and asks for the price of every
    open position, whatever went wrong with the positions before it. *)
Theorem monitor_polls_every_position (w : World E) :
  exists w',
    PositionMonitor.check_positions client w = (inr tt, w') /\
    forall p, In p (PositionTracker.get_all_positions (tracker w)) ->
              In (EvKlines (symbol p)) (log w').
Proof.
  unfold PositionMonitor.check_positions, bind, get_world.
  destruct (check_each_polls (PositionTracker.get_all_positions (tracker w)) w)
    as [w' [R [_ A]]].
  exists w'. auto.
Qed.

(** The loop goes on with the next position in the world the [try] of the
    position before left, whether it returned or raised. *)
Lemma check_each_cons (position : Position) (rest : list Position) (w : World E) :
  PositionMonitor.check_each client (position :: rest) w
  = PositionMonitor.check_each client rest
      (snd (PositionMonitor.check_one client position w)).
Proof.
  simpl. unfold bind, try_except.
  destruct (PositionMonitor.check_one client position w) as [[e|[]] w1]; reflexivity.
Qed.

(** The world [check_one] leaves once the price is known. *)
Lemma check_one_priced (position : Position) (price : Q) (w : World E) :
  fst (client_last_close client (symbol position) w) = inr price ->
  snd (PositionMonitor.check_one client position w)
  = match PositionMonitor.decide position price with
    | PositionMonitor.Close reason =>
        snd (close_position client (symbol position) reason
                            (snd (client_last_close client (symbol position) w)))
    | _ => snd (client_last_close client (symbol position) w)
    end.
Proof.
  intros K. unfold PositionMonitor.check_one. unfold bind at 1.
  destruct (client_last_close client (symbol position) w) as [r w1].
  simpl in K. subst r. simpl snd.
  destruct (PositionMonitor.decide position price) as [reason| |].
  - unfold bind.
    destruct (close_position client (symbol position) reason w1) as [[e|o] w2];
      reflexivity.
  - reflexivity.
  - reflexivity.
Qed.

(** The stop-loss is checked before the take-profits.  For a position with
    a stop-loss, once the exchange has answered the price: when the price
    has reached the stop the pass calls [close_position] with reason
    "stop_loss"; when it has not but has reached some take-profit, with
    reason "take_profit"; otherwise it does nothing more for the position.
    In each case the loop goes on with the remaining positions in the world
    that was left, whatever [close_position] returned or raised. *)
Theorem stop_loss_checked_first (position : Position) (rest : list Position)
        (sl price : Q) (w : World E) :
  stop_loss position = Some sl ->
  fst (client_last_close client (symbol position) w) = inr price ->
  (stop_hit position sl price ->
   PositionMonitor.check_each client (position :: rest) w
   = PositionMonitor.check_each client rest
       (snd (close_position client (symbol position) "stop_loss"
                            (snd (client_last_close client (symbol position) w))))) /\
  (~ stop_hit position sl price ->
   (exists tp, In tp (take_profits position) /\ target_hit position price tp) ->
   PositionMonitor.check_each client (position :: rest) w
   = PositionMonitor.check_each client rest
       (snd (close_position client (symbol position) "take_profit"
                            (snd (client_last_close client (symbol position) w))))) /\
  (~ stop_hit position sl price ->
   (forall tp, In tp (take_profits position) -> ~ target_hit position price tp) ->
   PositionMonitor.check_each client (position :: rest) w
   = PositionMonitor.check_each client rest
       (snd (client_last_close client (symbol position) w))).
Proof.
  intros S K. destruct (decide_cases position price S) as [D1 [D2 D3]].
  rewrite check_each_cons, (check_one_priced position w K).
  split; [|split].
  - intros H. apply D1 in H. now rewrite H.
  - intros N T. assert (PositionMonitor.decide position price
                        = PositionMonitor.Close "take_profit") as H by (apply D2; auto).
    now rewrite H.
  - intros N T. assert (PositionMonitor.decide position price = PositionMonitor.Hold) as H
        by (apply D3; auto).
    now rewrite H.
Qed.

(** What [close_position] can do: it leaves the ledger as it is or closes
    the symbol it was called for, and the only orders it sends are on that
    symbol. *)
Lemma close_position_effect (s reason : string) (w : World E) :
  (tracker (snd (close_position client s reason w)) = tracker w \/
   exists price xpnl now,
     tracker (snd (close_position client s reason w))
     = PositionTracker.close_position s price reason xpnl now (tracker w)) /\
  exists evs,
    log (snd (close_position client s reason w)) = log w ++ evs /\
    Forall (fun ev => match ev with
                      | EvCreateOrder r => req_symbol r = s
                      | _ => True
                      end) evs.
Proof.
  unfold close_position, try_except, bind, get_world, client_last_close,
    client_create_order, call, after_close, send_alert, send_message, emit, ret,
    raise, set_risk_manager, set_tracker, set_active_orders, get_world, record.
  simpl.
  destruct (PositionTracker.get_position s (tracker w)) as [position|] eqn:G; simpl.
  2:{ split; [now left|]. exists []. now rewrite app_nil_r. }
  destruct (last_close client s (env w)) as [[e|price] e1]; simpl.
  { destruct (has_notifier w); simpl; (split; [now left|]); rewrite <- ?app_assoc;
      eexists; (split; [reflexivity|]); repeat constructor. }
  destruct (create_order client (close_request s position) e1) as [[e|o] e2]; simpl.
  { destruct (has_notifier w); simpl; (split; [now left|]); rewrite <- ?app_assoc;
      eexists; (split; [reflexivity|]); repeat constructor. }
  destruct (risk_manager w) as [rm|]; simpl.
  - destruct (has_notifier w); simpl;
      (split; [right; eexists _, _, _; reflexivity|]); rewrite <- ?app_assoc;
        eexists; (split; [reflexivity|]); repeat constructor.
  - destruct (has_notifier w); simpl; (split; [now left|]); rewrite <- ?app_assoc;
      eexists; (split; [reflexivity|]); repeat constructor.
Qed.

Lemma check_one_keeps (p q : Position) (w : World E) :
  (symbol q = symbol p -> stop_loss q = None) ->
  PositionTracker.get_position (symbol p) (tracker w) = Some p ->
  PositionTracker.get_position
    (symbol p) (tracker (snd (PositionMonitor.check_one client q w))) = Some p /\
  exists evs,
    log (snd (PositionMonitor.check_one client q w)) = log w ++ evs /\
    Forall (spares (symbol p)) evs.
Proof.
  intros Hq G.
  destruct (client_last_close client (symbol q) w) as [r w1] eqn:K.
  assert (tracker w1 = tracker w /\ log w1 = log w ++ [EvKlines (symbol q)]) as [T1 L1].
  { unfold client_last_close, call in K. simpl in K.
    destruct (last_close client (symbol q) (env w)) as [r0 e1].
    inversion K; subst. auto. }
  destruct r as [e|price].
  - unfold PositionMonitor.check_one, bind. rewrite K. simpl.
    rewrite T1. split; [exact G|]. exists [EvKlines (symbol q)].
    split; [exact L1 | repeat constructor].
  - rewrite (check_one_priced q (price := price) w); [|now rewrite K].
    rewrite K. simpl snd.
    unfold PositionMonitor.decide.
    destruct (stop_loss q) as [sl|] eqn:S.
    2:{ rewrite T1. split; [exact G|]. exists [EvKlines (symbol q)].
        split; [exact L1 | repeat constructor]. }
    assert (symbol q <> symbol p) as D.
    { intros H. apply Hq in H. discriminate. }
    assert (forall reason,
               PositionTracker.get_position
                 (symbol p) (tracker (snd (close_position client (symbol q) reason w1)))
               = Some p /\
               exists evs,
                 log (snd (close_position client (symbol q) reason w1)) = log w ++ evs /\
                 Forall (spares (symbol p)) evs) as C.
    { intros reason.
      destruct (close_position_effect (symbol q) reason w1) as [[T|[pr [xp [nw T]]]] [evs [L F]]].
      - rewrite T, T1. split; [exact G|].
        exists (EvKlines (symbol q) :: evs). rewrite L, L1, <- app_assoc.
        split; [reflexivity|]. constructor; [exact I|].
        eapply Forall_impl; [|exact F]. intros [] H; simpl; auto. congruence.
      - rewrite T, T1, LedgerFacts.get_close.
        apply String.eqb_neq in D. rewrite D. split; [exact G|].
        exists (EvKlines (symbol q) :: evs). rewrite L, L1, <- app_assoc.
        split; [reflexivity|]. constructor; [exact I|].
        apply String.eqb_neq in D.
        eapply Forall_impl; [|exact F]. intros [] H; simpl; auto. congruence. }
    destruct (match side q with
              | BUY => Py.le price sl
              | SELL => Py.le sl price
              end); [apply C|].
    destruct (PositionMonitor.take_profit_hit (side q) price (take_profits q));
      [apply C|].
    rewrite T1. split; [exact G|]. exists [EvKlines (symbol q)].
    split; [exact L1 | repeat constructor].
Qed.

Lemma check_each_keeps (p : Position) (positions : list Position) :
  Forall (fun q => symbol q = symbol p -> stop_loss q = None) positions ->
  forall w : World E,
    PositionTracker.get_position (symbol p) (tracker w) = Some p ->
    PositionTracker.get_position
      (symbol p) (tracker (snd (PositionMonitor.check_each client positions w)))
    = Some p /\
    exists evs,
      log (snd (PositionMonitor.check_each client positions w)) = log w ++ evs /\
      Forall (spares (symbol p)) evs.
Proof.
  induction 1 as [|q rest Hq _ IH]; intros w G.
  - simpl. split; [exact G|]. exists []. now rewrite app_nil_r.
  - rewrite check_each_cons.
    destruct (check_one_keeps q w Hq G) as [G1 [evs1 [L1 F1]]].
    destruct (IH _ G1) as [G2 [evs2 [L2 F2]]].
    split; [exact G2|]. exists (evs1 ++ evs2).
    rewrite L2, L1, <- app_assoc. split; [reflexivity|].
    apply Forall_app. now split.
Qed.

Lemma check_each_without_stops (positions : list Position) :
  Forall (fun p => stop_loss p = None) positions ->
  steps (quiet (fun ev => exists s, ev = EvKlines s))
        (PositionMonitor.check_each client positions).
Proof.
  induction 1 as [|p rest Hp _ IH]; simpl.
  - walk.
  - apply q_bind; [|intros; exact IH].
    apply q_try; [|walk].
    unfold PositionMonitor.check_one, client_last_close.
    apply q_bind; [apply q_call; eauto|].
    intros price. unfold PositionMonitor.decide. rewrite Hp. walk.
Qed.

(** A position without a stop-loss is never closed by the monitor.  In a
    ledger with distinct keys, each position filed under its own symbol, an
    open position whose stop-loss is missing (the reconciliation records
    adopted positions that way) is still open after a pass, unchanged, and
    no order of the pass is on its symbol, whatever the pass did to the
    other positions: the comparison with the missing stop fails before any
    take-profit is looked at.  When no open position has a stop-loss, the
    pass only asks for prices and leaves the ledger as it is. *)
Theorem monitor_skips_positions_without_stop (w : World E) (p : Position) :
  Ledger.wf (tracker w) ->
  In p (PositionTracker.get_all_positions (tracker w)) ->
  stop_loss p = None ->
  PositionTracker.get_position
    (symbol p) (tracker (snd (PositionMonitor.check_positions client w))) = Some p /\
  (exists evs,
      log (snd (PositionMonitor.check_positions client w)) = log w ++ evs /\
      Forall (fun ev => match ev with
                        | EvCreateOrder r => req_symbol r <> symbol p
                        | _ => True
                        end) evs) /\
  (Forall (fun q => stop_loss q = None) (PositionTracker.get_all_positions (tracker w)) ->
   logs (fun ev => exists s, ev = EvKlines s) w
        (snd (PositionMonitor.check_positions client w)) /\
   tracker (snd (PositionMonitor.check_positions client w)) = tracker w).
Proof.
  intros W Hin S.
  assert (PositionMonitor.check_positions client w
          = PositionMonitor.check_each
              client (PositionTracker.get_all_positions (tracker w)) w) as X
      by reflexivity.
  rewrite X.
  assert (Forall (fun q => symbol q = symbol p -> stop_loss q = None)
                 (PositionTracker.get_all_positions (tracker w))) as A.
  { apply Forall_forall. intros q Hq Same.
    pose proof (@open_position_found _ _ W Hq) as Gq.
    pose proof (@open_position_found _ _ W Hin) as Gp.
    rewrite Same, Gp in Gq. inversion Gq; subst. exact S. }
  destruct (@check_each_keeps _ _ A w (@open_position_found _ _ W Hin)) as [G [evs [L F]]].
  split; [exact G|]. split; [exists evs; split; [exact L | exact F]|].
  intros H.
  destruct (PositionMonitor.check_each
              client (PositionTracker.get_all_positions (tracker w)) w)
    as [r w'] eqn:C.
  apply (check_each_without_stops H) in C. destruct C as [L' [T _]]. auto.
Qed.

End Monitor.

Lemma stop_loss_checked_first_witness :
  PositionMonitor.check_each
    (Fixture.scripted (Fixture.quoting 98))
    [mkPosition "X" BUY 2 100 None 0 (Some 99) [mkTP 105 50] None]
    (Fixture.holding (mkPosition "X" BUY 2 100 None 0 (Some 99) [mkTP 105 50] None))
  = PositionMonitor.check_each
      (Fixture.scripted (Fixture.quoting 98)) []
      (snd (close_position
              (Fixture.scripted (Fixture.quoting 98)) "X" "stop_loss"
              (snd (client_last_close
                      (Fixture.scripted (Fixture.quoting 98)) "X"
                      (Fixture.holding
                         (mkPosition "X" BUY 2 100 None 0 (Some 99) [mkTP 105 50] None)))))).
Proof.
  apply (@stop_loss_checked_first
           unit (Fixture.scripted (Fixture.quoting 98))
           (mkPosition "X" BUY 2 100 None 0 (Some 99) [mkTP 105 50] None) []
           99 98
           (Fixture.holding (mkPosition "X" BUY 2 100 None 0 (Some 99) [mkTP 105 50] None))
           eq_refl eq_refl).
  apply Qle_bool_iff. reflexivity.
Defined.

Lemma monitor_skips_positions_without_stop_witness :
  PositionTracker.get_position
    "Y"
    (tracker (snd (PositionMonitor.check_positions
                     (Fixture.scripted (Fixture.quoting 10))
                     (mkWorld tt []
                              (PositionTracker.add_position
                                 (Fixture.long_position "X" 100 2)
                                 (PositionTracker.sync_with_exchange
                                    [mkPR "Y" 4 50 51 5 1] 7 PositionTracker.init))
                              [] (Some Fixture.tracking_eth) true))))
  = Some (PositionTracker.adopted (mkPR "Y" 4 50 51 5 1) 7) /\
  PositionTracker.get_position
    "X"
    (tracker (snd (PositionMonitor.check_positions
                     (Fixture.scripted (Fixture.quoting 10))
                     (mkWorld tt []
                              (PositionTracker.add_position
                                 (Fixture.long_position "X" 100 2)
                                 (PositionTracker.sync_with_exchange
                                    [mkPR "Y" 4 50 51 5 1] 7 PositionTracker.init))
                              [] (Some Fixture.tracking_eth) true))))
  = None.
Proof.
  split.
  - apply (@monitor_skips_positions_without_stop
             unit (Fixture.scripted (Fixture.quoting 10))
             (mkWorld tt []
                      (PositionTracker.add_position
                         (Fixture.long_position "X" 100 2)
                         (PositionTracker.sync_with_exchange
                            [mkPR "Y" 4 50 51 5 1] 7 PositionTracker.init))
                      [] (Some Fixture.tracking_eth) true)
             (PositionTracker.adopted (mkPR "Y" 4 50 51 5 1) 7)).
    + apply LedgerFacts.reachable_wf. repeat constructor.
    + vm_compute. tauto.
    + reflexivity.
  - reflexivity.
Defined.

(** *** An exchange position found before the entry *)

Section Flatten.

Variable E : Type.
Variable client : Client E.

Lemma bind_after (A B : Type) (P : Event -> Prop) (m : M E A) (k : A -> M E B)
      (w : World E) :
  (forall a, steps (logs P) (k a)) -> logs P (snd (m w)) (snd (bind m k w)).
Proof.
  intros Hk. unfold bind. destruct (m w) as [[e|a] w1]; simpl.
  - apply logs_refl.
  - destruct (k a w1) as [r w2] eqn:K. simpl. eapply Hk. exact K.
Qed.

Lemma try_after (A : Type) (P : Event -> Prop) (m : M E A) (h : string -> M E A)
      (w : World E) :
  (forall e, steps (logs P) (h e)) -> logs P (snd (m w)) (snd (try_except m h w)).
Proof.
  intros Hh. unfold try_except. destruct (m w) as [[e|a] w1]; simpl.
  - destruct (h e w1) as [r w2] eqn:K. simpl. eapply Hh. exact K.
  - apply logs_refl.
Qed.

(** [place_order] first flattens what the exchange holds on the symbol:
    when the position query reports a nonzero amount, the first order sent,
    right after the query and before any entry order, is a reduce-only
    market order for the full amount on the side that closes it, whatever
    the side of the signal. *)
Theorem existing_position_flattened_first (signal : Signal) (w : World E)
        (positions : list PositionRisk) (e1 : E) (pos : PositionRisk) :
  get_position_risk client (env w) = (inr positions, e1) ->
  nonzero_position (sig_symbol signal) positions = Some pos ->
  exists evs,
    log (snd (place_order client signal w))
    = log w ++ EvPositionRisk
            :: EvCreateOrder (flatten_request (sig_symbol signal) pos) :: evs.
Proof.
  intros K N.
  assert (exists evs0,
             log (snd (_check_existing_position client (sig_symbol signal) w))
             = log w ++ EvPositionRisk
                     :: EvCreateOrder (flatten_request (sig_symbol signal) pos) :: evs0)
    as [evs0 L0].
  { unfold _check_existing_position, bind, client_get_position_risk,
      client_create_order, call, sleep, emit, record. simpl. rewrite K. simpl.
    rewrite N. simpl.
    destruct (create_order client _ e1) as [[e|o] e2]; simpl;
      rewrite <- ?app_assoc; simpl; eexists; reflexivity. }
  assert (logs no_query
               (snd (_check_existing_position client (sig_symbol signal) w))
               (snd (entry_phase client signal w))) as A1.
  { unfold entry_phase. apply bind_after. intros _.
    apply l_bind.
    - apply l_quiet. unfold _execute_market_order. apply market_loop_quiet.
    - intros [order|]; [destruct (Py.le (executedQty order) 0)|]; walk.
      apply l_quiet, fill_price_quiet. }
  assert (logs no_query (snd (entry_phase client signal w))
               (snd (place_order_body client signal w))) as A2.
  { unfold place_order_body. apply bind_after. intros oa.
    unfold _record_position, _send_trade_alert. unfold_client.
    walk; try (unfold no_query; simpl; tauto).
    apply l_quiet. eapply steps_weaken; [|apply place_sl_tp_quiet].
    intros w0 w' [L T]. split; auto.
    eapply logs_weaken; [|exact L]. apply bracket_no_query. }
  assert (logs no_query (snd (place_order_body client signal w))
               (snd (place_order client signal w))) as A3.
  { unfold place_order. eapply logs_trans; [|apply try_after].
    - apply bind_after. intros order. walk.
    - intros e. walk. apply handle_failure_logs. }
  destruct (logs_trans A1 (logs_trans A2 A3)) as [evs [L _]].
  exists (evs0 ++ evs). rewrite L, L0. rewrite <- app_assoc. reflexivity.
Qed.

End Flatten.

Lemma existing_position_flattened_first_witness :
  exists evs,
    log (snd (place_order (Fixture.scripted Fixture.exposed)
                          (mkSignal "Z" SELL (Some 70) 1 71 [mkTP 68 100] (Some 1) (Some 1))
                          Fixture.fresh))
    = [] ++ EvPositionRisk :: EvCreateOrder (mkReq "Z" BUY 2 MARKET None true) :: evs.
Proof.
  exact (@existing_position_flattened_first unit (Fixture.scripted Fixture.exposed)
           (mkSignal "Z" SELL (Some 70) 1 71 [mkTP 68 100] (Some 1) (Some 1))
           Fixture.fresh (Fixture.sc_positions Fixture.exposed) tt
           (mkPR "Z" (-2) 70 69 10 2) eq_refl eq_refl).
Defined.

End OrderMore.
